(** * Authentication and ledger engine of the Steam top-up bot (bot2.py)

    A shallow embedding of the security helpers (password policy, password
    hashing, symmetric cipher, rate limiter), of the configuration loader and
    of the balance-changing code paths of [src/bot2.py], followed by the
    properties that hold of them.

    Modelling conventions
    - A Python [str] is a [string] whose characters are read as the code
      points U+0000..U+00FF; [len] is [String.length].
    - Money ([DECIMAL(15, 2)] columns, [Decimal] values) is an integer number
      of hundredths. The code hands the amounts to sqlite as [float], which
      rounds each sum to the nearest double where the model is exact.
    - Time stamps ([time.time()], [created_at]) are integers.
    - A raised exception is the left injection of a sum; the right injection
      is a normal return.
    - Coroutines are run one after the other: a handler or one iteration of a
      background task is one step. *)

From Stdlib Require Import ZArith QArith String Ascii List Bool Lia.
From stdpp Require Import gmap strings list.

Local Open Scope Z_scope.

(* ===================================================================== *)
(** * Exceptions *)
(* ===================================================================== *)

(** [ErrorCode] of the source (an [Enum]). *)
Inductive ErrorCode :=
| DATABASE_CONNECTION_ERROR | INVALID_INPUT | RATE_LIMIT_EXCEEDED
| SECURITY_VIOLATION | TRANSACTION_FAILED | DATABASE_ERROR
| USERNAME_EXISTS | WEAK_PASSWORD | USER_NOT_FOUND | ACCOUNT_LOCKED
| AUTH_FAILED | INVALID_MFA_CODE | PAYMENT_FAILED | WITHDRAWAL_FAILED
| INSUFFICIENT_FUNDS | PERMISSION_DENIED | AUTH_REQUIRED | OPERATION_LIMIT
| INVALID_AMOUNT | INVALID_WALLET | UNKNOWN_ERROR.

(** The messages carried by [SecurityException]; the source builds a text,
    the constructor names say which one. *)
Inductive SecurityMessage :=
| PasswordTooShort (min_len : Z)   (* "not fewer than {min_length} characters" *)
| PasswordTooLong (max_len : Z)    (* "not more than {max_length} characters" *)
| PasswordNeedsUpper
| PasswordNeedsLower
| PasswordNeedsDigit
| PasswordNeedsSpecial
| PasswordTooCommon
| PasswordHasRepeats
| PasswordHasSequences
| HashCreationFailed               (* argon2 HashingError re-raised *)
| EncryptionFailed
| DecryptionInvalidToken           (* "decryption error: invalid token" *)
| DecryptionFailed                 (* "decryption error: {e}" *)
| CryptoInitFailed.

Inductive exn :=
| SecurityException (message : SecurityMessage)
| BotError (error_code : ErrorCode)
| ValueError (key : string)
| StorageError            (* an sqlite3 error: constraint, I/O, no transaction *)
| AttributeError.         (* a method the object does not have *)

Definition result (A : Type) : Type := (exn + A)%type.

(* ===================================================================== *)
(** * Characters and the regular expressions of the password checks *)
(* ===================================================================== *)

Definition chars (s : string) : list ascii := list_ascii_of_string s.

Definition len (s : string) : Z := Z.of_nat (String.length s).

Definition code (c : ascii) : N := N_of_ascii c.

Definition in_range (lo hi : N) (c : ascii) : bool :=
  ((lo <=? code c) && (code c <=? hi))%N.

(** [[A-Z]], [[a-z]] and [\d] (the only decimal digits below U+0100 are
    [0-9]). *)
Definition is_upper : ascii -> bool := in_range 65 90.
Definition is_lower : ascii -> bool := in_range 97 122.
Definition is_digit : ascii -> bool := in_range 48 57.

(** The class of [require_special]: the characters ! @ # $ % ^ & * ( ) , . ?
    : { } | < > and the double quote (code 34). *)
Definition special_chars : list ascii :=
  chars "!@#$%^&*(),.?:{}|<>" ++ [ascii_of_nat 34].

Definition is_special (c : ascii) : bool :=
  existsb (Ascii.eqb c) special_chars.

(** [[^A-Za-z0-9]] of [check_password_strength]. *)
Definition is_non_alnum (c : ascii) : bool :=
  negb (is_upper c || is_lower c || is_digit c).

(** [re.search] of a one-character class. *)
Definition search_class (cls : ascii -> bool) (s : string) : bool :=
  existsb cls (chars s).

(** [str.lower] below U+0100: [A-Z] and the Latin-1 capitals U+00C0..U+00DE
    (without the multiplication sign U+00D7) move up by 32. *)
Definition lower_char (c : ascii) : ascii :=
  if is_upper c || (in_range 192 222 c && negb (code c =? 215)%N)
  then ascii_of_N (code c + 32)
  else c.

Definition lower (s : string) : string :=
  string_of_list_ascii (map lower_char (chars s)).

Definition newline : ascii := ascii_of_nat 10.

(** [re.search(r'(.)\1{2,}', s)]: three equal characters in a row; the dot
    does not match a line feed. *)
Fixpoint has_repeat (l : list ascii) : bool :=
  match l with
  | a :: ((b :: c :: _) as t) =>
      (negb (Ascii.eqb a newline) && Ascii.eqb a b && Ascii.eqb b c)
      || has_repeat t
  | _ => false
  end.

Fixpoint prefixb (p l : list ascii) : bool :=
  match p, l with
  | [], _ => true
  | a :: p', b :: l' => Ascii.eqb a b && prefixb p' l'
  | _ :: _, [] => false
  end.

(** The literal [p] occurs somewhere in [l]. *)
Fixpoint occurs (p l : list ascii) : bool :=
  prefixb p l ||
  match l with
  | [] => false
  | _ :: t => occurs p t
  end.

(** [re.search] of an alternation of literals. *)
Definition search_any (alternatives : list string) (s : string) : bool :=
  existsb (fun a => occurs (chars a) (chars s)) alternatives.

(** [r'123|234|345|456|567|678|789|890'] *)
Definition digit_sequences : list string :=
  ["123"; "234"; "345"; "456"; "567"; "678"; "789"; "890"].

(** [r'qwer|wert|erty|rtyu|tyui|yuio|uiop'] *)
Definition keyboard_sequences : list string :=
  ["qwer"; "wert"; "erty"; "rtyu"; "tyui"; "yuio"; "uiop"].

Definition has_sequence (password : string) : bool :=
  search_any digit_sequences password
  || search_any keyboard_sequences (lower password).

(* ===================================================================== *)
(** * Password policy (Security.__init__, _validate_password_policy) *)
(* ===================================================================== *)

(** The [password_policy] dictionary. *)
Record PasswordPolicy := {
  min_length : Z;
  max_length : Z;
  require_upper : bool;
  require_lower : bool;
  require_digit : bool;
  require_special : bool;
  block_common : bool;
  block_repeats : bool;
  block_sequences : bool
}.

(** The dictionary built by [Security.__init__] from
    [config.PASSWORD_MIN_LENGTH]. *)
Definition make_password_policy (PASSWORD_MIN_LENGTH : Z) : PasswordPolicy :=
  {| min_length := Z.max 12 PASSWORD_MIN_LENGTH;
     max_length := 128;
     require_upper := true;
     require_lower := true;
     require_digit := true;
     require_special := true;
     block_common := true;
     block_repeats := true;
     block_sequences := true |}.

(** [_get_default_common_passwords] *)
Definition default_common_passwords : gset string :=
  list_to_set
    ["password"; "123456"; "qwerty"; "admin"; "welcome";
     "12345678"; "111111"; "sunshine"; "iloveyou"; "password1";
     "admin123"; "letmein"; "monkey"; "football"; "123123";
     "123456789"; "1234567890"; "12345"; "1234"; "1234567";
     "dragon"; "baseball"; "abc123"; "superman"; "master";
     "trustno1"; "access"; "flower"; "hello"; "solo";
     "secret"; "mustang"; "michael"; "shadow"; "jennifer";
     "jordan"; "1111"; "asdfgh"; "123qwe"; "qwerty123";
     "1q2w3e4r"; "qwertyuiop"; "passw0rd"; "starwars"; "freedom"].

Definition is_common (common_passwords : gset string) (password : string) : bool :=
  bool_decide (lower password ∈ common_passwords).

(** [_validate_password_policy]: returns normally or raises the
    [SecurityException] of the first failing test. The [isinstance] test of
    the source is the type of [password]. *)
Definition _validate_password_policy
    (password_policy : PasswordPolicy) (common_passwords : gset string)
    (password : string) : result unit :=
  if len password <? min_length password_policy then
    inl (SecurityException (PasswordTooShort (min_length password_policy)))
  else if max_length password_policy <? len password then
    inl (SecurityException (PasswordTooLong (max_length password_policy)))
  else if require_upper password_policy && negb (search_class is_upper password) then
    inl (SecurityException PasswordNeedsUpper)
  else if require_lower password_policy && negb (search_class is_lower password) then
    inl (SecurityException PasswordNeedsLower)
  else if require_digit password_policy && negb (search_class is_digit password) then
    inl (SecurityException PasswordNeedsDigit)
  else if require_special password_policy && negb (search_class is_special password) then
    inl (SecurityException PasswordNeedsSpecial)
  else if block_common password_policy && is_common common_passwords password then
    inl (SecurityException PasswordTooCommon)
  else if block_repeats password_policy && has_repeat (chars password) then
    inl (SecurityException PasswordHasRepeats)
  else if block_sequences password_policy && has_sequence password then
    inl (SecurityException PasswordHasSequences)
  else inr tt.

(** ** The Argon2 hasher

    The hasher is a library object. [argon2_hash] is its [hash] method
    ([None] is a [HashingError]); [argon2_verify] says what its [verify]
    method does with a stored hash and a password, and [argon2_elapsed] in
    which band the measured duration of that call falls. Every call made to
    the library is recorded, so that one can say that the primitive was not
    called. *)
Inductive PrimitiveCall :=
| Argon2Hash (password : string)
| Argon2Verify (stored_hash password : string).

Inductive VerifyOutcome :=
| VerifyOk (needs_rehash : bool)
| VerifyMismatch
| VerifyInvalidHash
| VerifyOtherError.

Inductive Timing := TooFast | Expected | TooSlow.

Class Argon2 := {
  argon2_hash : string -> option string;
  argon2_verify : string -> string -> VerifyOutcome;
  argon2_elapsed : string -> string -> Timing
}.

(** [hash_password]: the calls made to the hasher and the result. *)
Definition hash_password `{Argon2}
    (password_policy : PasswordPolicy) (common_passwords : gset string)
    (password : string) : list PrimitiveCall * result string :=
  match _validate_password_policy password_policy common_passwords password with
  | inl e => ([], inl e)
  | inr _ =>
      ([Argon2Hash password],
       match argon2_hash password with
       | Some digest => inr digest
       | None => inl (SecurityException HashCreationFailed)
       end)
  end.

(* ===================================================================== *)
(** * check_password_strength *)
(* ===================================================================== *)

(** [result['entropy']] is either the initial integer [0] or the product
    [len(password) * math.log2(char_set)], kept exact. *)
Inductive Entropy :=
| EntropyZero
| EntropyBits (length char_set : Z).

(** [math.log2] raises [ValueError] on a non-positive argument. *)
Definition math_log2 (length char_set : Z) : result Entropy :=
  if 0 <? char_set then inr (EntropyBits length char_set)
  else inl (ValueError "math domain error").

(** [entropy < bits]: [n * log2 c < b] exactly when [c ^ n < 2 ^ b]. *)
Definition entropy_lt (e : Entropy) (bits : Z) : bool :=
  match e with
  | EntropyZero => 0 <? bits
  | EntropyBits n c => c ^ n <? 2 ^ bits
  end.

Inductive StrengthIssue :=
| IssueTooShort (min_len : Z)
| IssueTooLong (max_len : Z)
| IssueNoUpper | IssueNoLower | IssueNoDigit | IssueNoSpecial
| IssueCommon | IssueRepeats | IssueDigitSequence | IssueLetterSequence.

(** The dictionary returned by [check_password_strength]. *)
Record StrengthReport := {
  sr_length : Z;
  sr_strength : Z;
  sr_entropy : Entropy;
  sr_issues : list StrengthIssue
}.

Definition issue_if (b : bool) (i : StrengthIssue) : list StrengthIssue :=
  if b then [i] else [].

Definition check_password_strength
    (password_policy : PasswordPolicy) (common_passwords : gset string)
    (password : string) : result StrengthReport :=
  let issues0 :=
    if len password <? min_length password_policy
    then [IssueTooShort (min_length password_policy)]
    else if max_length password_policy <? len password
    then [IssueTooLong (max_length password_policy)]
    else [] in
  let has_upper := search_class is_upper password in
  let has_lower := search_class is_lower password in
  let has_digit := search_class is_digit password in
  let has_special := search_class is_non_alnum password in
  let issues1 :=
    issues0
    ++ issue_if (negb has_upper && require_upper password_policy) IssueNoUpper
    ++ issue_if (negb has_lower && require_lower password_policy) IssueNoLower
    ++ issue_if (negb has_digit && require_digit password_policy) IssueNoDigit
    ++ issue_if (negb has_special && require_special password_policy) IssueNoSpecial in
  let char_set :=
    (if has_upper then 26 else 0) + (if has_lower then 26 else 0)
    + (if has_digit then 10 else 0) + (if has_special then 32 else 0) in
  match (if 0 <? char_set then math_log2 (len password) char_set
         else inr EntropyZero) with
  | inl e => inl e
  | inr entropy =>
      let strength0 :=
        if entropy_lt entropy 30 then 1
        else if entropy_lt entropy 50 then 2
        else if entropy_lt entropy 70 then 3
        else if entropy_lt entropy 100 then 4
        else 5 in
      let common := is_common common_passwords password in
      let strength := if common then 1 else strength0 in
      let issues2 :=
        issues1
        ++ issue_if common IssueCommon
        ++ issue_if (has_repeat (chars password)) IssueRepeats
        ++ issue_if (search_any digit_sequences password) IssueDigitSequence
        ++ issue_if (search_any keyboard_sequences (lower password)) IssueLetterSequence in
      inr {| sr_length := len password;
             sr_strength := strength;
             sr_entropy := entropy;
             sr_issues := issues2 |}
  end.

(* ===================================================================== *)
(** * Configuration (class Config) *)
(* ===================================================================== *)

(** [os.environ] *)
Abbreviation Environ := (gmap string string).

(** A Python [float]: comparisons with a not-a-number are all false. *)
Inductive PyFloat :=
| FNaN
| FNum (q : Q).

Definition float_lt (a b : PyFloat) : bool :=
  match a, b with
  | FNum x, FNum y => negb (Qle_bool y x)
  | _, _ => false
  end.

(** The constructors of the Python library that [Config] calls on the text
    of a variable: [int], [float], [Decimal] (a finite decimal, in
    hundredths; [None] stands for a raised exception, also the one raised
    when a decimal not-a-number is compared) and [Path(..).absolute()]. *)
Class PyBuiltins := {
  py_int : string -> option Z;
  py_float : string -> option PyFloat;
  py_decimal : string -> option Z;
  path_absolute : string -> string
}.

(** The values of the module-level constants. *)
Definition MIN_PASSWORD_LENGTH : Z := 12.
Definition MAX_PASSWORD_LENGTH : Z := 128.
Definition MAX_LOGIN_ATTEMPTS_DEFAULT : Z := 5.
Definition LOCKOUT_TIME_DEFAULT : Z := 300.

Record Config := {
  BOT_TOKEN : string;
  ADMIN_IDS : list Z;
  APP_NAME : string;
  REDIS_URL : string;
  REDIS_POOL_SIZE : Z;
  DB_PATH : string;
  BACKUP_DIR : string;
  LOGS_DIR : string;
  FERNET_KEY : string;
  PASSWORD_MIN_LENGTH : Z;
  MAX_LOGIN_ATTEMPTS : Z;
  LOCKOUT_TIME : Z;
  MIN_PAYMENT : Z;
  MAX_PAYMENT : Z;
  PAYMENT_COMMISSION : PyFloat;
  WITHDRAWAL_FEE : PyFloat;
  MAX_WITHDRAWAL : Z;
  MAX_MANUAL_BALANCE_CHANGE : Z;
  PAYMENT_LIMIT : Z;
  PAYMENT_LIMIT_PERIOD : Z;
  WITHDRAWAL_LIMIT : Z;
  WITHDRAWAL_LIMIT_PERIOD : Z
}.

(** Sequencing of computations that may raise. *)
Definition result_bind {A B} (m : result A) (f : A -> result B) : result B :=
  match m with
  | inl e => inl e
  | inr a => f a
  end.

Notation "'let!' x := m 'in' k" := (result_bind m (fun x => k))
  (at level 10, x name, m at level 100, k at level 200).

(** [_get_env]: [os.getenv(key, default)], and [ValueError] when that is
    [None]. *)
Definition _get_env (env : Environ) (key : string) (default : option string)
  : result string :=
  match env !! key with
  | Some value => inr value
  | None =>
      match default with
      | Some value => inr value
      | None => inl (ValueError key)
      end
  end.

(** Python's [str.split()] separators below U+0100. *)
Definition is_space (c : ascii) : bool :=
  in_range 9 13 c || in_range 28 32 c || (code c =? 133)%N || (code c =? 160)%N.

(** [ids_str.replace(',', ' ').split()]: the maximal runs of characters
    that are neither a comma nor white space. [word] is the run being read,
    in reverse. *)
Fixpoint split_ids (l : list ascii) (word : list ascii) : list string :=
  match l with
  | [] =>
      match word with
      | [] => []
      | _ => [string_of_list_ascii (rev word)]
      end
  | c :: l' =>
      if is_space c || Ascii.eqb c ","%char then
        match word with
        | [] => split_ids l' []
        | _ => string_of_list_ascii (rev word) :: split_ids l' []
        end
      else split_ids l' (c :: word)
  end.

(** [_parse_admin_ids]: an entry that is not an integer is logged and
    skipped. *)
Definition _parse_admin_ids `{PyBuiltins} (ids_str : string) : list Z :=
  omap py_int (split_ids (chars ids_str) []).

Definition _normalize_path `{PyBuiltins} (path : string) : string :=
  path_absolute path.

(** [_get_fernet_key]. [_get_env] is called with the default [None], so it
    raises when the variable is unset; the branch of the source that
    generates a key tests a value that is never [None]. *)
Definition _get_fernet_key (env : Environ) : result string :=
  let! key := _get_env env "FERNET_KEY" None in
  inr key.

(** [_get_int]; [int(str(default))] is [default]. Every [ValueError] of the
    body is re-raised as a [ValueError] naming the key. *)
Definition _get_int `{PyBuiltins} (env : Environ) (key : string) (default : Z)
    (min_val max_val : option Z) : result Z :=
  match (match env !! key with Some s => py_int s | None => Some default end) with
  | None => inl (ValueError key)
  | Some value =>
      if (match min_val with Some m => value <? m | None => false end)
      then inl (ValueError key)
      else if (match max_val with Some m => m <? value | None => false end)
      then inl (ValueError key)
      else inr value
  end.

(** [_get_float]; [float(str(default))] is [default]. *)
Definition _get_float `{PyBuiltins} (env : Environ) (key : string)
    (default min_val max_val : PyFloat) : result PyFloat :=
  match (match env !! key with Some s => py_float s | None => Some default end) with
  | None => inl (ValueError key)
  | Some value =>
      if float_lt value min_val || float_lt max_val value
      then inl (ValueError key)
      else inr value
  end.

(** [_get_decimal]; [Decimal(str(default))] is [default]. *)
Definition _get_decimal `{PyBuiltins} (env : Environ) (key : string)
    (default : Z) (min_val : option Z) : result Z :=
  match (match env !! key with Some s => py_decimal s | None => Some default end) with
  | None => inl (ValueError key)
  | Some value =>
      if (match min_val with Some m => value <? m | None => false end)
      then inl (ValueError key)
      else inr value
  end.

Definition startswith (prefix s : string) : bool :=
  prefixb (chars prefix) (chars s).

(** [_validate_config] (the [isinstance] test holds by typing). *)
Definition _validate_config (c : Config) : result unit :=
  if negb ((0 <? MIN_PAYMENT c) && (MIN_PAYMENT c <=? MAX_PAYMENT c))
  then inl (ValueError "payment limits")
  else if negb (startswith "redis://" (REDIS_URL c)
                || startswith "rediss://" (REDIS_URL c))
  then inl (ValueError "REDIS_URL")
  else if float_lt (PAYMENT_COMMISSION c) (FNum 0)
          || float_lt (FNum (1 # 2)) (PAYMENT_COMMISSION c)
  then inl (ValueError "PAYMENT_COMMISSION")
  else if float_lt (WITHDRAWAL_FEE c) (FNum 0)
          || float_lt (FNum (1 # 2)) (WITHDRAWAL_FEE c)
  then inl (ValueError "WITHDRAWAL_FEE")
  else inr tt.

(** [Config.__init__]. The creation of the directories, an effect on the
    file system, is not part of the model. *)
Definition Config_init `{PyBuiltins} (env : Environ) : result Config :=
  let! bot_token := _get_env env "BOT_TOKEN" None in
  let! admin_ids_str := _get_env env "ADMIN_IDS" (Some "") in
  let admin_ids := _parse_admin_ids admin_ids_str in
  let! app_name := _get_env env "APP_NAME" (Some "SteamTopupBot") in
  let! redis_url := _get_env env "REDIS_URL" (Some "redis://localhost:6379/0") in
  let! redis_pool_size := _get_int env "REDIS_POOL_SIZE" 10 (Some 1) (Some 50) in
  let! db_path := _get_env env "DB_PATH" (Some "data/database.db") in
  let! backup_dir := _get_env env "BACKUP_DIR" (Some "data/backups") in
  let! logs_dir := _get_env env "LOGS_DIR" (Some "data/logs") in
  let! fernet_key := _get_fernet_key env in
  let! password_min_length :=
    _get_int env "PASSWORD_MIN_LENGTH" MIN_PASSWORD_LENGTH (Some 8) None in
  let! max_login_attempts :=
    _get_int env "MAX_LOGIN_ATTEMPTS" MAX_LOGIN_ATTEMPTS_DEFAULT (Some 1) None in
  let! lockout_time := _get_int env "LOCKOUT_TIME" LOCKOUT_TIME_DEFAULT (Some 60) None in
  let! min_payment := _get_decimal env "MIN_PAYMENT" 1000 (Some 1) in
  let! max_payment := _get_decimal env "MAX_PAYMENT" 5000000 (Some min_payment) in
  let! payment_commission :=
    _get_float env "PAYMENT_COMMISSION" (FNum (5 # 100)) (FNum 0) (FNum (1 # 2)) in
  let! withdrawal_fee :=
    _get_float env "WITHDRAWAL_FEE" (FNum (3 # 100)) (FNum 0) (FNum (1 # 2)) in
  let! max_withdrawal := _get_decimal env "MAX_WITHDRAWAL" 10000000 (Some min_payment) in
  let! max_manual_balance_change :=
    _get_decimal env "MAX_MANUAL_BALANCE_CHANGE" 1000000 (Some 1) in
  let! payment_limit := _get_int env "PAYMENT_LIMIT" 10 (Some 1) None in
  let! payment_limit_period := _get_int env "PAYMENT_LIMIT_PERIOD" 3600 (Some 300) None in
  let! withdrawal_limit := _get_int env "WITHDRAWAL_LIMIT" 5 (Some 1) None in
  let! withdrawal_limit_period :=
    _get_int env "WITHDRAWAL_LIMIT_PERIOD" 86400 (Some 3600) None in
  let c :=
    {| BOT_TOKEN := bot_token;
       ADMIN_IDS := admin_ids;
       APP_NAME := app_name;
       REDIS_URL := redis_url;
       REDIS_POOL_SIZE := redis_pool_size;
       DB_PATH := _normalize_path db_path;
       BACKUP_DIR := _normalize_path backup_dir;
       LOGS_DIR := _normalize_path logs_dir;
       FERNET_KEY := fernet_key;
       PASSWORD_MIN_LENGTH := password_min_length;
       MAX_LOGIN_ATTEMPTS := max_login_attempts;
       LOCKOUT_TIME := lockout_time;
       MIN_PAYMENT := min_payment;
       MAX_PAYMENT := max_payment;
       PAYMENT_COMMISSION := payment_commission;
       WITHDRAWAL_FEE := withdrawal_fee;
       MAX_WITHDRAWAL := max_withdrawal;
       MAX_MANUAL_BALANCE_CHANGE := max_manual_balance_change;
       PAYMENT_LIMIT := payment_limit;
       PAYMENT_LIMIT_PERIOD := payment_limit_period;
       WITHDRAWAL_LIMIT := withdrawal_limit;
       WITHDRAWAL_LIMIT_PERIOD := withdrawal_limit_period |} in
  let! _ := _validate_config c in
  inr c.

(* ===================================================================== *)
(** * The Security object: events, cipher, rate limiter, password check *)
(* ===================================================================== *)

Inductive Severity := low | medium | high | critical.

(** An entry of [security_events] (its time stamp left out). *)
Record SecurityEvent := {
  event_type : string;
  severity : Severity;
  ev_user_id : option Z;
  details : string
}.

(** A value of the [rate_limits] dictionary. *)
Record RateEntry := {
  count : Z;
  timestamp : Z
}.

(** The mutable attributes of a [Security] object. [admin_alerts] is what
    [alert_admins] has written to the critical log. *)
Record Security := {
  rate_limits : gmap string RateEntry;
  lockout_tracker : gmap string Z;
  security_events : list SecurityEvent;
  admin_alerts : list (string * string)
}.

(** The attributes after [Security.__init__]. *)
Definition Security_init : Security :=
  {| rate_limits := ∅; lockout_tracker := ∅;
     security_events := []; admin_alerts := [] |}.

Definition substring_from_start (n : nat) (s : string) : string :=
  String.substring 0 n s.

(** [log_security_event]: the details are cut after 500 characters, the event
    is appended, and a high or critical event is passed to [alert_admins]. *)
Definition log_security_event (event : string) (detail : string)
    (sev : Severity) (user : option Z) (s : Security) : Security :=
  let truncated_details :=
    if 500 <? len detail then substring_from_start 500 detail +:+ "..."
    else detail in
  let ev := {| event_type := event; severity := sev;
               ev_user_id := user; details := truncated_details |} in
  {| rate_limits := rate_limits s;
     lockout_tracker := lockout_tracker s;
     security_events := security_events s ++ [ev];
     admin_alerts :=
       match sev with
       | high | critical => admin_alerts s ++ [(event, truncated_details)]
       | _ => admin_alerts s
       end |}.

(** ** Symmetric cipher

    Fernet, base64 and the UTF-8 codec belong to the Python library; they
    are taken with the properties their documentation states. [None] is a
    raised exception: [InvalidToken] for [fernet_decrypt], [binascii.Error]
    for [urlsafe_b64decode], [UnicodeDecodeError] for [utf8_decode].
    [fernet_encrypt] takes the fresh randomness (initialisation vector and
    time stamp) as [nonce]. *)
Abbreviation bytes := (list Byte.byte).

Class CryptoLib := {
  Json : Type;
  json_dumps : Json -> string;
  utf8_encode : string -> bytes;
  utf8_decode : bytes -> option string;
  fernet_encrypt : string -> N -> bytes -> bytes;
  fernet_decrypt : string -> bytes -> option bytes;
  urlsafe_b64encode : bytes -> bytes;
  urlsafe_b64decode : string -> option bytes;
  utf8_decode_encode : forall s, utf8_decode (utf8_encode s) = Some s;
  fernet_decrypt_encrypt :
    forall key nonce m, fernet_decrypt key (fernet_encrypt key nonce m) = Some m;
  b64_text : forall b, is_Some (utf8_decode (urlsafe_b64encode b));
  b64_decode_encode :
    forall b t, utf8_decode (urlsafe_b64encode b) = Some t ->
                urlsafe_b64decode t = Some b
}.

(** The argument of [encrypt_data]: [Union[str, dict]]. *)
Inductive CipherData `{CryptoLib} :=
| DataStr (s : string)
| DataDict (d : Json).

(** [encrypt_data]; [key] is [config.FERNET_KEY], held by [cipher_suite]. *)
Definition encrypt_data `{CryptoLib} (key : string) (nonce : N)
    (data : CipherData) : result string :=
  let text :=
    match data with
    | DataStr s => s
    | DataDict d => json_dumps d
    end in
  let encrypted := fernet_encrypt key nonce (utf8_encode text) in
  match utf8_decode (urlsafe_b64encode encrypted) with
  | Some token => inr token
  | None => inl (SecurityException EncryptionFailed)
  end.

(** [decrypt_data] *)
Definition decrypt_data `{CryptoLib} (key : string) (encrypted_data : string)
    (s : Security) : result string * Security :=
  match urlsafe_b64decode encrypted_data with
  | None =>
      (inl (SecurityException DecryptionFailed),
       log_security_event "decryption_error" "Decryption failed" critical None s)
  | Some encrypted_bytes =>
      match fernet_decrypt key encrypted_bytes with
      | None =>
          (inl (SecurityException DecryptionInvalidToken),
           log_security_event "decryption_failed"
             "Invalid token during decryption" high None s)
      | Some plain =>
          match utf8_decode plain with
          | Some text => (inr text, s)
          | None =>
              (inl (SecurityException DecryptionFailed),
               log_security_event "decryption_error" "Decryption failed"
                 critical None s)
          end
      end
  end.

(** ** Rate limiter *)

Definition set_rate_limits (m : gmap string RateEntry) (s : Security) : Security :=
  {| rate_limits := m; lockout_tracker := lockout_tracker s;
     security_events := security_events s; admin_alerts := admin_alerts s |}.

Definition set_lockout_tracker (m : gmap string Z) (s : Security) : Security :=
  {| rate_limits := rate_limits s; lockout_tracker := m;
     security_events := security_events s; admin_alerts := admin_alerts s |}.

(** The dictionary key [f"{identifier}_{action}"]. *)
Definition rate_key (identifier action : string) : string :=
  identifier +:+ "_" +:+ action.

(** [check_rate_limit]; [now] is the value of [time.time()]. *)
Definition check_rate_limit (now : Z) (identifier action : string)
    (max_attempts period : Z) (s : Security) : bool * Security :=
  let key := rate_key identifier action in
  let after_lockout (s : Security) : bool * Security :=
    match rate_limits s !! key with
    | None =>
        (true, set_rate_limits
                 (<[key := {| count := 1; timestamp := now |}]> (rate_limits s)) s)
    | Some entry =>
        if period <? now - timestamp entry then
          (true, set_rate_limits
                   (<[key := {| count := 1; timestamp := now |}]> (rate_limits s)) s)
        else
          let entry' := {| count := count entry + 1; timestamp := timestamp entry |} in
          let s1 := set_rate_limits (<[key := entry']> (rate_limits s)) s in
          if max_attempts <? count entry' then
            (false,
             log_security_event "rate_limit_exceeded"
               ("Action: " +:+ action +:+ ", Identifier: " +:+ identifier)
               high None
               (set_lockout_tracker (<[key := now]> (lockout_tracker s1)) s1))
          else (true, s1)
    end in
  match lockout_tracker s !! key with
  | Some lockout_time =>
      if now - lockout_time <? period then (false, s)
      else after_lockout (set_lockout_tracker (delete key (lockout_tracker s)) s)
  | None => after_lockout s
  end.

(** Successive calls of [check_rate_limit] for one key at the given times;
    the answers are returned in call order. *)
Fixpoint rate_limit_calls (times : list Z) (identifier action : string)
    (max_attempts period : Z) (s : Security) : list bool * Security :=
  match times with
  | [] => ([], s)
  | now :: rest =>
      let '(allowed, s1) := check_rate_limit now identifier action max_attempts period s in
      let '(answers, s2) := rate_limit_calls rest identifier action max_attempts period s1 in
      (allowed :: answers, s2)
  end.

(** ** verify_password *)

(** [_detect_bruteforce_attempt] on a duration below 0.1 s, above 1.0 s or
    in between. *)
Definition _detect_bruteforce_attempt (t : Timing) (s : Security) : Security :=
  match t with
  | TooFast =>
      log_security_event "suspicious_verification_speed"
        "Password verification too fast" high None s
  | TooSlow =>
      log_security_event "suspicious_verification_speed"
        "Password verification too slow" high None s
  | Expected => s
  end.

Definition is_empty (s : string) : bool :=
  match s with
  | EmptyString => true
  | _ => false
  end.

(** [verify_password]: the answer, the calls made to the hasher, and the
    security object afterwards. *)
Definition verify_password `{Argon2} (password stored_hash : string)
    (s : Security) : bool * list PrimitiveCall * Security :=
  if is_empty password || is_empty stored_hash then (false, [], s)
  else
    let called := [Argon2Verify stored_hash password] in
    match argon2_verify stored_hash password with
    | VerifyOk needs_rehash =>
        (true, called,
         if needs_rehash
         then log_security_event "password_rehash_needed"
                "Password hash needs rehashing" medium None s
         else s)
    | VerifyMismatch =>
        (false, called,
         _detect_bruteforce_attempt (argon2_elapsed stored_hash password) s)
    | VerifyInvalidHash =>
        (false, called,
         log_security_event "invalid_hash_format"
           "Invalid hash format during verification" high None s)
    | VerifyOtherError =>
        (false, called,
         log_security_event "password_verification_error"
           "Unexpected error" critical None s)
    end.

(* ===================================================================== *)
(** * The durable store (class Database, class DatabaseTransaction) *)
(* ===================================================================== *)

Inductive TxStatus := pending | processing | completed | failed | canceled.
Inductive TxType := deposit | withdrawal | admin_adjustment.

#[global] Instance TxStatus_eq_dec : EqDecision TxStatus.
Proof. solve_decision. Defined.
#[global] Instance TxType_eq_dec : EqDecision TxType.
Proof. solve_decision. Defined.

(** A row of the table [users]. *)
Record User := {
  username : string;
  password_hash : string;
  is_active : bool;
  failed_login_attempts : Z;
  mfa_secret : option string;
  balance : Z
}.

(** A row of the table [transactions]. *)
Record Transaction := {
  transaction_id : string;
  user_id : Z;
  amount : Z;
  status : TxStatus;
  tx_type : TxType;
  created_at : Z;
  completed_at : option Z;
  wallet_address : option string;
  description : string
}.

Record Session := {
  session_id : string;
  session_user_id : Z;
  token : string;
  ip_address : string;
  expires_at : Z
}.

Record AuditRecord := {
  audit_user_id : option Z;
  action_type : string;
  action_details : string
}.

Record Database := {
  users : gmap Z User;
  transactions : list Transaction;
  sessions : list Session;
  audit_log : list AuditRecord
}.

Definition empty_database : Database :=
  {| users := ∅; transactions := []; sessions := []; audit_log := [] |}.

Definition set_users (m : gmap Z User) (db : Database) : Database :=
  {| users := m; transactions := transactions db;
     sessions := sessions db; audit_log := audit_log db |}.

Definition set_transactions (l : list Transaction) (db : Database) : Database :=
  {| users := users db; transactions := l;
     sessions := sessions db; audit_log := audit_log db |}.

Definition set_balance (b : Z) (u : User) : User :=
  {| username := username u; password_hash := password_hash u;
     is_active := is_active u; failed_login_attempts := failed_login_attempts u;
     mfa_secret := mfa_secret u; balance := b |}.

Definition set_failed_login_attempts (n : Z) (u : User) : User :=
  {| username := username u; password_hash := password_hash u;
     is_active := is_active u; failed_login_attempts := n;
     mfa_secret := mfa_secret u; balance := balance u |}.

Definition set_is_active (b : bool) (u : User) : User :=
  {| username := username u; password_hash := password_hash u;
     is_active := b; failed_login_attempts := failed_login_attempts u;
     mfa_secret := mfa_secret u; balance := balance u |}.

Definition set_status (s : TxStatus) (now : Z) (t : Transaction) : Transaction :=
  {| transaction_id := transaction_id t; user_id := user_id t;
     amount := amount t; status := s; tx_type := tx_type t;
     created_at := created_at t; completed_at := Some now;
     wallet_address := wallet_address t; description := description t |}.

(** ** SQL statements

    A data-changing statement maps the tables to the new tables, or to
    [None] when a constraint of the schema rejects it (an
    [sqlite3.IntegrityError]). The constraints kept are those on the money
    columns and the keys: [CHECK(balance >= 0)], [CHECK(amount > 0)],
    [CHECK(failed_login_attempts >= 0)], the primary keys and the foreign
    keys to [users]. *)
Definition Statement : Type := Database -> option Database.

(** [UPDATE users SET ... WHERE user_id = ?] with the new row computed by
    [f]; no row is changed when the user does not exist. *)
Definition update_user_row (f : User -> User) (uid : Z) : Statement :=
  fun db =>
    match users db !! uid with
    | None => Some db
    | Some u =>
        let u' := f u in
        if (balance u' <? 0) || (failed_login_attempts u' <? 0) then None
        else Some (set_users (<[uid := u']> (users db)) db)
    end.

(** [UPDATE users SET balance = balance + ? WHERE user_id = ?] *)
Definition sql_add_balance (delta : Z) (uid : Z) : Statement :=
  update_user_row (fun u => set_balance (balance u + delta) u) uid.

(** [UPDATE users SET balance = balance - ? WHERE user_id = ?] *)
Definition sql_sub_balance (delta : Z) (uid : Z) : Statement :=
  update_user_row (fun u => set_balance (balance u - delta) u) uid.

(** [UPDATE users SET balance = ? WHERE user_id = ?] *)
Definition sql_set_balance (b : Z) (uid : Z) : Statement :=
  update_user_row (set_balance b) uid.

(** [UPDATE users SET failed_login_attempts = failed_login_attempts + 1 ...] *)
Definition sql_incr_failed_logins (uid : Z) : Statement :=
  update_user_row
    (fun u => set_failed_login_attempts (failed_login_attempts u + 1) u) uid.

(** [UPDATE users SET failed_login_attempts = 0, last_login = ... ] *)
Definition sql_reset_failed_logins (uid : Z) : Statement :=
  update_user_row (set_failed_login_attempts 0) uid.

(** [UPDATE users SET is_active = 0 WHERE user_id = ?] *)
Definition sql_deactivate (uid : Z) : Statement :=
  update_user_row (set_is_active false) uid.

Definition has_transaction (tid : string) (db : Database) : bool :=
  existsb (fun t => String.eqb (transaction_id t) tid) (transactions db).

(** [INSERT INTO transactions (...) VALUES (...)] *)
Definition sql_insert_transaction (t : Transaction) : Statement :=
  fun db =>
    if has_transaction (transaction_id t) db then None
    else if amount t <=? 0 then None
    else match users db !! user_id t with
         | None => None
         | Some _ => Some (set_transactions (transactions db ++ [t]) db)
         end.

(** [UPDATE transactions SET status = ?, completed_at = datetime('now')
    WHERE transaction_id = ?] *)
Definition sql_update_status (tid : string) (s : TxStatus) (now : Z) : Statement :=
  fun db =>
    Some (set_transactions
            (map (fun t => if String.eqb (transaction_id t) tid
                           then set_status s now t else t)
                 (transactions db)) db).

(** The collation [NOCASE] folds the letters [A-Z]. *)
Definition nocase (s : string) : string :=
  string_of_list_ascii
    (map (fun c => if is_upper c then ascii_of_N (code c + 32) else c) (chars s)).

Definition username_taken (name : string) (db : Database) : bool :=
  existsb (fun entry => String.eqb (nocase (username (snd entry))) (nocase name))
    (map_to_list (users db)).

(** [INSERT INTO users (...) VALUES (...)]; [username] is [UNIQUE]. *)
Definition sql_insert_user (uid : Z) (u : User) : Statement :=
  fun db =>
    match users db !! uid with
    | Some _ => None
    | None =>
        if username_taken (username u) db then None
        else if (balance u <? 0) || (failed_login_attempts u <? 0) then None
        else Some (set_users (<[uid := u]> (users db)) db)
    end.

(** [INSERT INTO audit_log (...) VALUES (...)]; a user id that is given must
    exist. *)
Definition sql_insert_audit (r : AuditRecord) : Statement :=
  fun db =>
    match audit_user_id r with
    | Some uid =>
        match users db !! uid with
        | None => None
        | Some _ =>
            Some {| users := users db; transactions := transactions db;
                    sessions := sessions db; audit_log := audit_log db ++ [r] |}
        end
    | None =>
        Some {| users := users db; transactions := transactions db;
                sessions := sessions db; audit_log := audit_log db ++ [r] |}
    end.

(** [INSERT INTO sessions (...) VALUES (...)] *)
Definition sql_insert_session (s : Session) : Statement :=
  fun db =>
    if existsb (fun s' => String.eqb (session_id s') (session_id s)) (sessions db)
    then None
    else match users db !! session_user_id s with
         | None => None
         | Some _ =>
             Some {| users := users db; transactions := transactions db;
                     sessions := sessions db ++ [s]; audit_log := audit_log db |}
         end.

(** ** The running bot

    [disk] holds the committed tables; [txn] the tables as the one
    connection sees them while a transaction is open. [faults] scripts the
    failures of the environment: every statement, query, commit and outgoing
    message takes the next flag, and fails when it is [true]; an empty script
    means no failure. [security] is the [Security] object and [calls] the
    calls made to the Argon2 library so far. *)
Record World := {
  disk : Database;
  txn : option Database;
  faults : list bool;
  security : Security;
  calls : list PrimitiveCall
}.

Definition set_store (d : Database) (t : option Database) (w : World) : World :=
  {| disk := d; txn := t; faults := faults w;
     security := security w; calls := calls w |}.

Definition set_faults (f : list bool) (w : World) : World :=
  {| disk := disk w; txn := txn w; faults := f;
     security := security w; calls := calls w |}.

Definition set_security (s : Security) (w : World) : World :=
  {| disk := disk w; txn := txn w; faults := faults w;
     security := s; calls := calls w |}.

Definition add_calls (c : list PrimitiveCall) (w : World) : World :=
  {| disk := disk w; txn := txn w; faults := faults w;
     security := security w; calls := calls w ++ c |}.

(** A bot without pending transaction, failures or history. *)
Definition quiet_world (d : Database) : World :=
  {| disk := d; txn := None; faults := [];
     security := Security_init; calls := [] |}.

(** The tables as the connection reads them. *)
Definition view (w : World) : Database := default (disk w) (txn w).

(** Computations of the bot: a state and exception monad over [World]. *)
Definition IO (A : Type) : Type := World -> result A * World.

#[global] Instance IO_ret : MRet IO := fun A a w => (inr a, w).
#[global] Instance IO_bind : MBind IO := fun A B f m w =>
  match m w with
  | (inr a, w') => f a w'
  | (inl e, w') => (inl e, w')
  end.

Definition raise {A} (e : exn) : IO A := fun w => (inl e, w).

(** [try: m  except Exception as e: handler e] *)
Definition try_except {A} (m : IO A) (handler : exn -> IO A) : IO A :=
  fun w =>
    match m w with
    | (inr a, w') => (inr a, w')
    | (inl e, w') => handler e w'
    end.

(** Takes the next flag of the failure script. *)
Definition next_fault : IO bool := fun w =>
  match faults w with
  | [] => (inr false, w)
  | b :: rest => (inr b, set_faults rest w)
  end.

(** Anything that leaves the process and may fail: sending a message. *)
Definition external_call : IO unit :=
  b ← next_fault; if b : bool then raise StorageError else mret tt.

(** [cursor.execute] of a data-changing statement; sqlite opens a
    transaction before it when none is open. A statement that fails leaves
    the connection of the model as it was, where sqlite keeps the
    transaction that it opened for the statement. *)
Definition sql_execute (stmt : Statement) : IO unit :=
  b ← next_fault;
  if b : bool then raise StorageError
  else fun w =>
    match stmt (view w) with
    | None => (inl StorageError, w)
    | Some d => (inr tt, set_store (disk w) (Some d) w)
    end.

(** [cursor.execute] of a [SELECT] and the fetch of its rows. *)
Definition sql_query {A} (q : Database -> A) : IO A :=
  b ← next_fault;
  if b : bool then raise StorageError
  else fun w => (inr (q (view w)), w).

(** [connection.commit()]: does nothing when no transaction is open. *)
Definition connection_commit : IO unit :=
  b ← next_fault;
  if b : bool then raise StorageError
  else fun w => (inr tt, set_store (view w) None w).

(** The statements [BEGIN], [COMMIT] and [ROLLBACK]. [BEGIN] and [ROLLBACK]
    fail only for the state of the connection. *)
Definition sql_begin : IO unit := fun w =>
  match txn w with
  | Some _ => (inl StorageError, w)
  | None => (inr tt, set_store (disk w) (Some (disk w)) w)
  end.

Definition sql_commit : IO unit :=
  b ← next_fault;
  if b : bool then raise StorageError
  else fun w =>
    match txn w with
    | None => (inl StorageError, w)
    | Some d => (inr tt, set_store d None w)
    end.

Definition sql_rollback : IO unit := fun w =>
  match txn w with
  | None => (inl StorageError, w)
  | Some _ => (inr tt, set_store (disk w) None w)
  end.

(** [Database.execute(query, params, commit=...)] *)
Definition Database_execute (stmt : Statement) (commit : bool) : IO unit :=
  try_except
    (sql_execute stmt;; if commit then connection_commit else mret tt)
    (fun _ => raise (BotError DATABASE_ERROR)).

(** [Database.fetch_one] and [Database.fetch_all] *)
Definition fetch_one {A} (q : Database -> option A) : IO (option A) :=
  try_except (sql_query q) (fun _ => raise (BotError DATABASE_ERROR)).

Definition fetch_all {A} (q : Database -> list A) : IO (list A) :=
  try_except (sql_query q) (fun _ => raise (BotError DATABASE_ERROR)).

Definition get_user (uid : Z) : IO (option User) :=
  fetch_one (fun db => users db !! uid).

Definition update_transaction_status (now : Z) (tid : string) (s : TxStatus)
  : IO unit :=
  Database_execute (sql_update_status tid s now) true.

Definition log_audit (uid : option Z) (action detail : string) : IO unit :=
  Database_execute
    (sql_insert_audit {| audit_user_id := uid; action_type := action;
                         action_details := detail |}) true.

(** [Database.create_transaction]; [created_at] defaults to the current
    time. *)
Definition create_transaction (t : Transaction) : IO unit :=
  try_except (Database_execute (sql_insert_transaction t) true)
    (fun _ => raise (BotError DATABASE_ERROR)).

(** [async with self.db.transaction() as tx: body]: [__aenter__] runs
    [BEGIN]; [__aexit__] runs [COMMIT] after a normal end of the body and
    [ROLLBACK] after an exception, which it lets through; when that
    statement fails it tries [ROLLBACK] and raises [DATABASE_ERROR]. *)
Definition run_in_transaction {A} (body : IO A) : IO A := fun w =>
  match body w with
  | (inr a, w1) =>
      match sql_commit w1 with
      | (inr _, w2) => (inr a, w2)
      | (inl _, w2) => (inl (BotError DATABASE_ERROR), snd (sql_rollback w2))
      end
  | (inl e, w1) =>
      match sql_rollback w1 with
      | (inr _, w2) => (inl e, w2)
      | (inl _, w2) => (inl (BotError DATABASE_ERROR), snd (sql_rollback w2))
      end
  end.

Definition with_transaction {A} (body : IO A) : IO A :=
  sql_begin;; run_in_transaction body.

(** [for x in l: try: body x  except Exception: (log)] *)
Fixpoint for_each_guarded {A} (l : list A) (body : A -> IO unit) : IO unit :=
  match l with
  | [] => mret tt
  | x :: rest =>
      try_except (body x) (fun _ => mret tt);;
      for_each_guarded rest body
  end.

(* ===================================================================== *)
(** * Balance-changing code paths *)
(* ===================================================================== *)

(** [_handle_error]: the error is logged and reported; failures of the
    report are caught there, so the handlers that end in it return
    normally. *)
Definition _handle_error (e : exn) : IO unit := mret tt.

(** ** Deposits: PaymentSystem.create_payment and _task_payment_processing

    The class body of [PaymentSystem] binds [create_payment],
    [process_withdrawal] and [check_payment_status] twice: first the
    store-backed methods, then stubs of the same names, which are the ones
    the class keeps. Both are modelled; [Binding] says which one a step
    runs. The answer of the payment provider is an argument of the task, so
    that the two bindings of [check_payment_status] are two of its values. *)
Inductive Binding := earlier | later.

Definition payment_methods : list string := ["card"; "qiwi"; "crypto"].

Record Payment := {
  payment_transaction_id : string;
  payment_amount : Z;
  payment_method : string
}.

Definition create_payment (cfg : Config) (now : Z) (token_hex : string)
    (uid : Z) (amt : Z) (method_id : string) : IO Payment :=
  if amt <? MIN_PAYMENT cfg then raise (BotError INVALID_AMOUNT)
  else if MAX_PAYMENT cfg <? amt then raise (BotError INVALID_AMOUNT)
  else if negb (existsb (String.eqb method_id) payment_methods)
  then raise (BotError INVALID_INPUT)
  else
    let tid := "pay_" +:+ token_hex in
    create_transaction
      {| transaction_id := tid; user_id := uid; amount := amt;
         status := pending; tx_type := deposit; created_at := now;
         completed_at := None; wallet_address := None;
         description := "deposit via " +:+ method_id |};;
    mret {| payment_transaction_id := tid; payment_amount := amt;
            payment_method := method_id |}.

(** The later bindings of [create_payment] and [check_payment_status]. *)
Definition create_payment_rebound (token_hex : string) (amt : Z)
    (method_id : string) : IO Payment :=
  mret {| payment_transaction_id := "pay_" +:+ token_hex;
          payment_amount := amt; payment_method := method_id |}.

Definition check_payment_status_rebound (tid : string) : TxStatus := completed.

Definition is_pending_payment (now : Z) (t : Transaction) : bool :=
  bool_decide (status t = pending) && (now - 86400 <? created_at t).

(** The body of the [for] loop of [_task_payment_processing];
    [check_payment_status] is the answer of the provider for a transaction
    id. *)
Definition process_payment (now : Z) (check_payment_status : string -> TxStatus)
    (payment : Transaction) : IO unit :=
  let new_status := check_payment_status (transaction_id payment) in
  if bool_decide (new_status <> status payment) then
    update_transaction_status now (transaction_id payment) new_status;;
    if bool_decide (new_status = completed) then
      Database_execute (sql_add_balance (amount payment) (user_id payment)) true;;
      external_call
    else mret tt
  else mret tt.

(** One round of the [while True] loop of [_task_payment_processing]. *)
Definition _task_payment_processing (now : Z)
    (check_payment_status : string -> TxStatus) : IO unit :=
  try_except
    (pending_payments ←
       fetch_all (fun db => List.filter (is_pending_payment now) (transactions db));
     for_each_guarded pending_payments (process_payment now check_payment_status))
    (fun _ => mret tt).

(** ** Withdrawals *)

Definition is_alnum (c : ascii) : bool :=
  is_upper c || is_lower c || is_digit c.

(** [validate_wallet_address]: 20 to 50 letters and digits. Each of the
    patterns that [validate_input] refuses contains a character that is
    neither, so none can occur. *)
Definition validate_wallet_address (wallet : string) : bool :=
  (20 <=? len wallet) && (len wallet <=? 50) && forallb is_alnum (chars wallet).

(** Modelled from the spec: [PaymentSystem.create_withdrawal] is called by
    [_process_withdraw_wallet] and defined nowhere in the source. It is
    taken to return the description of the withdrawal (its transaction id,
    fee and net amount) or a false value, without writing to the store. *)
Record Withdrawal := {
  withdrawal_transaction_id : string;
  fee : Z;
  net_amount : Z
}.

(** [_process_withdraw_wallet]. [cancel] says that the message is the cancel
    word; [amt] is [data['amount']], [wallet] the stripped message text and
    [created] the value returned by [create_withdrawal]. *)
Definition _process_withdraw_wallet (now : Z) (uid : Z) (cancel : bool)
    (amt : Z) (wallet : string) (created : option Withdrawal) : IO unit :=
  try_except
    (if cancel then external_call
     else if negb (validate_wallet_address wallet)
     then raise (BotError INVALID_WALLET)
     else
       with_transaction
         (external_call;;
          match created with
          | None => raise (BotError WITHDRAWAL_FAILED)
          | Some w =>
              sql_execute (sql_sub_balance amt uid);;
              sql_execute
                (sql_insert_transaction
                   {| transaction_id := withdrawal_transaction_id w;
                      user_id := uid; amount := amt; status := processing;
                      tx_type := withdrawal; created_at := now;
                      completed_at := None; wallet_address := Some wallet;
                      description := "" |});;
              external_call;;
              log_audit (Some uid) "withdrawal_created" wallet
          end))
    _handle_error.

(** [PaymentSystem.process_withdrawal]; [success] is the outcome of the
    transfer. *)
Definition process_withdrawal (now : Z) (success : bool) (tid : string) : IO bool :=
  found ← fetch_one (fun db =>
             List.find (fun t => String.eqb (transaction_id t) tid) (transactions db));
  match found with
  | None => mret false
  | Some t =>
      if success then
        update_transaction_status now tid completed;; mret true
      else
        update_transaction_status now tid failed;;
        Database_execute (sql_add_balance (amount t) (user_id t)) true;;
        mret false
  end.

(** The later binding of [process_withdrawal]. *)
Definition process_withdrawal_rebound (tid : string) : IO bool := mret true.

Definition is_processing_withdrawal (t : Transaction) : bool :=
  bool_decide (status t = processing) && bool_decide (tx_type t = withdrawal).

(** The body of the [for] loop of [_task_withdrawal_processing];
    [process] is [self.payment.process_withdrawal]. *)
Definition withdrawal_round (now : Z) (process : string -> IO bool)
    (w : Transaction) : IO unit :=
  success ← process (transaction_id w);
  if success : bool then
    update_transaction_status now (transaction_id w) completed;;
    external_call
  else
    Database_execute (sql_add_balance (amount w) (user_id w)) true;;
    update_transaction_status now (transaction_id w) failed;;
    external_call.

(** One round of [_task_withdrawal_processing]; [transfer_ok] is the
    outcome of the transfer for a transaction id. *)
Definition _task_withdrawal_processing (b : Binding) (now : Z)
    (transfer_ok : string -> bool) : IO unit :=
  try_except
    (pending_withdrawals ←
       fetch_all (fun db => List.filter is_processing_withdrawal (transactions db));
     for_each_guarded pending_withdrawals
       (withdrawal_round now
          match b with
          | earlier => fun tid => process_withdrawal now (transfer_ok tid) tid
          | later => process_withdrawal_rebound
          end))
    (fun _ => mret tt).

(** ** Reconciliation: _task_check_pending_transactions *)

Definition is_stuck (now : Z) (t : Transaction) : bool :=
  (bool_decide (status t = pending) || bool_decide (status t = processing))
  && (created_at t <? now - 3600).

(** The body of the [for] loop. *)
Definition reconcile_transaction (now : Z) (tx : Transaction) : IO unit :=
  update_transaction_status now (transaction_id tx) failed;;
  if bool_decide (tx_type tx = withdrawal) then
    Database_execute (sql_add_balance (amount tx) (user_id tx)) true
  else mret tt.

(** One round of the [while True] loop. *)
Definition _task_check_pending_transactions (now : Z) : IO unit :=
  try_except
    (stuck_transactions ←
       fetch_all (fun db => List.filter (is_stuck now) (transactions db));
     for_each_guarded stuck_transactions (reconcile_transaction now))
    (fun _ => mret tt).

(** ** Administrator adjustments *)

Record Adjustment := {
  adj_transaction_id : string;
  adj_user_id : Z;
  adj_amount : Z;
  new_balance : Z;
  previous_balance : Z
}.

Definition adjustment_row (now : Z) (tid : string) (uid amt : Z)
    (descr : string) : Transaction :=
  {| transaction_id := tid; user_id := uid; amount := amt;
     status := completed; tx_type := admin_adjustment; created_at := now;
     completed_at := None; wallet_address := None; description := descr |}.

(** [tx.execute_fetchone(query, params)] of line 2391: [tx] is the cursor
    that [__aenter__] returns, and a cursor of aiosqlite has [execute],
    [fetchone] and [fetchall] but no method [execute_fetchone]: the lookup
    of the attribute raises [AttributeError] and no query is sent. *)
Definition execute_fetchone {A} (q : Database -> option A) : IO (option A) :=
  raise AttributeError.

(** [AdminPanel.adjust_user_balance]; [token_hex] is
    [secrets.token_hex(8)]. The body of the transaction stops at its first
    statement, [tx.execute_fetchone]; the statements after it are the
    source's. *)
Definition adjust_user_balance (cfg : Config) (now : Z) (token_hex : string)
    (uid : Z) (amt : Z) (descr : string) : IO Adjustment :=
  if MAX_MANUAL_BALANCE_CHANGE cfg <? Z.abs amt
  then raise (BotError INVALID_AMOUNT)
  else
    try_except
      (with_transaction
         (user ← execute_fetchone (fun db => users db !! uid);
          match user with
          | None => raise (BotError USER_NOT_FOUND)
          | Some u =>
              let current_balance := balance u in
              let new_bal := current_balance + amt in
              if new_bal <? 0 then raise (BotError INVALID_AMOUNT)
              else
                sql_execute (sql_set_balance new_bal uid);;
                let tid := "adm_" +:+ token_hex in
                sql_execute
                  (sql_insert_transaction (adjustment_row now tid uid amt descr));;
                log_audit None "balance_adjustment" descr;;
                mret {| adj_transaction_id := tid; adj_user_id := uid;
                        adj_amount := amt; new_balance := new_bal;
                        previous_balance := current_balance |}
          end))
      (fun e =>
         match e with
         | BotError _ => raise e
         | _ => raise (BotError DATABASE_ERROR)
         end).

(** [_process_admin_balance_management], the handler of the administrator's
    chat: [target] is [data.get('admin_user_id')] and [amt] the parsed
    message ([None] when [Decimal] rejects it). Its exceptions are not
    caught in the handler. *)
Definition _process_admin_balance_management (cfg : Config) (now : Z)
    (token_hex : string) (cancel : bool) (target : option Z) (amt : option Z)
  : IO unit :=
  if cancel then external_call
  else
    match target with
    | None => external_call
    | Some uid =>
        match amt with
        | None => raise (BotError INVALID_AMOUNT)
        | Some a =>
            if MAX_MANUAL_BALANCE_CHANGE cfg <? Z.abs a
            then raise (BotError INVALID_AMOUNT)
            else
              user ← get_user uid;
              match user with
              | None => raise (BotError USER_NOT_FOUND)
              | Some u =>
                  let new_bal := balance u + a in
                  if new_bal <? 0 then raise (BotError INVALID_AMOUNT)
                  else
                    with_transaction
                      (sql_execute (sql_set_balance new_bal uid);;
                       sql_execute
                         (sql_insert_transaction
                            (adjustment_row now ("adm_" +:+ token_hex) uid a
                               "manual balance change")));;
                    external_call;;
                    external_call
              end
        end
    end.

(* ===================================================================== *)
(** * Registration and authentication *)
(* ===================================================================== *)

(** [security.hash_password] and [security.verify_password] as steps of the
    bot. *)
Definition hash_password_io `{Argon2} (policy : PasswordPolicy)
    (common : gset string) (password : string) : IO string := fun w =>
  let '(called, r) := hash_password policy common password in
  (r, add_calls called w).

Definition verify_password_io `{Argon2} (password stored_hash : string)
  : IO bool := fun w =>
  let '(ok, called, s) := verify_password password stored_hash (security w) in
  (inr ok, add_calls called (set_security s w)).

(** [_register_new_user]; [steam_login] is [data['steam_login']], [password]
    the message text and [secret] the generated second-factor secret. *)
Definition _register_new_user `{Argon2} (cfg : Config) (policy : PasswordPolicy)
    (common : gset string) (uid : Z) (steam_login password secret : string)
  : IO unit :=
  try_except
    (existing_user ← get_user uid;
     match existing_user with
     | Some _ => raise (BotError USERNAME_EXISTS)
     | None =>
         if len password <? PASSWORD_MIN_LENGTH cfg
         then raise (BotError WEAK_PASSWORD)
         else
           hashed ← hash_password_io policy common password;
           with_transaction
             (sql_execute
                (sql_insert_user uid
                   {| username := steam_login; password_hash := hashed;
                      is_active := true; failed_login_attempts := 0;
                      mfa_secret := Some secret; balance := 0 |});;
              external_call;;
              external_call;;
              log_audit (Some uid) "user_registered" steam_login)
     end)
    (fun e =>
       match e with
       | BotError _ => raise e
       | _ => raise (BotError UNKNOWN_ERROR)
       end).

Inductive AuthResult := AwaitMfaCode | LoggedIn.

Definition has_mfa_secret (u : User) : bool :=
  match mfa_secret u with
  | Some s => negb (is_empty s)
  | None => false
  end.

(** [message.connection.signature.address if hasattr(message.connection,
    'signature') else 'unknown'] (lines 4578 and 5193). Python evaluates the
    argument of [hasattr] first. A [Message] of aiogram has no attribute
    [connection] and the bot gives it none, so the evaluation raises
    [AttributeError] and no address is obtained. *)
Definition message_ip_address : IO string := raise AttributeError.

(** [_authenticate_existing_user]; [password] is the message text,
    [session_token_hex] is [secrets.token_hex(16)] and [bearer] the token of
    [generate_secure_token]. The exceptions are those of the source, which
    catches none here. *)
Definition _authenticate_existing_user `{Argon2} (cfg : Config) (now : Z)
    (session_token_hex bearer : string) (uid : Z) (password : string)
  : IO AuthResult :=
  user ← get_user uid;
  match user with
  | None => raise (BotError USER_NOT_FOUND)
  | Some u =>
      if MAX_LOGIN_ATTEMPTS cfg <=? failed_login_attempts u
      then raise (BotError ACCOUNT_LOCKED)
      else
        ok ← verify_password_io password (password_hash u);
        if negb ok then
          Database_execute (sql_incr_failed_logins uid) true;;
          let attempts := failed_login_attempts u + 1 in
          let remaining := MAX_LOGIN_ATTEMPTS cfg - attempts in
          if remaining <=? 0 then
            Database_execute (sql_deactivate uid) true;;
            raise (BotError ACCOUNT_LOCKED)
          else raise (BotError AUTH_FAILED)
        else
          Database_execute (sql_reset_failed_logins uid) true;;
          if has_mfa_secret u then
            external_call;; mret AwaitMfaCode
          else
            address ← message_ip_address;
            Database_execute
              (sql_insert_session
                 {| session_id := "session_" +:+ session_token_hex;
                    session_user_id := uid; token := bearer;
                    ip_address := address;
                    expires_at := now + 7 * 86400 |}) true;;
            external_call;;
            log_audit (Some uid) "user_login" ("IP: " +:+ address);;
            mret LoggedIn
  end.

(** Successive calls of [_authenticate_existing_user] for one user, one per
    submitted password; the results are dropped. *)
Fixpoint login_attempts `{Argon2} (cfg : Config) (now : Z) (uid : Z)
    (passwords : list string) (w : World) : World :=
  match passwords with
  | [] => w
  | p :: rest =>
      login_attempts cfg now uid rest
        (snd (_authenticate_existing_user cfg now "" "" uid p w))
  end.

(* ===================================================================== *)
(** * The ledger seen as sums *)
(* ===================================================================== *)

(** What a transaction row has added to the balance of its account. *)
Definition ledger_effect (t : Transaction) : Z :=
  match tx_type t, status t with
  | deposit, completed => amount t
  | admin_adjustment, completed => amount t
  | withdrawal, processing => - amount t
  | withdrawal, completed => - amount t
  | _, _ => 0
  end.

(** The sum of the completed rows alone, withdrawals subtracted. *)
Definition completed_effect (t : Transaction) : Z :=
  match status t, tx_type t with
  | completed, withdrawal => - amount t
  | completed, _ => amount t
  | _, _ => 0
  end.

Definition sum_for (f : Transaction -> Z) (uid : Z) (l : list Transaction) : Z :=
  fold_right (fun t acc => (if user_id t =? uid then f t else 0) + acc) 0 l.

Definition balance_of (uid : Z) (db : Database) : option Z :=
  balance <$> users db !! uid.

(* ===================================================================== *)
(** * The password rules as an ordered list *)
(* ===================================================================== *)

(** A rule of the policy: the test that a password breaks it, and the
    message of the exception. *)
Definition Rule : Type := (string -> bool) * SecurityMessage.

(** The result of checking the rules in order and failing with the first
    one that the password breaks. *)
Definition first_violation (rules : list Rule) (password : string) : result unit :=
  match List.find (fun r : Rule => fst r password) rules with
  | Some r => inl (SecurityException (snd r))
  | None => inr tt
  end.

(** The contiguous pieces of length [n] of a row of keys. *)
Fixpoint windows (n : nat) (row : list ascii) : list string :=
  match row with
  | [] => []
  | _ :: rest =>
      if (n <=? List.length row)%nat
      then string_of_list_ascii (firstn n row) :: windows n rest
      else []
  end.

Definition digit_row : list ascii := chars "1234567890".
Definition keyboard_row : list ascii := chars "qwertyuiop".

(** A password holds [n] successive keys of the digit row, or [m]
    successive keys of the top letter row in either case. *)
Definition has_row_sequence (n m : nat) (password : string) : bool :=
  search_any (windows n digit_row) password
  || search_any (windows m keyboard_row) (lower password).

(** The rules in the order of the specification; [sequence_rule] is the
    test for keyboard and numeric sequences. *)
Definition policy_rules (sequence_rule : string -> bool)
    (pol : PasswordPolicy) (common : gset string) : list Rule :=
  [ (fun p => len p <? min_length pol, PasswordTooShort (min_length pol));
    (fun p => max_length pol <? len p, PasswordTooLong (max_length pol));
    (fun p => require_upper pol && negb (search_class is_upper p), PasswordNeedsUpper);
    (fun p => require_lower pol && negb (search_class is_lower p), PasswordNeedsLower);
    (fun p => require_digit pol && negb (search_class is_digit p), PasswordNeedsDigit);
    (fun p => require_special pol && negb (search_class is_special p),
     PasswordNeedsSpecial);
    (fun p => block_common pol && is_common common p, PasswordTooCommon);
    (fun p => block_repeats pol && has_repeat (chars p), PasswordHasRepeats);
    (fun p => block_sequences pol && sequence_rule p, PasswordHasSequences) ].

(* ===================================================================== *)
(** * The settings of the configuration as tables *)
(* ===================================================================== *)

(** The integer settings: variable, attribute, default, lower and upper
    bound. *)
Definition int_settings
  : list (string * (Config -> Z) * Z * option Z * option Z) :=
  [ ("REDIS_POOL_SIZE", REDIS_POOL_SIZE, 10, Some 1, Some 50);
    ("PASSWORD_MIN_LENGTH", PASSWORD_MIN_LENGTH, 12, Some 8, None);
    ("MAX_LOGIN_ATTEMPTS", MAX_LOGIN_ATTEMPTS, 5, Some 1, None);
    ("LOCKOUT_TIME", LOCKOUT_TIME, 300, Some 60, None);
    ("PAYMENT_LIMIT", PAYMENT_LIMIT, 10, Some 1, None);
    ("PAYMENT_LIMIT_PERIOD", PAYMENT_LIMIT_PERIOD, 3600, Some 300, None);
    ("WITHDRAWAL_LIMIT", WITHDRAWAL_LIMIT, 5, Some 1, None);
    ("WITHDRAWAL_LIMIT_PERIOD", WITHDRAWAL_LIMIT_PERIOD, 86400, Some 3600, None) ].

(** The decimal settings, in hundredths: variable, attribute, default. *)
Definition decimal_settings : list (string * (Config -> Z) * Z) :=
  [ ("MIN_PAYMENT", MIN_PAYMENT, 1000);
    ("MAX_PAYMENT", MAX_PAYMENT, 5000000);
    ("MAX_WITHDRAWAL", MAX_WITHDRAWAL, 10000000);
    ("MAX_MANUAL_BALANCE_CHANGE", MAX_MANUAL_BALANCE_CHANGE, 1000000) ].

(** The float settings: variable, attribute, default; both range over
    0 to 0.5. *)
Definition float_settings : list (string * (Config -> PyFloat) * PyFloat) :=
  [ ("PAYMENT_COMMISSION", PAYMENT_COMMISSION, FNum (5 # 100));
    ("WITHDRAWAL_FEE", WITHDRAWAL_FEE, FNum (3 # 100)) ].

Definition out_of_range (v : Z) (lo hi : option Z) : Prop :=
  (exists m, lo = Some m /\ v < m) \/ (exists m, hi = Some m /\ m < v).

(** The text of an integer variable is unusable: not a numeral, or a
    number outside the bounds. *)
Definition bad_int `{PyBuiltins} (env : Environ) (key : string) (lo hi : option Z) : Prop :=
  exists text, env !! key = Some text /\
    (py_int text = None \/
     exists v, py_int text = Some v /\ out_of_range v lo hi).

Definition bad_float `{PyBuiltins} (env : Environ) (key : string) : Prop :=
  exists text, env !! key = Some text /\
    (py_float text = None \/
     exists q, py_float text = Some (FNum q) /\ (q < 0 \/ 1 # 2 < q)%Q).

Definition bad_decimal `{PyBuiltins} (env : Environ) (key : string) : Prop :=
  exists text, env !! key = Some text /\ py_decimal text = None.

(** An instance of the library for running the model; it reads only the
    plainest numerals: digits with an optional minus sign, and [nan]. *)
Fixpoint digits_value (l : list ascii) (acc : Z) : option Z :=
  match l with
  | [] => Some acc
  | c :: rest =>
      if is_digit c then digits_value rest (10 * acc + Z.of_N (code c) - 48)
      else None
  end.

Definition plain_int (s : string) : option Z :=
  match chars s with
  | [] => None
  | c :: rest =>
      if Ascii.eqb c "-"%char then
        match rest with
        | [] => None
        | _ => Z.opp <$> digits_value rest 0
        end
      else digits_value (c :: rest) 0
  end.

Definition plain_builtins : PyBuiltins :=
  {| py_int := plain_int;
     py_float := fun s =>
       if String.eqb s "nan" then Some FNaN
       else (fun z => FNum (inject_Z z)) <$> plain_int s;
     py_decimal := fun s => Z.mul 100 <$> plain_int s;
     path_absolute := fun s => s |}.

(* ===================================================================== *)
(** * Vocabulary of the ledger and login properties *)
(* ===================================================================== *)

(** No transaction is open and the environment does not fail. *)
Definition calm (w : World) : Prop := faults w = [] /\ txn w = None.

(** What [verify_password] answers for a password and a stored hash. *)
Definition password_accepted `{Argon2} (password stored_hash : string) : bool :=
  negb (is_empty password || is_empty stored_hash)
  && match argon2_verify stored_hash password with
     | VerifyOk _ => true
     | _ => false
     end.

(** Only the counter and the active flag of the user change in a failed
    login attempt. *)
Definition after_failed_attempt (cfg : Config) (u : User) : User :=
  let u1 := set_failed_login_attempts (failed_login_attempts u + 1) u in
  if MAX_LOGIN_ATTEMPTS cfg - (failed_login_attempts u + 1) <=? 0
  then set_is_active false u1 else u1.

(** The row with the given id is rewritten by [g], the others are kept. *)
Definition update_row (tid : string) (g : Transaction -> Transaction)
    (l : list Transaction) : list Transaction :=
  map (fun t => if String.eqb (transaction_id t) tid then g t else t) l.

(** The configuration with every default, and a hasher for the examples. *)
Definition default_config : Config :=
  {| BOT_TOKEN := "123:abc"; ADMIN_IDS := []; APP_NAME := "SteamTopupBot";
     REDIS_URL := "redis://localhost:6379/0"; REDIS_POOL_SIZE := 10;
     DB_PATH := "data/database.db"; BACKUP_DIR := "data/backups";
     LOGS_DIR := "data/logs"; FERNET_KEY := "key";
     PASSWORD_MIN_LENGTH := 12; MAX_LOGIN_ATTEMPTS := 5; LOCKOUT_TIME := 300;
     MIN_PAYMENT := 1000; MAX_PAYMENT := 5000000;
     PAYMENT_COMMISSION := FNum (5 # 100); WITHDRAWAL_FEE := FNum (3 # 100);
     MAX_WITHDRAWAL := 10000000; MAX_MANUAL_BALANCE_CHANGE := 1000000;
     PAYMENT_LIMIT := 10; PAYMENT_LIMIT_PERIOD := 3600;
     WITHDRAWAL_LIMIT := 5; WITHDRAWAL_LIMIT_PERIOD := 86400 |}.

Definition plain_argon2 : Argon2 :=
  {| argon2_hash := fun p => Some ("argon2:" +:+ p);
     argon2_verify := fun h p =>
       if String.eqb h ("argon2:" +:+ p) then VerifyOk false else VerifyMismatch;
     argon2_elapsed := fun _ _ => Expected |}.

(** The checks of the table [users]. *)
Definition users_ok (db : Database) : Prop :=
  forall uid u, users db !! uid = Some u ->
                0 <= balance u /\ 0 <= failed_login_attempts u.

(** The constraints of the schema on the ledger tables: the primary key of
    [transactions], positive amounts, the checks of [users]. *)
Definition schema_ok (db : Database) : Prop :=
  NoDup (map transaction_id (transactions db))
  /\ (forall t, In t (transactions db) -> 0 < amount t)
  /\ users_ok db.

(** The amounts of the withdrawals of an account among the rows [l]. *)
Definition withdrawn (uid : Z) (l : list Transaction) : Z :=
  sum_for (fun r => if bool_decide (tx_type r = withdrawal) then amount r else 0)
    uid l.

(** The amounts of the stuck withdrawals of an account. *)
Definition stuck_refunds (now : Z) (uid : Z) (l : list Transaction) : Z :=
  withdrawn uid (List.filter (is_stuck now) l).

(** Where a round of the reconciliation stands that started with the
    balance [b0] and the stuck rows [all] and has the rows [rest] still to
    handle, seen from the stuck row [t]. *)
Definition reconcile_progress (now b0 : Z) (all : list Transaction)
    (t : Transaction) (rest : list Transaction) (w : World) : Prop :=
  calm w /\ users_ok (disk w)
  /\ NoDup (map transaction_id rest)
  /\ Forall (fun r => In r (transactions (disk w)) /\ 0 < amount r) rest
  /\ (exists u', users (disk w) !! user_id t = Some u'
                 /\ balance u' + withdrawn (user_id t) rest
                    = b0 + withdrawn (user_id t) all)
  /\ (In t rest
      \/ (~ In (transaction_id t) (map transaction_id rest)
          /\ In (set_status failed now t) (transactions (disk w)))).

(** The scenario of the specification: an account with balance 100.00 that
    asks for a withdrawal of 40.00. *)
Definition scenario_database : Database :=
  set_users
    {[ 1 := {| username := "gamer"; password_hash := "argon2:Right#Passw0rd";
               is_active := true; failed_login_attempts := 0;
               mfa_secret := None; balance := 10000 |} ]}
    empty_database.

Definition scenario_wallet : string := "abcdefghij0123456789".

Definition scenario_withdrawal : Withdrawal :=
  {| withdrawal_transaction_id := "wd_0001"; fee := 120; net_amount := 3880 |}.

(** The columns of a row that the scenario speaks about. *)
Definition row_summary (t : Transaction) : TxStatus * TxType * Z :=
  (status t, tx_type t, amount t).

(** A store with one account and one pending deposit of 100.00, and a bot
    whose store fails at the fourth access. *)
Definition deposit_database : Database :=
  set_transactions
    [ {| transaction_id := "pay_0001"; user_id := 1; amount := 10000;
         status := pending; tx_type := deposit; created_at := 0;
         completed_at := None; wallet_address := None;
         description := "deposit via card" |} ]
    (set_users
       {[ 1 := {| username := "gamer"; password_hash := "argon2:Right#Passw0rd";
                  is_active := true; failed_login_attempts := 0;
                  mfa_secret := None; balance := 0 |} ]}
       empty_database).

Definition failing_world : World :=
  {| disk := deposit_database; txn := None;
     faults := [false; false; false; true];
     security := Security_init; calls := [] |}.

(** The store with the pending deposit of 100.00 after a round of the
    payment task that credits it and a request for a withdrawal of 40.00,
    both without failure. *)
Definition scenario_requested : Database :=
  let credited :=
    snd (_task_payment_processing 10 check_payment_status_rebound
           (quiet_world deposit_database)) in
  disk (snd (_process_withdraw_wallet 20 1 false 4000 scenario_wallet
               (Some scenario_withdrawal) credited)).

(** The environment of the examples: the two required variables. *)
Definition minimal_environ : Environ :=
  <["BOT_TOKEN" := "123:abc"]> (<["FERNET_KEY" := "key"]> ∅).

(** A small cipher that satisfies the laws of the library: the bytes of the
    text are kept, a tag byte in front stands for the authentication. *)
Definition tag_cipher : CryptoLib.
Proof.
  refine
    {| Json := unit;
       json_dumps := fun _ => "{}";
       utf8_encode := list_byte_of_string;
       utf8_decode := fun b => Some (string_of_list_byte b);
       fernet_encrypt := fun _ _ m => Byte.x80 :: m;
       fernet_decrypt := fun _ b =>
         match b with
         | Byte.x80 :: m => Some m
         | _ => None
         end;
       urlsafe_b64encode := fun b => b;
       urlsafe_b64decode := fun t => Some (list_byte_of_string t) |}.
  - intros s. by rewrite string_of_list_byte_of_string.
  - reflexivity.
  - intros b. eauto.
  - intros b t [= <-]. by rewrite list_byte_of_string_of_list_byte.
Defined.

(* ===================================================================== *)
(** * Input validation and sanitising (class Security) *)
(* ===================================================================== *)

(** [re.search(literal, s, re.IGNORECASE)] for a literal written in lower
    case: below U+0100 only the letters [A-Z] fold to letters of the
    literal. *)
Definition search_ignorecase (literal s : string) : bool :=
  occurs (chars literal) (chars (nocase s)).

(** What is left of [l] after the prefix [p]. *)
Fixpoint after_prefix (p l : list ascii) : option (list ascii) :=
  match p, l with
  | [], _ => Some l
  | a :: p', b :: l' => if Ascii.eqb a b then after_prefix p' l' else None
  | _ :: _, [] => None
  end.

(** [\s*]: the class [\s] below U+0100 is the white space of [str.split]. *)
Fixpoint skip_spaces (l : list ascii) : list ascii :=
  match l with
  | c :: l' => if is_space c then skip_spaces l' else l
  | [] => []
  end.

(** A match of [name\s*=] somewhere in [l]. *)
Fixpoint search_assignment_from (name l : list ascii) : bool :=
  match after_prefix name l with
  | Some rest =>
      match skip_spaces rest with
      | c :: _ => Ascii.eqb c "="
      | [] => false
      end
  | None => false
  end
  || match l with
     | [] => false
     | _ :: t => search_assignment_from name t
     end.

(** The regular expressions of [dangerous_patterns] and [xss_patterns]: a
    literal, or a name followed by white space and an equals sign
    ([onload\s*=]). *)
Inductive DangerPattern :=
| Literal (text : string)
| Assignment (name : string).

(** [re.search(pattern, s, re.IGNORECASE)] *)
Definition search_pattern (p : DangerPattern) (s : string) : bool :=
  match p with
  | Literal text => search_ignorecase text s
  | Assignment name => search_assignment_from (chars name) (chars (nocase s))
  end.

Definition dangerous_patterns : list DangerPattern :=
  [ Literal ";"; Literal "--"; Literal "/*"; Literal "*/"; Literal "xp_";
    Literal "<script>"; Literal "</script>"; Literal "javascript:";
    Assignment "onload"; Assignment "onerror"; Literal "expression(" ].

(** [validate_input]; [fullmatch] is [re.fullmatch(pattern, _)] for the
    pattern passed by the caller. The [isinstance] test is the type of
    [input_str]. *)
Definition validate_input (fullmatch : string -> bool) (min_len max_len : Z)
    (input_str : string) : bool :=
  if (len input_str <? min_len) || (max_len <? len input_str) then false
  else if negb (fullmatch input_str) then false
  else negb (existsb (fun danger => search_pattern danger input_str)
               dangerous_patterns).

Definition is_letter (c : ascii) : bool := is_upper c || is_lower c.

(** The class [[a-zA-Z0-9_]]. *)
Definition is_word (c : ascii) : bool :=
  is_letter c || is_digit c || Ascii.eqb c "_".

(** [re.fullmatch(r'^[a-zA-Z][a-zA-Z0-9_]{2,31}$', s)]: the whole string has
    to be consumed, so that no line feed may follow. *)
Definition steam_login_pattern (s : string) : bool :=
  match chars s with
  | [] => false
  | c :: rest =>
      is_letter c && forallb is_word rest
      && (2 <=? Z.of_nat (length rest)) && (Z.of_nat (length rest) <=? 31)
  end.

Definition double_quote : ascii := ascii_of_nat 34.

(** [validate_steam_login] *)
Definition validate_steam_login (login : string) : bool :=
  validate_input steam_login_pattern 3 32 login
  && negb (existsb (fun c => existsb (Ascii.eqb c) (chars login))
             ["@"; " "; double_quote; "'"; ";"]%char).

Definition MAX_WALLET_ADDRESS_LENGTH : Z := 50.
Definition MIN_WALLET_ADDRESS_LENGTH : Z := 20.

(** [re.fullmatch(r'^[a-zA-Z0-9]{20,50}$', s)] *)
Definition wallet_pattern (s : string) : bool :=
  forallb is_alnum (chars s) && (20 <=? len s) && (len s <=? 50).

(** [validate_wallet_address] as the source has it, through
    [validate_input]. *)
Definition validate_wallet_address_input (wallet : string) : bool :=
  validate_input wallet_pattern MIN_WALLET_ADDRESS_LENGTH
    MAX_WALLET_ADDRESS_LENGTH wallet.

(** The longest prefix of [l] made of characters of the class. *)
Fixpoint leading (cls : ascii -> bool) (l : list ascii) : list ascii :=
  match l with
  | c :: l' => if cls c then c :: leading cls l' else []
  | [] => []
  end.

(** [validate_phone]: [re.match(r'^\+?[1-9]\d{1,14}$', phone)]. The match
    starts at the first character; [$] holds at the end of the string and
    before a line feed that ends it. *)
Definition validate_phone (phone : string) : bool :=
  let l := chars phone in
  let l :=
    match l with
    | c :: t => if Ascii.eqb c "+" then t else l
    | [] => l
    end in
  match l with
  | [] => false
  | d :: rest =>
      let digits := leading is_digit rest in
      let tail := drop (length digits) rest in
      in_range 49 57 d
      && (1 <=? Z.of_nat (length digits)) && (Z.of_nat (length digits) <=? 14)
      && match tail with
         | [] => true
         | [c] => Ascii.eqb c newline
         | _ => false
         end
  end.

(** [re.sub(r'<[^>]*>', '', s)]. [held] is the text read since an opening
    bracket that has not met its closing bracket yet, in reverse; it is
    dropped when the closing bracket comes, and kept when the text ends
    first: then no closing bracket follows any of its characters. *)
Fixpoint remove_tags (l : list ascii) (held : option (list ascii)) : list ascii :=
  match l with
  | [] =>
      match held with
      | Some h => rev h
      | None => []
      end
  | c :: l' =>
      match held with
      | None =>
          if Ascii.eqb c "<" then remove_tags l' (Some [c])
          else c :: remove_tags l' None
      | Some h =>
          if Ascii.eqb c ">" then remove_tags l' None
          else remove_tags l' (Some (c :: h))
      end
  end.

(** The class of the second substitution: semicolon, backslash, the two
    quotes and the backquote. *)
Definition is_quoting (c : ascii) : bool :=
  existsb (Ascii.eqb c) [";"; "\"; "'"; double_quote; "`"]%char.

(** [sanitize_input] *)
Definition sanitize_input (input_str : string) : string :=
  if is_empty input_str then EmptyString
  else
    let sanitized := remove_tags (chars input_str) None in
    let sanitized := List.filter (fun c => negb (is_quoting c)) sanitized in
    string_of_list_ascii (take 1000 sanitized).

(** ** verify_mfa_code

    [pyotp.TOTP(secret).verify(code, valid_window=window)] belongs to the
    library: [totp_verify] is its answer at the time of the call, [None] a
    raised exception. Every call made is recorded. *)
Class Totp := {
  totp_verify : string -> string -> Z -> option bool
}.

Inductive TotpCall :=
| TotpVerify (secret code : string) (window : Z).

(** [re.match(r'^\d{6}$', code)] *)
Definition six_digits (code : string) : bool :=
  let l := chars code in
  (Nat.eqb (length (take 6 l)) 6) && forallb is_digit (take 6 l)
  && match drop 6 l with
     | [] => true
     | [c] => Ascii.eqb c newline
     | _ => false
     end.

(** [verify_mfa_code]; [secret] is [None] for a user without second
    factor. *)
Definition verify_mfa_code `{Totp} (secret : option string) (code : string)
    (window : Z) : bool * list TotpCall :=
  match secret with
  | None => (false, [])
  | Some sec =>
      if is_empty sec || is_empty code then (false, [])
      else if negb (six_digits code) then (false, [])
      else
        (match totp_verify sec code window with
         | Some answer => answer
         | None => false
         end,
         [TotpVerify sec code window])
  end.

(** ** _cleanup_expired_lockouts *)

(** [_cleanup_expired_lockouts]; [now] is [time.time()]. *)
Definition _cleanup_expired_lockouts (cfg : Config) (now : Z) (s : Security)
  : Security :=
  let expired_keys :=
    map fst (List.filter (fun entry => LOCKOUT_TIME cfg <? now - snd entry)
               (map_to_list (lockout_tracker s))) in
  set_lockout_tracker
    (fold_right (fun key tracker => delete key tracker) (lockout_tracker s)
       expired_keys) s.

(** ** The security log over the life of a [Security] object *)

(** The calls that write to the state of a [Security] object. *)
Inductive SecurityCall `{CryptoLib} :=
| CallCheckRateLimit (now : Z) (identifier action : string)
    (max_attempts period : Z)
| CallVerifyPassword (password stored_hash : string)
| CallDecryptData (key encrypted_data : string)
| CallCleanupLockouts (cfg : Config) (now : Z)
| CallLogSecurityEvent (event detail : string) (sev : Severity)
    (user : option Z).

Definition security_call `{Argon2} `{CryptoLib} (c : SecurityCall)
    (s : Security) : Security :=
  match c with
  | CallCheckRateLimit now identifier action max_attempts period =>
      snd (check_rate_limit now identifier action max_attempts period s)
  | CallVerifyPassword password stored_hash =>
      snd (verify_password password stored_hash s)
  | CallDecryptData key encrypted_data =>
      snd (decrypt_data key encrypted_data s)
  | CallCleanupLockouts cfg now => _cleanup_expired_lockouts cfg now s
  | CallLogSecurityEvent event detail sev user =>
      log_security_event event detail sev user s
  end.

(** The details of every event of the log have at most 503 characters. *)
Definition events_bounded (s : Security) : Prop :=
  Forall (fun ev => len (details ev) <= 503) (security_events s).

(** ** What a loaded configuration satisfies *)

(** A ratio setting is a not-a-number or lies between 0 and one half. *)
Definition ratio_ok (v : PyFloat) : Prop :=
  v = FNaN \/ exists q, v = FNum q /\ (0 <= q)%Q /\ (q <= 1 # 2)%Q.

(** A separator of the list of administrator ids. *)
Definition is_id_separator (c : ascii) : bool :=
  is_space c || Ascii.eqb c ",".
(* ===================================================================== *)
(** * Sessions, second factor and the switches of the administrator *)
(* ===================================================================== *)

(** [DELETE FROM sessions WHERE expires_at < datetime('now')] *)
Definition sql_delete_expired_sessions (now : Z) : Statement :=
  fun db =>
    Some {| users := users db; transactions := transactions db;
            sessions :=
              List.filter (fun s => negb (expires_at s <? now)) (sessions db);
            audit_log := audit_log db |}.

(** [Database._cleanup_old_sessions]: the statement and the commit are sent
    to the connection directly, and an exception is logged. *)
Definition _cleanup_old_sessions (now : Z) : IO unit :=
  try_except
    (sql_execute (sql_delete_expired_sessions now);; connection_commit)
    (fun _ => mret tt).

(** One round of [_task_session_cleanup]. *)
Definition _task_session_cleanup (now : Z) : IO unit :=
  try_except (_cleanup_old_sessions now) (fun _ => mret tt).

(** [SELECT 1 FROM sessions WHERE user_id = ? AND expires_at >
    datetime('now') AND is_active = 1]. The column [is_active] of
    [sessions] is written by no statement of the source and keeps its
    default 1. *)
Definition active_session (now : Z) (uid : Z) (db : Database) : option Session :=
  List.find (fun s => (session_user_id s =? uid) && (now <? expires_at s))
    (sessions db).

(** [Database.has_active_session] *)
Definition has_active_session (now : Z) (uid : Z) : IO bool :=
  session ← fetch_one (active_session now uid);
  mret (match session with Some _ => true | None => false end).

(** [_process_auth_mfa_code]; [code] is the message text. The window of
    [verify_mfa_code] is its default, 1. *)
Definition _process_auth_mfa_code `{Totp} (now : Z) (cancel : bool)
    (session_token_hex bearer : string) (uid : Z) (code : string) : IO unit :=
  try_except
    (if cancel then external_call
     else
       user ← get_user uid;
       match user with
       | None => raise (BotError USER_NOT_FOUND)
       | Some u =>
           if negb (fst (verify_mfa_code (mfa_secret u) code 1))
           then raise (BotError INVALID_MFA_CODE)
           else
             address ← message_ip_address;
             Database_execute
               (sql_insert_session
                  {| session_id := "session_" +:+ session_token_hex;
                     session_user_id := uid; token := bearer;
                     ip_address := address;
                     expires_at := now + 7 * 86400 |}) true;;
             external_call;;
             log_audit (Some uid) "mfa_login" "Successful MFA authentication"
       end)
    _handle_error.

(** The world after a handler has been run on each message of a list. *)
Fixpoint after_each {A} (handler : A -> IO unit) (messages : list A)
    (w : World) : World :=
  match messages with
  | [] => w
  | m :: rest => after_each handler rest (snd (handler m w))
  end.

(** [UPDATE users SET is_active = ? WHERE user_id = ?] *)
Definition sql_set_active (active : bool) (uid : Z) : Statement :=
  update_user_row (set_is_active active) uid.

(** [AdminPanel.update_user_status] *)
Definition update_user_status (uid : Z) (active : bool) : IO bool :=
  try_except
    (Database_execute (sql_set_active active uid) true;;
     log_audit None "user_status_change"
       (if active then "active" else "inactive");;
     mret true)
    (fun _ => raise (BotError DATABASE_ERROR)).

(** [_update_user_info_message] *)
Definition _update_user_info_message (uid : Z) : IO unit :=
  user ← get_user uid;
  match user with
  | None => mret tt
  | Some _ => external_call
  end.

(** [_handle_admin_user_toggle] *)
Definition _handle_admin_user_toggle (uid : Z) : IO unit :=
  try_except
    (user ← get_user uid;
     match user with
     | None => external_call
     | Some u =>
         update_user_status uid (negb (is_active u));;
         external_call;;
         _update_user_info_message uid
     end)
    _handle_error.

(** The five texts of [valid_statuses]. *)
Definition status_of_string (s : string) : option TxStatus :=
  if String.eqb s "pending" then Some pending
  else if String.eqb s "processing" then Some processing
  else if String.eqb s "completed" then Some completed
  else if String.eqb s "failed" then Some failed
  else if String.eqb s "canceled" then Some canceled
  else None.

(** [UPDATE transactions SET status = ?, completed_at = CASE WHEN ? =
    'completed' THEN datetime('now') ELSE completed_at END WHERE
    transaction_id = ?] *)
Definition sql_admin_update_status (tid : string) (s : TxStatus) (now : Z)
  : Statement :=
  fun db =>
    Some (set_transactions
            (map (fun t =>
                    if String.eqb (transaction_id t) tid then
                      {| transaction_id := transaction_id t;
                         user_id := user_id t; amount := amount t;
                         status := s; tx_type := tx_type t;
                         created_at := created_at t;
                         completed_at :=
                           if bool_decide (s = completed) then Some now
                           else completed_at t;
                         wallet_address := wallet_address t;
                         description := description t |}
                    else t)
               (transactions db)) db).

(** [AdminPanel.update_transaction_status] *)
Definition admin_update_transaction_status (now : Z) (tid : string)
    (status_text : string) : IO bool :=
  match status_of_string status_text with
  | None => raise (BotError INVALID_INPUT)
  | Some s =>
      try_except
        (Database_execute (sql_admin_update_status tid s now) true;;
         log_audit None "transaction_status_change" tid;;
         mret true)
        (fun _ => raise (BotError DATABASE_ERROR))
  end.

(** A TOTP library for running the model: the code of the moment is
    123456. *)
Definition plain_totp : Totp :=
  {| totp_verify := fun _ code _ => Some (String.eqb code "123456") |}.

(** ** Switching the second factor: _toggle_mfa *)

Definition set_mfa_secret (secret : option string) (u : User) : User :=
  {| username := username u; password_hash := password_hash u;
     is_active := is_active u; failed_login_attempts := failed_login_attempts u;
     mfa_secret := secret; balance := balance u |}.

(** [UPDATE users SET mfa_secret = ? WHERE user_id = ?] *)
Definition sql_set_mfa_secret (secret : option string) (uid : Z) : Statement :=
  update_user_row (set_mfa_secret secret) uid.

(** [_toggle_mfa]; [new_secret] is what [generate_mfa_secret] returns. The
    handler asks for no session and for no code. The two calls after the
    new secret is stored are the sending of the QR code and the answer to
    the callback; the code is drawn in the process. *)
Definition _toggle_mfa (new_secret : string) (uid : Z) : IO unit :=
  try_except
    (user ← get_user uid;
     match user with
     | None => external_call
     | Some u =>
         (if has_mfa_secret u then
            Database_execute (sql_set_mfa_secret None uid) true;;
            external_call
          else
            Database_execute (sql_set_mfa_secret (Some new_secret) uid) true;;
            external_call;;
            external_call);;
         user ← get_user uid;
         match user with
         | None => raise AttributeError
         | Some _ => external_call
         end
     end)
    _handle_error.

(** ** Vocabulary of the reconciliation rounds *)

(** Every row of the table that is stuck at [now] has its id among the
    rows [rest] that the round still has to handle. *)
Definition stuck_within (now : Z) (rest : list Transaction) (w : World) : Prop :=
  calm w
  /\ forall r, In r (transactions (disk w)) -> is_stuck now r = true ->
               In (transaction_id r) (map transaction_id rest).
(* ===================================================================== *)
(** * Properties *)
(* ===================================================================== *)

(** ** Password policy and hashing *)

Lemma search_class_spec cls s :
  search_class cls s = true <-> exists c, In c (chars s) /\ cls c = true.
Proof. unfold search_class. apply existsb_exists. Qed.

Lemma prefixb_spec p l :
  prefixb p l = true <-> exists rest, l = p ++ rest.
Proof.
  revert l. induction p as [|a p IH]; intros l; simpl.
  - split; [eauto | done].
  - destruct l as [|b l].
    + split; [done | intros [rest Hr]; discriminate].
    + rewrite andb_true_iff, IH, Ascii.eqb_eq. split.
      * intros [-> [rest ->]]. eauto.
      * intros [rest Hr]. injection Hr as -> ->. eauto.
Qed.

(** [occurs] is the search of a literal: it finds [p] exactly when the text
    is some prefix, then [p], then some suffix. *)
Lemma occurs_spec p l :
  occurs p l = true <-> exists before after, l = before ++ p ++ after.
Proof.
  induction l as [|b l IH].
  - simpl. rewrite orb_false_r, prefixb_spec. split.
    + intros [rest Hr]. exists [], rest. done.
    + intros [before [after Hl]]. destruct before; [eauto|discriminate].
  - cbn [occurs]. rewrite orb_true_iff, prefixb_spec, IH. split.
    + intros [[rest Hr] | [before [after Hl]]].
      * exists [], rest. done.
      * exists (b :: before), after. rewrite Hl. done.
    + intros [before [after Hl]]. destruct before as [|b' before].
      * left. eauto.
      * right. injection Hl as -> ->. eauto.
Qed.

(** [has_repeat] finds three equal characters in a row that are not line
    feeds. *)
Lemma has_repeat_spec l :
  has_repeat l = true <->
  exists before c after, l = before ++ c :: c :: c :: after /\ c <> newline.
Proof.
  induction l as [|a l IH]; [|destruct l as [|b [|c l]]].
  - split; [done|]. intros (before & c & after & Hl & _).
    destruct before; discriminate.
  - split; [done|]. intros (before & c & after & Hl & _).
    destruct before as [|? [|? ?]]; discriminate.
  - split; [done|]. intros (before & x & after & Hl & _).
    destruct before as [|? [|? [|? ?]]]; discriminate.
  - change (has_repeat (a :: b :: c :: l))
      with ((negb (Ascii.eqb a newline) && Ascii.eqb a b && Ascii.eqb b c)
            || has_repeat (b :: c :: l)).
    rewrite orb_true_iff, IH, !andb_true_iff, negb_true_iff, !Ascii.eqb_eq,
      Ascii.eqb_neq.
    split.
    + intros [[[Hn ->] ->] | (before & x & after & Hl & Hx)].
      * exists [], c, l. done.
      * exists (a :: before), x, after. rewrite Hl. done.
    + intros (before & x & after & Hl & Hx). destruct before as [|a' before].
      * left. injection Hl as -> -> -> _. done.
      * right. injection Hl as -> Hl. eauto 6.
Qed.

(** The alternatives of the two regular expressions are the pieces of
    length three of the digit row and of length four of the letter row. *)
Lemma digit_sequences_windows : digit_sequences = windows 3 digit_row.
Proof. reflexivity. Qed.

Lemma keyboard_sequences_windows : keyboard_sequences = windows 4 keyboard_row.
Proof. reflexivity. Qed.

Lemma has_sequence_rows p : has_sequence p = has_row_sequence 3 4 p.
Proof. reflexivity. Qed.

(** C5. For every password shorter than the minimum length of the policy,
    [hash_password] raises the weak-password [SecurityException] and the
    Argon2 hasher is not called. *)
Theorem hash_password_short_no_hashing `{Argon2}
    (policy : PasswordPolicy) (common : gset string) (password : string) :
  len password < min_length policy ->
  hash_password policy common password
  = ([], inl (SecurityException (PasswordTooShort (min_length policy)))).
Proof.
  intros Hshort. unfold hash_password, _validate_password_policy.
  apply Z.ltb_lt in Hshort. rewrite Hshort. reflexivity.
Qed.

(** The theorem at work on a seven-character password. *)
Lemma hash_password_short_no_hashing_witness :
  @hash_password
    {| argon2_hash := fun p => Some p;
       argon2_verify := fun _ _ => VerifyMismatch;
       argon2_elapsed := fun _ _ => Expected |}
    (make_password_policy 12) default_common_passwords "Ab1!xyz"
  = ([], inl (SecurityException (PasswordTooShort 12))).
Proof.
  apply (@hash_password_short_no_hashing _ (make_password_policy 12)).
  vm_compute. reflexivity.
Defined.

(** The same for the minimum of the configuration: the policy of the bot
    asks for at least that many characters. *)
Lemma hash_password_below_configured_minimum `{Argon2}
    (cfg : Config) (common : gset string) (password : string) :
  len password < PASSWORD_MIN_LENGTH cfg ->
  fst (hash_password (make_password_policy (PASSWORD_MIN_LENGTH cfg))
         common password) = [].
Proof.
  intros Hshort. unfold hash_password, _validate_password_policy.
  assert ((len password
           <? min_length (make_password_policy (PASSWORD_MIN_LENGTH cfg)))
          = true) as Hltb by (apply Z.ltb_lt; simpl; lia).
  by rewrite Hltb.
Qed.

(** C8, as amended. The validation fails with the first rule, in the order
    length bounds, upper, lower, digit, special, common password, repeated
    characters, sequences, that the password breaks, where a sequence is
    three successive keys of the digit row or four of the letter row. *)
Theorem validate_password_policy_first_violation
    (policy : PasswordPolicy) (common : gset string) (password : string) :
  _validate_password_policy policy common password
  = first_violation (policy_rules (has_row_sequence 3 4) policy common) password.
Proof.
  unfold _validate_password_policy, first_violation, policy_rules.
  cbn [List.find fst snd].
  change (has_row_sequence 3 4 password) with (has_sequence password).
  repeat (match goal with
          | |- context [if ?b then _ else _] => destruct b; [reflexivity|]
          end).
  reflexivity.
Qed.

(** C8, the claim as stated fails: a password with the digits 123, and no
    run of four successive keys, breaks none of the rules when sequences
    count from length four, and is refused by the code for its sequence. *)
Lemma validate_password_policy_rejects_length_three_sequence :
  has_row_sequence 4 4 "Abcdefgh!x123" = false /\
  first_violation
    (policy_rules (has_row_sequence 4 4) (make_password_policy 12)
       default_common_passwords) "Abcdefgh!x123" = inr tt /\
  _validate_password_policy (make_password_policy 12) default_common_passwords
    "Abcdefgh!x123" = inl (SecurityException PasswordHasSequences).
Proof. repeat split; vm_compute; reflexivity. Qed.

(** Three line feeds in a row are not a repetition for the code. *)
Lemma has_repeat_line_feeds : has_repeat [newline; newline; newline] = false.
Proof. reflexivity. Qed.

(** C10. For every string, [check_password_strength] returns normally, with
    a strength between 1 and 5 and the list of issues; the length reported
    is the length of the string. *)
Theorem check_password_strength_returns
    (policy : PasswordPolicy) (common : gset string) (password : string) :
  exists report,
    check_password_strength policy common password = inr report
    /\ 1 <= sr_strength report <= 5
    /\ sr_length report = len password.
Proof.
  unfold check_password_strength. cbv zeta.
  set (cs := (if search_class is_upper password then 26 else 0)
             + (if search_class is_lower password then 26 else 0)
             + (if search_class is_digit password then 10 else 0)
             + (if search_class is_non_alnum password then 32 else 0)).
  assert (Hent : exists e,
    (if 0 <? cs then math_log2 (len password) cs else inr EntropyZero) = inr e).
  { unfold math_log2. destruct (0 <? cs); eauto. }
  destruct Hent as [e ->]. eexists. split; [reflexivity|]. split; [|reflexivity].
  cbn [sr_strength].
  destruct (is_common common password); [lia|].
  repeat (match goal with
          | |- context [if ?b then _ else _] => destruct b; [lia|]
          end).
  lia.
Qed.

(** On the empty string the strength is 1 and the issues are the missing
    length and the four missing classes. *)
Example check_password_strength_empty :
  check_password_strength (make_password_policy 12) default_common_passwords ""
  = inr {| sr_length := 0; sr_strength := 1; sr_entropy := EntropyZero;
           sr_issues := [IssueTooShort 12; IssueNoUpper; IssueNoLower;
                         IssueNoDigit; IssueNoSpecial] |}.
Proof. vm_compute. reflexivity. Qed.

(** A string beyond the maximal length is rated as well. *)
Example check_password_strength_long :
  let s := String.concat "" (repeat "aB3$x" 30) in
  match check_password_strength (make_password_policy 12)
          default_common_passwords s with
  | inr report => (sr_strength report, sr_length report, sr_issues report)
  | inl _ => (0, 0, [])
  end = (5, 150, [IssueTooLong 128]).
Proof. vm_compute. reflexivity. Qed.

(** ** Configuration *)

Section ConfigProperties.
Context `{PyBuiltins}.

Lemma _get_int_bad env key dflt lo hi :
  bad_int env key lo hi -> _get_int env key dflt lo hi = inl (ValueError key).
Proof.
  intros (text & Hkey & Hbad). unfold _get_int. rewrite Hkey.
  destruct Hbad as [-> | (v & -> & Hrange)]; [done|].
  destruct Hrange as [(m & -> & Hlt) | (m & -> & Hlt)].
  - apply Z.ltb_lt in Hlt. by rewrite Hlt.
  - apply Z.ltb_lt in Hlt. rewrite Hlt. by destruct lo as [l|]; [destruct (v <? l)|].
Qed.

Lemma float_lt_spec x y : float_lt (FNum x) (FNum y) = true <-> (x < y)%Q.
Proof.
  unfold float_lt. rewrite negb_true_iff, <- not_true_iff_false, Qle_bool_iff.
  split; [apply Qnot_le_lt | apply Qlt_not_le].
Qed.

Lemma _get_float_bad env key dflt :
  bad_float env key ->
  _get_float env key dflt (FNum 0) (FNum (1 # 2)) = inl (ValueError key).
Proof.
  intros (text & Hkey & Hbad). unfold _get_float. rewrite Hkey.
  destruct Hbad as [-> | (q & -> & Hrange)]; [done|].
  destruct Hrange as [Hlt | Hlt]; apply float_lt_spec in Hlt; rewrite Hlt;
    [done | by rewrite orb_true_r].
Qed.

Lemma _get_decimal_bad env key dflt lo :
  bad_decimal env key -> _get_decimal env key dflt lo = inl (ValueError key).
Proof.
  intros (text & Hkey & Hbad). unfold _get_decimal. by rewrite Hkey, Hbad.
Qed.

Lemma _get_int_default env key dflt lo hi v :
  env !! key = None -> _get_int env key dflt lo hi = inr v -> v = dflt.
Proof.
  intros Hkey. unfold _get_int. rewrite Hkey.
  repeat (match goal with
          | |- context [if ?b then _ else _] => destruct b
          end); congruence.
Qed.

Lemma _get_int_loaded env key dflt lo hi v text :
  env !! key = Some text -> _get_int env key dflt lo hi = inr v ->
  py_int text = Some v /\ ~ out_of_range v lo hi.
Proof.
  intros Hkey. unfold _get_int. rewrite Hkey.
  destruct (py_int text) as [v'|]; [|done].
  destruct lo as [l|], hi as [h|];
    repeat (match goal with
            | |- context [if ?b then _ else _] => destruct b eqn:?
            end); try done;
    intros [= ->]; (split; [done|]);
    intros [(m & [= <-] & Hlt) | (m & [= <-] & Hlt)]; lia.
Qed.

Lemma _get_decimal_default env key dflt lo v :
  env !! key = None -> _get_decimal env key dflt lo = inr v -> v = dflt.
Proof.
  intros Hkey. unfold _get_decimal. rewrite Hkey.
  repeat (match goal with
          | |- context [if ?b then _ else _] => destruct b
          end); congruence.
Qed.

Lemma _get_float_default env key dflt lo hi v :
  env !! key = None -> _get_float env key dflt lo hi = inr v -> v = dflt.
Proof.
  intros Hkey. unfold _get_float. rewrite Hkey.
  repeat (match goal with
          | |- context [if ?b then _ else _] => destruct b
          end); congruence.
Qed.

(** Runs [Config_init] up to its result, naming each intermediate value. *)
Ltac config_steps :=
  unfold Config_init;
  repeat (match goal with
          | |- context [result_bind ?m _] =>
              let E := fresh "E" in
              destruct m eqn:E; cbn [result_bind]; [try (eexists; reflexivity)|]
          end).

Lemma _get_decimal_loaded env key dflt lo v text :
  env !! key = Some text -> _get_decimal env key dflt lo = inr v ->
  py_decimal text = Some v.
Proof.
  intros Hkey. unfold _get_decimal. rewrite Hkey.
  destruct (py_decimal text); [|done].
  repeat (match goal with
          | |- context [if ?b then _ else _] => destruct b
          end); congruence.
Qed.

Lemma _get_float_loaded env key dflt lo hi v text :
  env !! key = Some text -> _get_float env key dflt lo hi = inr v ->
  py_float text = Some v.
Proof.
  intros Hkey. unfold _get_float. rewrite Hkey.
  destruct (py_float text); [|done].
  repeat (match goal with
          | |- context [if ?b then _ else _] => destruct b
          end); congruence.
Qed.

Lemma _get_env_required env key v :
  _get_env env key None = inr v -> env !! key = Some v.
Proof. unfold _get_env. destruct (env !! key); congruence. Qed.

Lemma _get_env_missing env key :
  env !! key = None -> _get_env env key None = inl (ValueError key).
Proof. unfold _get_env. by intros ->. Qed.

(** No key is generated: an unset [FERNET_KEY] is an error, and a key that
    is returned is the text of the variable. *)
Lemma _get_fernet_key_missing env :
  env !! "FERNET_KEY" = None ->
  _get_fernet_key env = inl (ValueError "FERNET_KEY").
Proof. unfold _get_fernet_key, _get_env. by intros ->. Qed.

Lemma _get_fernet_key_required env key :
  _get_fernet_key env = inr key -> env !! "FERNET_KEY" = Some key.
Proof.
  unfold _get_fernet_key, _get_env.
  destruct (env !! "FERNET_KEY"); cbn; congruence.
Qed.

Ltac config_steps_in Hc :=
  unfold Config_init in Hc;
  repeat (match type of Hc with
          | context [result_bind ?m _] =>
              let E := fresh "E" in
              destruct m eqn:E; cbn [result_bind] in Hc; [discriminate Hc|]
          end).

Lemma Config_init_missing_required env :
  env !! "BOT_TOKEN" = None \/ env !! "FERNET_KEY" = None ->
  exists e, Config_init env = inl e.
Proof.
  intros [Hm | Hm];
    [apply _get_env_missing in Hm | apply _get_fernet_key_missing in Hm];
    config_steps; try congruence; eauto.
Qed.

Lemma Config_init_bad_int env key field dflt lo hi :
  In (key, field, dflt, lo, hi) int_settings ->
  bad_int env key lo hi -> exists e, Config_init env = inl e.
Proof.
  intros Hin Hbad. cbn [In int_settings] in Hin.
  repeat (destruct Hin as [[= <- <- <- <- <-] | Hin]);
    [.. | done];
    pose proof (fun d => _get_int_bad env _ d _ _ Hbad) as Hraise;
    config_steps; try congruence; eauto.
Qed.

Lemma Config_init_bad_decimal env key field dflt :
  In (key, field, dflt) decimal_settings ->
  bad_decimal env key -> exists e, Config_init env = inl e.
Proof.
  intros Hin Hbad. cbn [In decimal_settings] in Hin.
  repeat (destruct Hin as [[= <- <- <-] | Hin]);
    [.. | done];
    pose proof (fun d lo => _get_decimal_bad env _ d lo Hbad) as Hraise;
    config_steps; try congruence; eauto.
Qed.

Lemma Config_init_bad_float env key field dflt :
  In (key, field, dflt) float_settings ->
  bad_float env key -> exists e, Config_init env = inl e.
Proof.
  intros Hin Hbad. cbn [In float_settings] in Hin.
  repeat (destruct Hin as [[= <- <- <-] | Hin]);
    [.. | done];
    pose proof (fun d => _get_float_bad env _ d Hbad) as Hraise;
    config_steps; try congruence; eauto.
Qed.

(** C9, as amended. [BOT_TOKEN] and the cipher key [FERNET_KEY] are
    required: the constructor raises when one is unset. A numeric setting
    whose text is not a numeral, or an integer or float setting outside
    its bounds, makes the constructor raise. When the constructor returns,
    every setting that is set holds the value read from its text, and
    every numeric setting that is unset holds its built-in default. *)
Theorem Config_init_required_and_defaults (env : Environ) :
  (env !! "BOT_TOKEN" = None \/ env !! "FERNET_KEY" = None ->
   exists e, Config_init env = inl e)
  /\ (forall key field dflt lo hi,
        In (key, field, dflt, lo, hi) int_settings ->
        bad_int env key lo hi -> exists e, Config_init env = inl e)
  /\ (forall key field dflt,
        In (key, field, dflt) decimal_settings ->
        bad_decimal env key -> exists e, Config_init env = inl e)
  /\ (forall key field dflt,
        In (key, field, dflt) float_settings ->
        bad_float env key -> exists e, Config_init env = inl e)
  /\ (forall c, Config_init env = inr c ->
        env !! "BOT_TOKEN" = Some (BOT_TOKEN c)
        /\ env !! "FERNET_KEY" = Some (FERNET_KEY c)
        /\ (forall key field dflt lo hi,
              In (key, field, dflt, lo, hi) int_settings ->
              match env !! key with
              | None => field c = dflt
              | Some text =>
                  py_int text = Some (field c) /\ ~ out_of_range (field c) lo hi
              end)
        /\ (forall key field dflt,
              In (key, field, dflt) decimal_settings ->
              match env !! key with
              | None => field c = dflt
              | Some text => py_decimal text = Some (field c)
              end)
        /\ (forall key field dflt,
              In (key, field, dflt) float_settings ->
              match env !! key with
              | None => field c = dflt
              | Some text => py_float text = Some (field c)
              end)).
Proof.
  split; [apply Config_init_missing_required|].
  split; [apply Config_init_bad_int|].
  split; [apply Config_init_bad_decimal|].
  split; [apply Config_init_bad_float|].
  intros c Hc. config_steps_in Hc.
  injection Hc as <-.
  cbn [BOT_TOKEN FERNET_KEY].
  split; [by apply _get_env_required|].
  split; [by apply _get_fernet_key_required|].
  split; [|split].
  - intros key field dflt lo hi Hin. cbn [In int_settings] in Hin.
    repeat (destruct Hin as [[= <- <- <- <- <-] | Hin]); [.. | done];
      match goal with
      | |- context [env !! ?k] =>
          match goal with
          | E : _get_int env k _ _ _ = inr _ |- _ =>
              destruct (env !! k) eqn:Hk;
              [ exact (_get_int_loaded _ _ _ _ _ _ _ Hk E)
              | exact (_get_int_default _ _ _ _ _ _ Hk E) ]
          end
      end.
  - intros key field dflt Hin. cbn [In decimal_settings] in Hin.
    repeat (destruct Hin as [[= <- <- <-] | Hin]); [.. | done];
      match goal with
      | |- context [env !! ?k] =>
          match goal with
          | E : _get_decimal env k _ _ = inr _ |- _ =>
              destruct (env !! k) eqn:Hk;
              [ exact (_get_decimal_loaded _ _ _ _ _ _ Hk E)
              | exact (_get_decimal_default _ _ _ _ _ Hk E) ]
          end
      end.
  - intros key field dflt Hin. cbn [In float_settings] in Hin.
    repeat (destruct Hin as [[= <- <- <-] | Hin]); [.. | done];
      match goal with
      | |- context [env !! ?k] =>
          match goal with
          | E : _get_float env k _ _ _ = inr _ |- _ =>
              destruct (env !! k) eqn:Hk;
              [ exact (_get_float_loaded _ _ _ _ _ _ _ Hk E)
              | exact (_get_float_default _ _ _ _ _ _ Hk E) ]
          end
      end.
Qed.
End ConfigProperties.

(** C9, the claim as stated fails: with the lockout duration, the attempt
    limit and the other numeric settings unset, the constructor returns and
    the settings hold their defaults. *)
Lemma Config_init_defaults_missing_settings :
  minimal_environ !! "LOCKOUT_TIME" = None /\
  minimal_environ !! "MAX_LOGIN_ATTEMPTS" = None /\
  minimal_environ !! "MAX_MANUAL_BALANCE_CHANGE" = None /\
  exists c, @Config_init plain_builtins minimal_environ = inr c
            /\ LOCKOUT_TIME c = 300 /\ MAX_LOGIN_ATTEMPTS c = 5
            /\ MAX_MANUAL_BALANCE_CHANGE c = 1000000.
Proof.
  repeat split; [reflexivity..|].
  eexists. split; [vm_compute; reflexivity|]. repeat split.
Qed.

(** The theorem at work: an attempt limit of zero stops the constructor. *)
Lemma Config_init_required_and_defaults_witness :
  exists e, @Config_init plain_builtins
              (<["MAX_LOGIN_ATTEMPTS" := "0"]> minimal_environ) = inl e.
Proof.
  refine (proj1 (proj2 (@Config_init_required_and_defaults plain_builtins _))
            "MAX_LOGIN_ATTEMPTS" MAX_LOGIN_ATTEMPTS 5 (Some 1) None _ _).
  - cbn. tauto.
  - exists "0". split; [reflexivity|]. right. exists 0. split; [reflexivity|].
    left. exists 1. split; [reflexivity | lia].
Defined.

(** A cipher key of any shape passes the constructor: its form is only
    examined when [Security] builds the cipher. *)
Lemma Config_init_keeps_cipher_key (key : string) :
  FERNET_KEY <$> (match @Config_init plain_builtins
                          (<["FERNET_KEY" := key]> minimal_environ) with
                  | inr c => Some c
                  | inl _ => None
                  end) = Some key.
Proof.
  unfold minimal_environ. vm_compute. reflexivity.
Qed.

(** ** Symmetric cipher *)

Section CipherProperties.
Context `{CryptoLib}.

(** C7. Decrypting what [encrypt_data] returned for a string gives the
    string back, and logs nothing. When the token decodes to bytes that
    the authenticated decryption refuses, [decrypt_data] raises the
    invalid-token [SecurityException], and the security object gains the
    event [decryption_failed] with severity high, which is also passed on
    to the administrators. *)
Theorem decrypt_data_encrypt_data (key : string) (s : Security) :
  (forall nonce text,
      exists token,
        encrypt_data key nonce (DataStr text) = inr token
        /\ decrypt_data key token s = (inr text, s))
  /\ (forall token encrypted_bytes,
        urlsafe_b64decode token = Some encrypted_bytes ->
        fernet_decrypt key encrypted_bytes = None ->
        exists s',
          decrypt_data key token s
          = (inl (SecurityException DecryptionInvalidToken), s')
          /\ security_events s'
             = security_events s
               ++ [{| event_type := "decryption_failed"; severity := high;
                      ev_user_id := None;
                      details := "Invalid token during decryption" |}]
          /\ admin_alerts s'
             = admin_alerts s
               ++ [("decryption_failed", "Invalid token during decryption")]
          /\ rate_limits s' = rate_limits s
          /\ lockout_tracker s' = lockout_tracker s).
Proof.
  split.
  - intros nonce text. unfold encrypt_data.
    destruct (b64_text (fernet_encrypt key nonce (utf8_encode text)))
      as [token Htoken].
    exists token. rewrite Htoken. split; [reflexivity|].
    unfold decrypt_data.
    rewrite (b64_decode_encode _ _ Htoken), fernet_decrypt_encrypt,
      utf8_decode_encode.
    reflexivity.
  - intros token encrypted_bytes Hdecode Hrefused. unfold decrypt_data.
    rewrite Hdecode, Hrefused. eexists. split; [reflexivity|].
    repeat split.
Qed.
End CipherProperties.

(** The theorem at work on a token whose tag is wrong. *)
Lemma decrypt_data_encrypt_data_witness :
  exists s',
    @decrypt_data tag_cipher "key" "tampered" Security_init
    = (inl (SecurityException DecryptionInvalidToken), s')
    /\ security_events s'
       = [{| event_type := "decryption_failed"; severity := high;
             ev_user_id := None;
             details := "Invalid token during decryption" |}].
Proof.
  destruct (proj2 (@decrypt_data_encrypt_data tag_cipher "key" Security_init)
              "tampered" (list_byte_of_string "tampered")
              eq_refl eq_refl) as (s' & Hrun & Hevents & _).
  exists s'. split; [exact Hrun | exact Hevents].
Defined.

(** A token that is not base64 text is reported as [decryption_error] with
    severity critical, not as an invalid token. *)
Lemma decrypt_data_not_base64 `{CryptoLib} key token s :
  urlsafe_b64decode token = None ->
  fst (decrypt_data key token s) = inl (SecurityException DecryptionFailed).
Proof. intros Hbad. unfold decrypt_data. by rewrite Hbad. Qed.

(** ** Rate limiter *)

Section RateLimiterProperties.
Variables (identifier action : string) (max_attempts period : Z).

Let key := rate_key identifier action.
Let check now s := check_rate_limit now identifier action max_attempts period s.

(** First call for a key that is neither counted nor locked. *)
Lemma check_rate_limit_first now s :
  lockout_tracker s !! key = None -> rate_limits s !! key = None ->
  check now s
  = (true, set_rate_limits
             (<[key := {| count := 1; timestamp := now |}]> (rate_limits s)) s).
Proof.
  intros Hlock Hrate. unfold check, check_rate_limit. fold key.
  by rewrite Hlock, Hrate.
Qed.

(** A further call inside the window, below the limit. *)
Lemma check_rate_limit_counted now s c t0 :
  lockout_tracker s !! key = None ->
  rate_limits s !! key = Some {| count := c; timestamp := t0 |} ->
  now - t0 <= period -> c + 1 <= max_attempts ->
  check now s
  = (true, set_rate_limits
             (<[key := {| count := c + 1; timestamp := t0 |}]> (rate_limits s)) s).
Proof.
  intros Hlock Hrate Hwin Hmax. unfold check, check_rate_limit. fold key.
  rewrite Hlock, Hrate. cbn [timestamp count].
  destruct (Z.ltb_spec period (now - t0)); [lia|].
  destruct (Z.ltb_spec max_attempts (c + 1)); [lia|]. reflexivity.
Qed.

(** The call inside the window that passes the limit. *)
Lemma check_rate_limit_exceeded now s c t0 :
  lockout_tracker s !! key = None ->
  rate_limits s !! key = Some {| count := c; timestamp := t0 |} ->
  now - t0 <= period -> max_attempts < c + 1 ->
  exists s',
    check now s = (false, s')
    /\ lockout_tracker s' !! key = Some now
    /\ rate_limits s' !! key = Some {| count := c + 1; timestamp := t0 |}
    /\ exists ev, security_events s' = security_events s ++ [ev]
                  /\ event_type ev = "rate_limit_exceeded"
                  /\ severity ev = high.
Proof.
  intros Hlock Hrate Hwin Hmax. unfold check, check_rate_limit. fold key.
  rewrite Hlock, Hrate. cbn [timestamp count].
  destruct (Z.ltb_spec period (now - t0)); [lia|].
  destruct (Z.ltb_spec max_attempts (c + 1)); [|lia].
  eexists. split; [reflexivity|].
  unfold log_security_event. cbn.
  rewrite !lookup_insert_eq. repeat split. eexists. repeat split.
Qed.

(** While the lockout lasts, the call is refused and nothing changes. *)
Lemma check_rate_limit_locked now s t :
  lockout_tracker s !! key = Some t -> now - t < period ->
  check now s = (false, s).
Proof.
  intros Hlock Hwin. unfold check, check_rate_limit. fold key.
  rewrite Hlock. destruct (Z.ltb_spec (now - t) period); [reflexivity|lia].
Qed.

(** After the lockout, with the window of the counter over as well. *)
Lemma check_rate_limit_released now s t c t0 :
  lockout_tracker s !! key = Some t ->
  rate_limits s !! key = Some {| count := c; timestamp := t0 |} ->
  period <= now - t -> period < now - t0 ->
  exists s',
    check now s = (true, s')
    /\ lockout_tracker s' !! key = None
    /\ rate_limits s' !! key = Some {| count := 1; timestamp := now |}.
Proof.
  intros Hlock Hrate Hover Hwin. unfold check, check_rate_limit. fold key.
  rewrite Hlock. destruct (Z.ltb_spec (now - t) period); [lia|].
  cbn [rate_limits set_lockout_tracker]. rewrite Hrate. cbn [timestamp].
  destruct (Z.ltb_spec period (now - t0)); [|lia].
  eexists. split; [reflexivity|]. cbn.
  by rewrite lookup_delete_eq, lookup_insert_eq.
Qed.

(** After the lockout, with the window of the counter still open: the
    call counts as one more attempt and locks again. *)
Lemma check_rate_limit_relocked now s t c t0 :
  lockout_tracker s !! key = Some t ->
  rate_limits s !! key = Some {| count := c; timestamp := t0 |} ->
  period <= now - t -> now - t0 <= period -> max_attempts < c + 1 ->
  fst (check now s) = false.
Proof.
  intros Hlock Hrate Hover Hwin Hmax. unfold check, check_rate_limit. fold key.
  rewrite Hlock. destruct (Z.ltb_spec (now - t) period); [lia|].
  cbn [rate_limits set_lockout_tracker]. rewrite Hrate. cbn [timestamp count].
  destruct (Z.ltb_spec period (now - t0)); [lia|].
  destruct (Z.ltb_spec max_attempts (c + 1)); [reflexivity|lia].
Qed.

(** Calls inside the window that stay below the limit are all allowed and
    only move the counter. *)
Lemma rate_limit_calls_counted times : forall s c t0,
  lockout_tracker s !! key = None ->
  rate_limits s !! key = Some {| count := c; timestamp := t0 |} ->
  Forall (fun t => t - t0 <= period) times ->
  c + Z.of_nat (length times) <= max_attempts ->
  exists s',
    rate_limit_calls times identifier action max_attempts period s
    = (repeat true (length times), s')
    /\ lockout_tracker s' !! key = None
    /\ rate_limits s' !! key
       = Some {| count := c + Z.of_nat (length times); timestamp := t0 |}.
Proof.
  induction times as [|now times IH]; intros s c t0 Hlock Hrate Hwin Hmax.
  - exists s. cbn. rewrite Z.add_0_r. done.
  - apply Forall_cons in Hwin as [Hnow Hwin].
    cbn [rate_limit_calls length] in *.
    pose proof (check_rate_limit_counted now s c t0 Hlock Hrate Hnow) as Hstep.
    unfold check in Hstep. rewrite Hstep by lia.
    edestruct (IH (set_rate_limits
                     (<[key := {| count := c + 1; timestamp := t0 |}]>
                        (rate_limits s)) s) (c + 1) t0)
      as (s' & Hrun & Hlock' & Hrate'); [done | | done | lia |].
    { cbn. apply lookup_insert_eq. }
    rewrite Hrun. exists s'. split; [reflexivity|]. split; [done|].
    rewrite Hrate'. do 2 f_equal. lia.
Qed.

(** C3, as amended. From a state where the key is neither counted nor
    locked, with [max_attempts] at least 1: of [max_attempts + 1] calls
    whose times lie in the window opened by the first, the first
    [max_attempts] return true and the last returns false, records its
    time as lockout and logs a high rate_limit_exceeded event; a call made
    before [period] has passed since the lockout returns false; a call
    made when [period] has passed since the lockout, and more than
    [period] since the first call, returns true and sets the counter
    to 1. *)
Theorem check_rate_limit_quota (s : Security) (first : Z) (later : list Z)
    (locked_at : Z) :
  lockout_tracker s !! key = None -> rate_limits s !! key = None ->
  1 <= max_attempts ->
  Z.of_nat (length later) + 1 = max_attempts ->
  Forall (fun t => t - first <= period) later ->
  locked_at - first <= period ->
  exists s',
    rate_limit_calls (first :: later ++ [locked_at])
      identifier action max_attempts period s
    = (repeat true (Z.to_nat max_attempts) ++ [false], s')
    /\ lockout_tracker s' !! key = Some locked_at
    /\ (exists ev, security_events s' = security_events s ++ [ev]
                   /\ event_type ev = "rate_limit_exceeded"
                   /\ severity ev = high)
    /\ (forall now, now - locked_at < period -> check now s' = (false, s'))
    /\ (forall now, period <= now - locked_at -> period < now - first ->
          exists s'',
            check now s' = (true, s'')
            /\ lockout_tracker s'' !! key = None
            /\ rate_limits s'' !! key = Some {| count := 1; timestamp := now |}).
Proof.
  intros Hlock Hrate Hmax Hlen Hwin Hlast.
  assert (Hcalls : forall times s0 s1 a1 l,
    rate_limit_calls times identifier action max_attempts period s0 = (a1, s1) ->
    rate_limit_calls (times ++ l) identifier action max_attempts period s0
    = (a1 ++ fst (rate_limit_calls l identifier action max_attempts period s1),
       snd (rate_limit_calls l identifier action max_attempts period s1))).
  { induction times as [|t times IH]; intros s0 s1 a1 l Hrun.
    - injection Hrun as <- <-. cbn. by destruct (rate_limit_calls l _ _ _ _ _).
    - cbn [rate_limit_calls app] in *.
      destruct (check_rate_limit t _ _ _ _ s0) as [a sa].
      destruct (rate_limit_calls times _ _ _ _ sa) as [as' sb] eqn:Hrest.
      injection Hrun as <- <-.
      rewrite (IH _ _ _ l Hrest). reflexivity. }
  pose proof (check_rate_limit_first first s Hlock Hrate) as Hfirst.
  set (s1 := set_rate_limits
               (<[key := {| count := 1; timestamp := first |}]> (rate_limits s)) s)
    in Hfirst.
  destruct (rate_limit_calls_counted later s1 1 first)
    as (s2 & Hrun & Hlock2 & Hrate2); [done | apply lookup_insert_eq | done | lia |].
  destruct (check_rate_limit_exceeded locked_at s2 _ first Hlock2 Hrate2)
    as (s3 & Hstep & Hlock3 & Hrate3 & ev & Hev & Htype & Hsev); [lia | lia |].
  exists s3.
  change (first :: later ++ [locked_at]) with ([first] ++ later ++ [locked_at]).
  cbn [app rate_limit_calls]. unfold check in Hfirst. rewrite Hfirst.
  rewrite (Hcalls _ _ _ _ [locked_at] Hrun).
  cbn [rate_limit_calls]. unfold check in Hstep. rewrite Hstep. cbn [fst snd].
  split.
  { f_equal. replace (Z.to_nat max_attempts) with (S (length later)) by lia.
    reflexivity. }
  split; [done|]. split.
  { exists ev. split; [|done]. rewrite Hev. f_equal.
    assert (Hsame : forall times s0 c t0,
      lockout_tracker s0 !! key = None ->
      rate_limits s0 !! key = Some {| count := c; timestamp := t0 |} ->
      Forall (fun t => t - t0 <= period) times ->
      c + Z.of_nat (length times) <= max_attempts ->
      security_events
        (snd (rate_limit_calls times identifier action max_attempts period s0))
      = security_events s0).
    { induction times as [|t times IH]; intros s0 c t0 Hl Hr Hw Hm; [done|].
      apply Forall_cons in Hw as [Ht Hw]. cbn [rate_limit_calls length] in *.
      pose proof (check_rate_limit_counted t s0 c t0 Hl Hr Ht) as Hc.
      unfold check in Hc. rewrite Hc by lia.
      destruct (rate_limit_calls times _ _ _ _ _) as [a sb] eqn:Hrest.
      cbn [snd]. change sb with (snd (a, sb)). rewrite <- Hrest.
      erewrite IH; [done | done | cbn; apply lookup_insert_eq | done | lia]. }
    specialize (Hsame later s1 1 first). rewrite Hrun in Hsame.
    cbn [snd] in Hsame. rewrite Hsame; [done | done | apply lookup_insert_eq
                                        | done | lia]. }
  split.
  - intros now Hnow. by apply (check_rate_limit_locked now s3 locked_at).
  - intros now Hover Hwindow.
    by apply (check_rate_limit_released now s3 locked_at _ first Hlock3 Hrate3).
Qed.
End RateLimiterProperties.

(** C3, the claim as stated fails: with a limit of one attempt in ten
    seconds, two calls at time 0 lock the key at 0; at time 10 the ten
    seconds have passed since the lockout, and the call is refused. *)
Lemma check_rate_limit_refused_at_window_end :
  fst (rate_limit_calls [0; 0; 10] "42" "login" 1 10 Security_init)
  = [true; false; false]
  /\ 10 <= 10 - 0.
Proof. split; [vm_compute; reflexivity | lia]. Qed.

(** The theorem at work: three attempts allowed, the fourth locks, and the
    call after the window is allowed again. *)
Lemma check_rate_limit_quota_witness :
  exists s',
    rate_limit_calls [0; 1; 2; 3] "42" "login" 3 10 Security_init
    = ([true; true; true; false], s')
    /\ lockout_tracker s' !! rate_key "42" "login" = Some 3
    /\ fst (check_rate_limit 13 "42" "login" 3 10 s') = true.
Proof.
  destruct (check_rate_limit_quota "42" "login" 3 10 Security_init 0 [1; 2] 3)
    as (s' & Hrun & Hlock & _ & _ & Hfree);
    [reflexivity | reflexivity | lia | reflexivity
    | repeat constructor; lia | lia |].
  exists s'. split; [exact Hrun|]. split; [exact Hlock|].
  destruct (Hfree 13) as (s'' & Hcall & _); [lia | lia |].
  rewrite Hcall. reflexivity.
Defined.

(** ** Running the bot when the environment does not fail *)

Lemma bind_run {A B} (m : IO A) (f : A -> IO B) w :
  (m ≫= f) w
  = match m w with
    | (inr a, w') => f a w'
    | (inl e, w') => (inl e, w')
    end.
Proof. reflexivity. Qed.

Lemma calm_set_store d w : calm w -> calm (set_store d None w).
Proof. by intros [Hf Ht]. Qed.

Lemma calm_set_security s w : calm w -> calm (set_security s w).
Proof. by intros [Hf Ht]. Qed.

Lemma calm_add_calls c w : calm w -> calm (add_calls c w).
Proof. by intros [Hf Ht]. Qed.

Lemma calm_quiet_world d : calm (quiet_world d).
Proof. done. Qed.

Lemma next_fault_calm w : calm w -> next_fault w = (inr false, w).
Proof. intros [Hf _]. unfold next_fault. by rewrite Hf. Qed.

Lemma external_call_calm w : calm w -> external_call w = (inr tt, w).
Proof.
  intros Hw. unfold external_call. rewrite bind_run, next_fault_calm; done.
Qed.

Lemma sql_query_calm {A} (q : Database -> A) w :
  calm w -> sql_query q w = (inr (q (disk w)), w).
Proof.
  intros Hw. unfold sql_query. rewrite bind_run, next_fault_calm by done.
  destruct Hw as [_ Ht]. unfold view. by rewrite Ht.
Qed.

Lemma fetch_one_calm {A} (q : Database -> option A) w :
  calm w -> fetch_one q w = (inr (q (disk w)), w).
Proof. intros Hw. unfold fetch_one, try_except. by rewrite sql_query_calm. Qed.

Lemma fetch_all_calm {A} (q : Database -> list A) w :
  calm w -> fetch_all q w = (inr (q (disk w)), w).
Proof. intros Hw. unfold fetch_all, try_except. by rewrite sql_query_calm. Qed.

Lemma get_user_calm uid w :
  calm w -> get_user uid w = (inr (users (disk w) !! uid), w).
Proof. intros Hw. unfold get_user. by rewrite fetch_one_calm. Qed.

(** A statement with commit either takes effect and is committed, or
    changes nothing and raises [DATABASE_ERROR]. *)
Lemma Database_execute_calm stmt w :
  calm w ->
  Database_execute stmt true w
  = match stmt (disk w) with
    | Some d => (inr tt, set_store d None w)
    | None => (inl (BotError DATABASE_ERROR), w)
    end.
Proof.
  intros Hw. pose proof Hw as [Hf Ht].
  unfold Database_execute, try_except, sql_execute, connection_commit.
  rewrite !bind_run, next_fault_calm by done.
  unfold view at 1. rewrite Ht. cbn [default].
  destruct (stmt (disk w)) as [d|]; [|reflexivity].
  rewrite bind_run. unfold next_fault. cbn [faults set_store]. rewrite Hf.
  reflexivity.
Qed.

Lemma update_transaction_status_calm now tid s w :
  calm w ->
  update_transaction_status now tid s w
  = (inr tt, set_store
               (set_transactions
                  (map (fun t => if String.eqb (transaction_id t) tid
                                 then set_status s now t else t)
                     (transactions (disk w))) (disk w)) None w).
Proof.
  intros Hw. unfold update_transaction_status.
  by rewrite Database_execute_calm.
Qed.

(** ** Login attempts *)

Section LoginProperties.
Context `{Argon2}.
Variables (cfg : Config) (uid : Z).

Lemma verify_password_accepted password stored_hash s :
  fst (fst (verify_password password stored_hash s))
  = password_accepted password stored_hash.
Proof.
  unfold verify_password, password_accepted.
  destruct (is_empty password || is_empty stored_hash); [done|].
  by destruct (argon2_verify stored_hash password) as [[]| | |].
Qed.

Lemma authenticate_wrong_password now st bt password w u :
  calm w -> users (disk w) !! uid = Some u ->
  0 <= failed_login_attempts u < MAX_LOGIN_ATTEMPTS cfg ->
  0 <= balance u ->
  password_accepted password (password_hash u) = false ->
  exists e w',
    _authenticate_existing_user cfg now st bt uid password w = (inl e, w')
    /\ calm w'
    /\ users (disk w') !! uid = Some (after_failed_attempt cfg u).
Proof.
  intros Hw Hu Hn Hbal Hwrong. unfold _authenticate_existing_user.
  rewrite bind_run, get_user_calm, Hu by done.
  destruct (Z.leb_spec (MAX_LOGIN_ATTEMPTS cfg) (failed_login_attempts u)); [lia|].
  rewrite bind_run. unfold verify_password_io.
  pose proof (verify_password_accepted password (password_hash u) (security w))
    as Hv. rewrite Hwrong in Hv.
  destruct (verify_password password (password_hash u) (security w))
    as [[ok called] s']. cbn in Hv. subst ok. cbn [negb].
  set (w1 := add_calls called (set_security s' w)).
  assert (Hw1 : calm w1) by by apply calm_add_calls, calm_set_security.
  assert (Hu1 : users (disk w1) !! uid = Some u) by done.
  rewrite bind_run, Database_execute_calm by done.
  unfold sql_incr_failed_logins, update_user_row. rewrite Hu1.
  cbn [balance failed_login_attempts set_failed_login_attempts].
  destruct (Z.ltb_spec (balance u) 0); [lia|].
  destruct (Z.ltb_spec (failed_login_attempts u + 1) 0); [lia|]. cbn [orb].
  set (u1 := set_failed_login_attempts (failed_login_attempts u + 1) u).
  set (w2 := set_store _ None w1).
  assert (Hw2 : calm w2) by by apply calm_set_store.
  assert (Hu2 : users (disk w2) !! uid = Some u1) by apply lookup_insert_eq.
  unfold after_failed_attempt. fold u1.
  destruct (MAX_LOGIN_ATTEMPTS cfg - (failed_login_attempts u + 1) <=? 0).
  - rewrite bind_run, Database_execute_calm by done.
    unfold sql_deactivate, update_user_row. rewrite Hu2.
    cbn [balance failed_login_attempts set_is_active u1 set_failed_login_attempts].
    destruct (Z.ltb_spec (balance u) 0); [lia|].
    destruct (Z.ltb_spec (failed_login_attempts u + 1) 0); [lia|]. cbn [orb].
    eexists _, _. split; [reflexivity|]. split; [by apply calm_set_store|].
    apply lookup_insert_eq.
  - eexists _, _. split; [reflexivity|]. done.
Qed.

Lemma login_attempts_wrong_passwords now passwords : forall w u,
  calm w -> users (disk w) !! uid = Some u ->
  0 <= failed_login_attempts u ->
  failed_login_attempts u + Z.of_nat (length passwords) <= MAX_LOGIN_ATTEMPTS cfg ->
  0 <= balance u ->
  Forall (fun p => password_accepted p (password_hash u) = false) passwords ->
  exists u',
    calm (login_attempts cfg now uid passwords w)
    /\ users (disk (login_attempts cfg now uid passwords w)) !! uid = Some u'
    /\ failed_login_attempts u'
       = failed_login_attempts u + Z.of_nat (length passwords)
    /\ password_hash u' = password_hash u.
Proof.
  induction passwords as [|p passwords IH]; intros w u Hw Hu Hn Hmax Hbal Hwrong.
  - exists u. cbn. rewrite Z.add_0_r. done.
  - apply Forall_cons in Hwrong as [Hp Hwrong]. cbn [login_attempts length] in *.
    destruct (authenticate_wrong_password now "" "" p w u)
      as (e & w' & Hrun & Hw' & Hu'); [done | done | lia | done | done |].
    rewrite Hrun. cbn [snd].
    assert (Hafter : failed_login_attempts (after_failed_attempt cfg u)
                     = failed_login_attempts u + 1
                     /\ balance (after_failed_attempt cfg u) = balance u
                     /\ password_hash (after_failed_attempt cfg u) = password_hash u).
    { unfold after_failed_attempt. by destruct (_ <=? 0). }
    destruct Hafter as (Hcount & Hbal' & Hhash).
    destruct (IH w' (after_failed_attempt cfg u)) as (u' & ? & ? & Hc & Hh);
      [done | done | lia | lia | lia | by rewrite Hhash |].
    exists u'. split; [done|]. split; [done|]. split; [lia | congruence].
Qed.

(** C6. With [MAX_LOGIN_ATTEMPTS] equal to 5, after five attempts with
    passwords that fail the verification, the next attempt of the account
    raises [ACCOUNT_LOCKED] whatever password is submitted, also the right
    one; the world is left as it was, so the hasher has not been called. *)
Theorem authenticate_sixth_attempt_locked
    (now : Z) (w : World) (u : User) (passwords : list string) :
  MAX_LOGIN_ATTEMPTS cfg = 5 ->
  calm w -> users (disk w) !! uid = Some u ->
  failed_login_attempts u = 0 -> 0 <= balance u ->
  length passwords = 5%nat ->
  Forall (fun p => password_accepted p (password_hash u) = false) passwords ->
  forall now' session_token_hex bearer password,
    _authenticate_existing_user cfg now' session_token_hex bearer uid password
      (login_attempts cfg now uid passwords w)
    = (inl (BotError ACCOUNT_LOCKED), login_attempts cfg now uid passwords w).
Proof.
  intros Hmax Hw Hu Hzero Hbal Hlen Hwrong now' st bt password.
  destruct (login_attempts_wrong_passwords now passwords w u)
    as (u' & Hw' & Hu' & Hcount & _); [done | done | lia | lia | done | done |].
  unfold _authenticate_existing_user.
  rewrite bind_run, get_user_calm, Hu' by done.
  destruct (Z.leb_spec (MAX_LOGIN_ATTEMPTS cfg) (failed_login_attempts u'));
    [reflexivity | lia].
Qed.
End LoginProperties.

(** The theorem at work: five wrong passwords, then the right one. *)
Lemma authenticate_sixth_attempt_locked_witness :
  let u := {| username := "gamer"; password_hash := "argon2:Right#Passw0rd";
              is_active := true; failed_login_attempts := 0;
              mfa_secret := None; balance := 0 |} in
  let w := quiet_world (set_users {[ 7 := u ]} empty_database) in
  let w5 := @login_attempts plain_argon2 default_config 0 7
              ["a"; "b"; "c"; "d"; "e"] w in
  @password_accepted plain_argon2 "Right#Passw0rd" (password_hash u) = true
  /\ @_authenticate_existing_user plain_argon2 default_config 9 "" "" 7
       "Right#Passw0rd" w5
     = (inl (BotError ACCOUNT_LOCKED), w5).
Proof.
  split; [reflexivity|].
  apply (@authenticate_sixth_attempt_locked plain_argon2 default_config 7 0 _
           {| username := "gamer"; password_hash := "argon2:Right#Passw0rd";
              is_active := true; failed_login_attempts := 0;
              mfa_secret := None; balance := 0 |});
    [reflexivity | done | reflexivity | reflexivity | done | reflexivity |].
  repeat constructor.
Defined.

(** ** Sums over the transaction table *)

Lemma sum_for_cons f uid t l :
  sum_for f uid (t :: l)
  = (if user_id t =? uid then f t else 0) + sum_for f uid l.
Proof. reflexivity. Qed.

Lemma update_row_absent tid g l :
  ~ In tid (map transaction_id l) -> update_row tid g l = l.
Proof.
  induction l as [|a l IH]; intros Hnot; [reflexivity|].
  cbn [update_row map] in *. fold (update_row tid g l).
  destruct (String.eqb_spec (transaction_id a) tid) as [Heq|].
  - destruct Hnot. by left.
  - rewrite IH; [reflexivity|]. intros Hin. apply Hnot. by right.
Qed.

(** In a table with distinct ids, two rows with one id are one row. *)
Lemma unique_row l t t' :
  NoDup (map transaction_id l) -> In t l -> In t' l ->
  transaction_id t = transaction_id t' -> t = t'.
Proof.
  induction l as [|a l IH]; intros Hnd Ht Ht' Hid; [done|].
  cbn [map] in Hnd. apply NoDup_cons in Hnd as [Ha Hnd].
  rewrite list_elem_of_In in Ha.
  destruct Ht as [-> | Ht], Ht' as [-> | Ht'].
  - done.
  - destruct Ha. rewrite Hid. by apply in_map.
  - destruct Ha. rewrite <- Hid. by apply in_map.
  - by apply IH.
Qed.

(** Rewriting the one row [t] moves the sum of its account by the change of
    that row. *)
Lemma sum_for_update_row f uid g l t :
  NoDup (map transaction_id l) -> In t l -> user_id (g t) = user_id t ->
  sum_for f uid (update_row (transaction_id t) g l)
  = sum_for f uid l + (if user_id t =? uid then f (g t) - f t else 0).
Proof.
  intros Hnd Ht Hg. induction l as [|a l IH]; [done|].
  cbn [map] in Hnd. apply NoDup_cons in Hnd as [Ha Hnd].
  rewrite list_elem_of_In in Ha.
  cbn [update_row map]. fold (update_row (transaction_id t) g l).
  destruct (String.eqb_spec (transaction_id a) (transaction_id t)) as [Heq|Hne].
  - assert (a = t) as ->.
    { destruct Ht as [-> | Ht]; [done|]. destruct Ha. rewrite Heq.
      by apply in_map. }
    rewrite update_row_absent by done. rewrite !sum_for_cons, Hg.
    destruct (user_id t =? uid); lia.
  - destruct Ht as [-> | Ht]; [done|].
    rewrite !sum_for_cons, IH by done. lia.
Qed.

(** ** What the statements need and do *)

Lemma sql_add_balance_ok d uid u a :
  users d !! uid = Some u -> 0 <= balance u + a -> 0 <= failed_login_attempts u ->
  sql_add_balance a uid d
  = Some (set_users (<[uid := set_balance (balance u + a) u]> (users d)) d).
Proof.
  intros Hu Hbal Hfail. unfold sql_add_balance, update_user_row. rewrite Hu.
  cbn [balance failed_login_attempts set_balance].
  destruct (Z.ltb_spec (balance u + a) 0); [lia|].
  destruct (Z.ltb_spec (failed_login_attempts u) 0); [lia|]. reflexivity.
Qed.

(** ** The guarded loop of the background tasks *)

Lemma try_except_pass {A} (m : IO A) (w : World) (d : A) :
  exists a, try_except m (fun _ => mret d) w = (inr a, snd (m w)).
Proof.
  unfold try_except. destruct (m w) as [[e|a] w']; cbn; eauto.
Qed.

Lemma for_each_guarded_invariant {A} (J : list A -> World -> Prop)
    (body : A -> IO unit) :
  (forall x rest w,
      J (x :: rest) w -> J rest (snd (body x w))) ->
  forall l w, J l w ->
    fst (for_each_guarded l body w) = inr tt
    /\ J [] (snd (for_each_guarded l body w)).
Proof.
  intros Hstep. induction l as [|x rest IH]; intros w HJ; [done|].
  cbn [for_each_guarded]. rewrite bind_run.
  destruct (try_except_pass (body x) w tt) as [a ->].
  apply IH, Hstep, HJ.
Qed.

(** ** Reconciliation *)

(** After the row [x] has been rewritten, the rest of the snapshot is still
    in the table as it was. *)
Lemma snapshot_rest P x rest (l : list Transaction) g :
  NoDup (map transaction_id (x :: rest)) ->
  Forall (fun t => In t l /\ P t) rest ->
  Forall (fun t => In t (update_row (transaction_id x) g l) /\ P t) rest.
Proof.
  intros Hnd Hrest. cbn [map] in Hnd. apply NoDup_cons in Hnd as [Hx _].
  apply Forall_forall. intros t Ht. rewrite Forall_forall in Hrest.
  destruct (Hrest t Ht) as [Hin HP]. split; [|done].
  unfold update_row. apply in_map_iff. exists t. split; [|done].
  destruct (String.eqb_spec (transaction_id t) (transaction_id x)) as [Heq|];
    [|done].
  destruct Hx. rewrite <- Heq. apply list_elem_of_In, in_map.
  by apply list_elem_of_In.
Qed.

Lemma sql_add_balance_refund d uid a :
  users_ok d -> 0 < a ->
  exists d',
    sql_add_balance a uid d = Some d'
    /\ transactions d' = transactions d
    /\ users_ok d'
    /\ (forall v, users d !! uid = Some v ->
                  users d' !! uid = Some (set_balance (balance v + a) v))
    /\ (forall uid', uid' <> uid -> users d' !! uid' = users d !! uid').
Proof.
  intros Hok Ha. unfold sql_add_balance, update_user_row.
  destruct (users d !! uid) as [v|] eqn:Hv.
  - destruct (Hok _ _ Hv) as [Hb Hf]. cbn [balance failed_login_attempts set_balance].
    destruct (Z.ltb_spec (balance v + a) 0); [lia|].
    destruct (Z.ltb_spec (failed_login_attempts v) 0); [lia|].
    eexists. split; [reflexivity|]. split; [done|]. split; [|split].
    + intros uid' v'. cbn. rewrite lookup_insert. case_decide.
      * intros [= <-]. cbn. lia.
      * apply Hok.
    + intros v' [= <-]. cbn. apply lookup_insert_eq.
    + intros uid' Hne. cbn. by apply lookup_insert_ne.
  - exists d. split; [done|]. split; [done|]. split; [done|].
    split; [intros v [=] | done].
Qed.

Lemma withdrawn_cons uid x l :
  withdrawn uid (x :: l)
  = (if user_id x =? uid
     then if bool_decide (tx_type x = withdrawal) then amount x else 0
     else 0) + withdrawn uid l.
Proof. reflexivity. Qed.

(** One stuck row: it is marked failed, and the amount of a withdrawal goes
    back to the balance of its account. *)
Lemma reconcile_transaction_step now b0 all t x rest w :
  reconcile_progress now b0 all t (x :: rest) w ->
  reconcile_progress now b0 all t rest (snd (reconcile_transaction now x w)).
Proof.
  intros (Hw & Hok & Hnd & Hall & (u' & Hu' & Hsum) & Hwhere).
  apply Forall_cons in Hall as [[Hx Hamt] Hrest].
  pose proof Hnd as Hndx. cbn [map] in Hnd. apply NoDup_cons in Hnd as [Hfresh Hnd].
  rewrite withdrawn_cons in Hsum.
  unfold reconcile_transaction.
  rewrite bind_run, update_transaction_status_calm by done.
  set (d1 := set_transactions _ (disk w)). set (w1 := set_store d1 None w).
  assert (Hw1 : calm w1) by by apply calm_set_store.
  assert (Hrest1 : Forall (fun r => In r (transactions d1) /\ 0 < amount r) rest).
  { apply (snapshot_rest (fun r => 0 < amount r) x rest _
             (set_status failed now) Hndx Hrest). }
  assert (Hwhere1 : In t rest
                    \/ (~ In (transaction_id t) (map transaction_id rest)
                        /\ In (set_status failed now t) (transactions d1))).
  { destruct Hwhere as [[<- | Hin] | [Hnot Hin]].
    - right. split.
      + intros Hin'. apply Hfresh. by apply list_elem_of_In.
      + unfold d1. cbn. apply in_map_iff. exists x. split; [|done].
        by rewrite String.eqb_refl.
    - by left.
    - right. split; [intros Hin'; apply Hnot; by right|].
      unfold d1. cbn. apply in_map_iff. exists (set_status failed now t).
      split; [|done]. cbn.
      destruct (String.eqb_spec (transaction_id t) (transaction_id x)) as [Heq|];
        [|done].
      destruct Hnot. left. done. }
  case_bool_decide as Htype; cbn [snd].
  - rewrite Database_execute_calm by done. change (disk w1) with d1.
    destruct (sql_add_balance_refund d1 (user_id x) (amount x))
      as (d2 & -> & Htx & Hok2 & Hsame & Hother); [done | done |].
    cbn [snd]. split; [by apply calm_set_store|]. cbn [disk set_store].
    split; [done|]. split; [done|]. split; [by rewrite Htx|]. split.
    + destruct (Z.eqb_spec (user_id x) (user_id t)) as [Heq|Hne].
      * exists (set_balance (balance u' + amount x) u'). split.
        { rewrite <- Heq. apply Hsame. by rewrite Heq. }
        cbn. lia.
      * exists u'. split; [by rewrite Hother|]. lia.
    + by rewrite Htx.
  - split; [done|]. cbn [disk set_store]. split; [done|]. split; [done|].
    split; [done|]. split; [|done].
    exists u'. split; [done|]. destruct (user_id x =? user_id t); lia.
Qed.

Lemma NoDup_ids_filter (p : Transaction -> bool) l :
  NoDup (map transaction_id l) -> NoDup (map transaction_id (List.filter p l)).
Proof.
  induction l as [|a l IH]; intros Hnd; cbn in *; [constructor|].
  apply NoDup_cons in Hnd as [Ha Hnd].
  destruct (p a); cbn; [|by apply IH].
  apply NoDup_cons. split; [|by apply IH].
  intros Hin. apply Ha. apply list_elem_of_In in Hin.
  apply in_map_iff in Hin as (t & <- & Ht). apply filter_In in Ht as [Ht _].
  apply list_elem_of_In. by apply in_map.
Qed.

Lemma withdrawn_none uid l :
  (forall r, In r l -> tx_type r = withdrawal -> user_id r <> uid) ->
  withdrawn uid l = 0.
Proof.
  induction l as [|a l IH]; intros Hl; [reflexivity|].
  rewrite withdrawn_cons, IH by (intros; apply Hl; [by right | done]).
  destruct (Z.eqb_spec (user_id a) uid) as [Heq|]; [|reflexivity].
  case_bool_decide as Hty; [|reflexivity].
  destruct (Hl a); [by left | done | done].
Qed.

(** When [t] is the only withdrawal of its account among rows with distinct
    ids, the withdrawals of the account add up to its amount. *)
Lemma withdrawn_single l t :
  NoDup (map transaction_id l) -> In t l -> tx_type t = withdrawal ->
  (forall r, In r l -> tx_type r = withdrawal -> user_id r = user_id t -> r = t) ->
  withdrawn (user_id t) l = amount t.
Proof.
  induction l as [|a l IH]; intros Hnd Ht Hty Honly; [done|].
  pose proof Hnd as Hall.
  cbn [map] in Hnd. apply NoDup_cons in Hnd as [Ha Hnd].
  rewrite withdrawn_cons.
  destruct (decide (transaction_id a = transaction_id t)) as [Hid | Hne].
  - assert (a = t) as -> by (eapply unique_row; [exact Hall | by left | done..]).
    rewrite Z.eqb_refl, bool_decide_eq_true_2 by done.
    rewrite withdrawn_none; [lia|]. intros r Hr Hrty Hsame.
    assert (r = t) as -> by (apply Honly; [by right | done | done]).
    apply Ha, list_elem_of_In. by apply in_map.
  - destruct Ht as [-> | Ht]; [done|].
    rewrite IH; [| done | done | done | intros; apply Honly; [by right|done..]].
    destruct (Z.eqb_spec (user_id a) (user_id t)) as [Heq|]; [|lia].
    case_bool_decide as Haty; [|lia].
    destruct Hne. f_equal. apply Honly; [by left | done | done].
Qed.

(** C4. In a store that meets the constraints of the schema, let a
    withdrawal row be stuck: pending or processing and created more than an
    hour before. One round of the reconciliation, met by no failure of the
    store, leaves that row with status failed and the balance of the account
    raised by the amounts of its stuck withdrawals, which is the amount of
    the row when it is the only one. In the scenario, a withdrawal of 40.00
    from a balance of 100.00 leaves 60.00 and one processing row of 40.00,
    and the reconciliation makes the row failed and the balance 100.00. *)
Theorem reconciliation_restores_balance :
  (forall now db t u,
      schema_ok db -> In t (transactions db) -> tx_type t = withdrawal ->
      status t = pending \/ status t = processing ->
      created_at t < now - 3600 ->
      users db !! user_id t = Some u ->
      let w' := snd (_task_check_pending_transactions now (quiet_world db)) in
      calm w'
      /\ In (set_status failed now t) (transactions (disk w'))
      /\ balance_of (user_id t) (disk w')
         = Some (balance u + stuck_refunds now (user_id t) (transactions db))
      /\ ((forall r, In r (transactions db) -> is_stuck now r = true ->
                     tx_type r = withdrawal -> user_id r = user_id t -> r = t) ->
          balance_of (user_id t) (disk w') = Some (balance u + amount t)))
  /\ (let w1 := snd (_process_withdraw_wallet 0 1 false 4000 scenario_wallet
                      (Some scenario_withdrawal) (quiet_world scenario_database)) in
      let w2 := snd (_task_check_pending_transactions 7200
                      (quiet_world (disk w1))) in
      balance_of 1 scenario_database = Some 10000
      /\ balance_of 1 (disk w1) = Some 6000
      /\ map row_summary (transactions (disk w1)) = [(processing, withdrawal, 4000)]
      /\ balance_of 1 (disk w2) = Some 10000
      /\ map row_summary (transactions (disk w2)) = [(failed, withdrawal, 4000)]).
Proof.
  split; [|by vm_compute].
  intros now db t u (Hnd & Hamt & Hok) Ht Hty Hst Hold Hu w'.
  assert (Hstuck : is_stuck now t = true).
  { unfold is_stuck. apply andb_true_iff. split; [|by apply Z.ltb_lt].
    apply orb_true_iff. destruct Hst as [Hs | Hs]; [left | right];
      by apply bool_decide_eq_true. }
  set (all := List.filter (is_stuck now) (transactions db)).
  assert (Hrun : calm w'
                 /\ reconcile_progress now (balance u) all t [] w').
  { unfold w', _task_check_pending_transactions.
    destruct (try_except_pass
                (stuck_transactions ←
                   fetch_all (fun db0 =>
                     List.filter (is_stuck now) (transactions db0));
                 for_each_guarded stuck_transactions
                   (reconcile_transaction now)) (quiet_world db) tt) as [a ->].
    rewrite bind_run, fetch_all_calm by done.
    destruct (for_each_guarded_invariant
                (reconcile_progress now (balance u) all t)
                (reconcile_transaction now)
                (reconcile_transaction_step now (balance u) all t)
                all (quiet_world db)) as [_ Hfinal].
    { split; [done|]. split; [done|]. split; [by apply NoDup_ids_filter|].
      split; [|split].
      - apply Forall_forall. intros r Hr.
        apply list_elem_of_In, filter_In in Hr as [Hr _]. split; [done|].
        by apply Hamt.
      - exists u. done.
      - left. apply filter_In. done. }
    split; [|exact Hfinal]. by destruct Hfinal. }
  destruct Hrun as (Hcalm & _ & _ & _ & _ & (u' & Hu' & Hsum) & Hwhere).
  assert (Hbal : balance_of (user_id t) (disk w')
                 = Some (balance u + stuck_refunds now (user_id t) (transactions db))).
  { unfold balance_of. rewrite Hu'. cbn. f_equal.
    change (withdrawn (user_id t) []) with 0 in Hsum.
    unfold stuck_refunds. fold all. lia. }
  split; [done|]. split; [|split; [done|]].
  - destruct Hwhere as [[] | [_ Hin]]. done.
  - intros Honly. rewrite Hbal. do 2 f_equal. unfold stuck_refunds.
    apply withdrawn_single; [by apply NoDup_ids_filter | by apply filter_In | done |].
    intros r Hr. apply filter_In in Hr as [Hr Hrs]. by apply Honly.
Qed.

(** The theorem at work on the store of the scenario after the withdrawal:
    the processing row of 40.00 is stuck two hours later. *)
Lemma reconciliation_restores_balance_witness :
  let db := disk (snd (_process_withdraw_wallet 0 1 false 4000 scenario_wallet
                         (Some scenario_withdrawal)
                         (quiet_world scenario_database))) in
  balance_of 1 (disk (snd (_task_check_pending_transactions 7200 (quiet_world db))))
  = Some (6000 + 4000).
Proof.
  intros db.
  refine (proj2 (proj2 (proj2
    (proj1 reconciliation_restores_balance 7200 db
       {| transaction_id := "wd_0001"; user_id := 1; amount := 4000;
          status := processing; tx_type := withdrawal; created_at := 0;
          completed_at := None; wallet_address := Some scenario_wallet;
          description := "" |}
       {| username := "gamer"; password_hash := "argon2:Right#Passw0rd";
          is_active := true; failed_login_attempts := 0;
          mfa_secret := None; balance := 6000 |}
       _ _ _ _ _ _))) _).
  - split; [|split].
    + vm_compute. repeat constructor. by intros []%elem_of_nil.
    + intros t Ht. vm_compute in Ht. destruct Ht as [<- | []]. done.
    + intros uid v Hv.
      assert (Husers : users db
                       = {[ 1 := {| username := "gamer";
                                    password_hash := "argon2:Right#Passw0rd";
                                    is_active := true; failed_login_attempts := 0;
                                    mfa_secret := None; balance := 6000 |} ]})
        by reflexivity.
      rewrite Husers in Hv. apply lookup_singleton_Some in Hv as [_ <-].
      cbn. lia.
  - vm_compute. by left.
  - reflexivity.
  - by right.
  - done.
  - reflexivity.
  - intros r Hr _ _ _. vm_compute in Hr. by destruct Hr as [<- | []].
Defined.

(** ** What a statement that succeeded has done *)

Lemma update_user_row_Some f uid d d' :
  update_user_row f uid d = Some d' ->
  (users d !! uid = None /\ d' = d)
  \/ (exists u, users d !! uid = Some u
                /\ 0 <= balance (f u) /\ 0 <= failed_login_attempts (f u)
                /\ d' = set_users (<[uid := f u]> (users d)) d).
Proof.
  unfold update_user_row. destruct (users d !! uid) as [u|]; [|intros [= <-]; by left].
  destruct (Z.ltb_spec (balance (f u)) 0); [done|].
  destruct (Z.ltb_spec (failed_login_attempts (f u)) 0); [done|].
  intros [= <-]. right. exists u. done.
Qed.

Lemma sql_insert_transaction_Some t d d' :
  sql_insert_transaction t d = Some d' ->
  has_transaction (transaction_id t) d = false
  /\ 0 < amount t /\ is_Some (users d !! user_id t)
  /\ d' = set_transactions (transactions d ++ [t]) d.
Proof.
  unfold sql_insert_transaction.
  destruct (has_transaction (transaction_id t) d); [done|].
  destruct (Z.leb_spec (amount t) 0); [done|].
  destruct (users d !! user_id t); [|done]. intros [= <-]. eauto.
Qed.

Lemma sql_insert_audit_Some r d d' :
  sql_insert_audit r d = Some d' ->
  users d' = users d /\ transactions d' = transactions d.
Proof.
  unfold sql_insert_audit. destruct (audit_user_id r) as [uid|].
  - destruct (users d !! uid); [|done]. by intros [= <-].
  - by intros [= <-].
Qed.

Lemma sql_insert_session_Some s d d' :
  sql_insert_session s d = Some d' ->
  users d' = users d /\ transactions d' = transactions d.
Proof.
  unfold sql_insert_session. destruct (existsb _ _); [done|].
  destruct (users d !! session_user_id s); [|done]. by intros [= <-].
Qed.

Lemma sql_insert_user_Some uid u d d' :
  sql_insert_user uid u d = Some d' ->
  users d !! uid = None /\ 0 <= balance u /\ 0 <= failed_login_attempts u
  /\ d' = set_users (<[uid := u]> (users d)) d.
Proof.
  unfold sql_insert_user. destruct (users d !! uid); [done|].
  destruct (username_taken _ _); [done|].
  destruct (Z.ltb_spec (balance u) 0); [done|].
  destruct (Z.ltb_spec (failed_login_attempts u) 0); [done|].
  by intros [= <-].
Qed.

(** ** Evaluation of a handler on a world without failures *)

Ltac io_unfold :=
  repeat (progress
    unfold try_except, with_transaction, run_in_transaction,
      external_call, get_user, fetch_one, fetch_all, create_transaction,
      update_transaction_status, log_audit, Database_execute,
      sql_execute, sql_query, sql_begin, sql_commit, sql_rollback,
      connection_commit, next_fault, raise, view, _handle_error,
      hash_password_io, verify_password_io, mbind, IO_bind, mret, IO_ret).

Ltac io_eval :=
  io_unfold;
  cbn -[sql_sub_balance sql_add_balance sql_set_balance sql_insert_transaction
        sql_insert_audit sql_insert_user sql_insert_session sql_update_status
        sql_incr_failed_logins sql_reset_failed_logins sql_deactivate
        hash_password verify_password validate_wallet_address Z.abs Z.ltb Z.leb
        Z.add Z.sub len has_mfa_secret String.append adjustment_row].

(** Names the result of the next statement that the goal runs. *)
Ltac io_statement d H :=
  match goal with
  | |- context [sql_sub_balance ?a ?u ?x] =>
      destruct (sql_sub_balance a u x) as [d|] eqn:H
  | |- context [sql_add_balance ?a ?u ?x] =>
      destruct (sql_add_balance a u x) as [d|] eqn:H
  | |- context [sql_set_balance ?a ?u ?x] =>
      destruct (sql_set_balance a u x) as [d|] eqn:H
  | |- context [sql_insert_transaction ?t ?x] =>
      destruct (sql_insert_transaction t x) as [d|] eqn:H
  | |- context [sql_insert_audit ?t ?x] =>
      destruct (sql_insert_audit t x) as [d|] eqn:H
  | |- context [sql_insert_user ?i ?t ?x] =>
      destruct (sql_insert_user i t x) as [d|] eqn:H
  | |- context [sql_insert_session ?t ?x] =>
      destruct (sql_insert_session t x) as [d|] eqn:H
  | |- context [sql_incr_failed_logins ?u ?x] =>
      destruct (sql_incr_failed_logins u x) as [d|] eqn:H
  | |- context [sql_reset_failed_logins ?u ?x] =>
      destruct (sql_reset_failed_logins u x) as [d|] eqn:H
  | |- context [sql_deactivate ?u ?x] =>
      destruct (sql_deactivate u x) as [d|] eqn:H
  end; io_eval.

Lemma calm_world w :
  calm w ->
  w = {| disk := disk w; txn := None; faults := [];
         security := security w; calls := calls w |}.
Proof. destruct w. intros [Hf Ht]. cbn in *. by subst. Qed.

Lemma find_row_in tid (l : list Transaction) x :
  In x l -> transaction_id x = tid ->
  exists t0, List.find (fun t => String.eqb (transaction_id t) tid) l = Some t0.
Proof.
  intros Hx Hid. destruct (List.find _ l) as [t0|] eqn:Hfind; [eauto|].
  eapply find_none in Hfind; [|exact Hx]. cbn in Hfind.
  rewrite Hid, String.eqb_refl in Hfind. done.
Qed.

(** ** A deposit that is completed and not credited *)

Lemma filter_none {A} (f : A -> bool) l :
  (forall x, In x l -> f x = false) -> List.filter f l = [].
Proof.
  induction l as [|a l IH]; intros Hall; [done|]. cbn.
  rewrite Hall by by left. apply IH. intros x Hx. apply Hall. by right.
Qed.

(** A round of the payment task that finds the one waiting payment [x],
    which the provider reports completed, and whose store fails at the
    fourth access, the update of the balance: the change of the status is
    committed, the balance is not written, and the round ends normally. *)
Lemma payment_round_status_without_credit now check w x :
  txn w = None -> faults w = [false; false; false; true] ->
  List.filter (is_pending_payment now) (transactions (disk w)) = [x] ->
  check (transaction_id x) = completed ->
  _task_payment_processing now check w
  = (inr tt,
     set_faults []
       (set_store
          (set_transactions
             (update_row (transaction_id x) (set_status completed now)
                (transactions (disk w))) (disk w)) None w)).
Proof.
  destruct w as [d t f s c]. cbn [txn faults disk]. intros -> -> Hx Hcheck.
  assert (Hpending : status x = pending).
  { assert (Hin : In x (List.filter (is_pending_payment now) (transactions d)))
      by (rewrite Hx; by left).
    apply filter_In in Hin as [_ Hp]. unfold is_pending_payment in Hp.
    apply andb_true_iff in Hp as [Hp _]. by apply bool_decide_eq_true in Hp. }
  unfold _task_payment_processing. io_eval. rewrite Hx.
  cbn [for_each_guarded]. unfold process_payment. rewrite Hcheck, Hpending.
  io_eval. reflexivity.
Qed.

(** A round that finds no waiting payment leaves the bot as it is. *)
Lemma payment_round_idle now check w :
  calm w ->
  List.filter (is_pending_payment now) (transactions (disk w)) = [] ->
  _task_payment_processing now check w = (inr tt, w).
Proof.
  intros Hw Hnone. unfold _task_payment_processing, try_except.
  by rewrite bind_run, fetch_all_calm, Hnone.
Qed.

(** Once the only waiting payment is completed, no payment waits at any
    later time. *)
Lemma no_payment_waits_after now later x (l : list Transaction) :
  List.filter (is_pending_payment now) l = [x] -> now <= later ->
  List.filter (is_pending_payment later)
    (update_row (transaction_id x) (set_status completed now) l) = [].
Proof.
  intros Hx Hlater. apply filter_none. intros t Ht.
  unfold update_row in Ht. apply in_map_iff in Ht as (t0 & <- & Ht0).
  destruct (String.eqb_spec (transaction_id t0) (transaction_id x)) as [Hid|Hid];
    [done|].
  destruct (is_pending_payment later t0) eqn:Hp; [|done].
  assert (Hin : In t0 (List.filter (is_pending_payment now) l)).
  { apply filter_In. split; [done|]. unfold is_pending_payment in *.
    apply andb_true_iff in Hp as [Hs Hc]. apply andb_true_iff.
    split; [done|]. apply Z.ltb_lt in Hc. apply Z.ltb_lt. lia. }
  rewrite Hx in Hin. destruct Hin as [<- | []]. done.
Qed.

(** C2. The balance does not follow the completed rows. Take a store that
    meets the constraints of the schema, in which one payment [x] of an
    account waits, a deposit that the provider reports completed, and let
    the store fail at the fourth access of the round of the payment task,
    the update of the balance of line 4085. The round ends normally with
    no transaction open: the row of [x] is completed, so that the sum of
    the completed rows of the account has grown by the amount, also when
    the withdrawals in progress are counted as debits, and the balance is
    the one before the round. If the balance was equal to the sum of the
    completed rows, it is now smaller than it. No later round of the task
    finds the payment waiting, so no round credits it. *)
Theorem completed_deposit_without_credit now check w x u :
  txn w = None -> faults w = [false; false; false; true] ->
  schema_ok (disk w) ->
  List.filter (is_pending_payment now) (transactions (disk w)) = [x] ->
  tx_type x = deposit -> check (transaction_id x) = completed ->
  users (disk w) !! user_id x = Some u ->
  let round := _task_payment_processing now check w in
  let rows := transactions (disk w) in
  let rows' := transactions (disk (snd round)) in
  fst round = inr tt /\ calm (snd round)
  /\ In (set_status completed now x) rows'
  /\ sum_for completed_effect (user_id x) rows'
     = sum_for completed_effect (user_id x) rows + amount x
  /\ sum_for ledger_effect (user_id x) rows'
     = sum_for ledger_effect (user_id x) rows + amount x
  /\ 0 < amount x
  /\ users (disk (snd round)) = users (disk w)
  /\ (balance u = sum_for completed_effect (user_id x) rows ->
      balance_of (user_id x) (disk (snd round))
      <> Some (sum_for completed_effect (user_id x) rows'))
  /\ forall later check', now <= later ->
       _task_payment_processing later check' (snd round) = (inr tt, snd round).
Proof.
  intros Htxn Hfaults (Hnd & Hamt & _) Hx Hdep Hcheck Hu round rows rows'.
  assert (Hin : In x rows).
  { assert (Hin : In x (List.filter (is_pending_payment now) rows))
      by (unfold rows; rewrite Hx; by left).
    by apply filter_In in Hin as [Hin _]. }
  assert (Hpending : status x = pending).
  { assert (Hin' : In x (List.filter (is_pending_payment now) rows))
      by (unfold rows; rewrite Hx; by left).
    apply filter_In in Hin' as [_ Hp]. unfold is_pending_payment in Hp.
    apply andb_true_iff in Hp as [Hp _]. by apply bool_decide_eq_true in Hp. }
  assert (Hrun := payment_round_status_without_credit now check w x
                    Htxn Hfaults Hx Hcheck).
  fold round in Hrun.
  assert (Hrows' : rows' = update_row (transaction_id x)
                             (set_status completed now) rows)
    by (unfold rows'; by rewrite Hrun).
  assert (Hsum : forall f, f x = 0 -> f (set_status completed now x) = amount x ->
                 sum_for f (user_id x) rows'
                 = sum_for f (user_id x) rows + amount x).
  { intros f Hf0 Hf1. rewrite Hrows'.
    rewrite (sum_for_update_row f (user_id x) _ rows x Hnd Hin) by done.
    rewrite Z.eqb_refl, Hf0, Hf1. lia. }
  assert (Hcompleted : sum_for completed_effect (user_id x) rows'
                       = sum_for completed_effect (user_id x) rows + amount x).
  { apply Hsum; unfold completed_effect; cbn; by rewrite ?Hpending, ?Hdep. }
  split; [by rewrite Hrun|]. split; [by rewrite Hrun|].
  split.
  { rewrite Hrows'. unfold update_row. apply in_map_iff. exists x.
    by rewrite String.eqb_refl. }
  split; [done|].
  split.
  { apply Hsum; unfold ledger_effect; cbn; by rewrite ?Hpending, ?Hdep. }
  split; [by apply Hamt|].
  split; [by rewrite Hrun|].
  split.
  { intros Heq. unfold balance_of. rewrite Hrun. cbn. rewrite Hu. cbn.
    rewrite Hcompleted. specialize (Hamt x Hin). intros [= Hb]. lia. }
  intros later check' Hlater. apply payment_round_idle; [by rewrite Hrun|].
  fold rows'. rewrite Hrows'. by apply no_payment_waits_after.
Qed.

(** The theorem at work on the store with one pending deposit of 100.00:
    the row is completed and the balance is still 0.00. *)
Lemma completed_deposit_without_credit_witness :
  let round :=
    _task_payment_processing 10 check_payment_status_rebound failing_world in
  balance_of 1 (disk (snd round))
  <> Some (sum_for completed_effect 1 (transactions (disk (snd round)))).
Proof.
  intros round.
  apply (completed_deposit_without_credit 10 check_payment_status_rebound
           failing_world
           {| transaction_id := "pay_0001"; user_id := 1; amount := 10000;
              status := pending; tx_type := deposit; created_at := 0;
              completed_at := None; wallet_address := None;
              description := "deposit via card" |}
           {| username := "gamer"; password_hash := "argon2:Right#Passw0rd";
              is_active := true; failed_login_attempts := 0;
              mfa_secret := None; balance := 0 |});
    try done.
  split; [|split].
  - apply NoDup_cons. split; [by intros []%elem_of_nil | apply NoDup_nil_2].
  - intros t [<- | []]. done.
  - intros uid v Hv. cbn in Hv. apply lookup_singleton_Some in Hv as [_ <-].
    done.
Defined.

(** Without any failure the balance leaves the completed rows as well, for
    as long as a withdrawal is in progress: the deposit of 100.00 is
    credited, the withdrawal of 40.00 is debited when it is requested and
    its row is processing, so that the balance is 60.00 where the completed
    rows add up to 100.00. *)
Example balance_ahead_of_completed_rows :
  balance_of 1 scenario_requested = Some 6000
  /\ sum_for completed_effect 1 (transactions scenario_requested) = 10000
  /\ map row_summary (transactions scenario_requested)
     = [(completed, deposit, 10000); (processing, withdrawal, 4000)].
Proof. by vm_compute. Qed.

(** ** Atomicity *)

Ltac io_fault :=
  match goal with
  | |- context [match ?f with [] => _ | _ :: _ => _ end] =>
      is_var f; destruct f as [|[|] f]; io_eval
  end.

Ltac io_statement_fresh :=
  let d := fresh "d" in let H := fresh "Hstmt" in io_statement d H.

Ltac io_branch :=
  match goal with
  | |- context [match users ?d !! ?uid with Some _ => _ | None => _ end] =>
      let H := fresh "Huser" in
      destruct (users d !! uid) eqn:H; io_eval
  | |- context [if ?a <? ?b then _ else _] =>
      let H := fresh "Hlt" in
      destruct (a <? b) eqn:H; io_eval
  end.

(** Follows every way the failure script and the statements can go. *)
Ltac io_explore finish_tac :=
  first
    [ solve [finish_tac]
    | io_fault; io_explore finish_tac
    | io_statement_fresh; io_explore finish_tac
    | io_branch; io_explore finish_tac ].

(** Whatever fails and wherever, a withdrawal request leaves no
    transaction open, and either leaves the committed tables as they were
    or commits the debit, the new row and the audit record together. *)
Lemma _process_withdraw_wallet_atomic now uid amt wallet created w :
  txn w = None ->
  let w' := snd (_process_withdraw_wallet now uid false amt wallet created w) in
  txn w' = None
  /\ (disk w' = disk w
      \/ exists wd d1 d2 d3,
           created = Some wd
           /\ sql_sub_balance amt uid (disk w) = Some d1
           /\ sql_insert_transaction
                {| transaction_id := withdrawal_transaction_id wd;
                   user_id := uid; amount := amt; status := processing;
                   tx_type := withdrawal; created_at := now;
                   completed_at := None; wallet_address := Some wallet;
                   description := "" |} d1 = Some d2
           /\ sql_insert_audit
                {| audit_user_id := Some uid; action_type := "withdrawal_created";
                   action_details := wallet |} d2 = Some d3
           /\ disk w' = d3).
Proof.
  destruct w as [d0 t f s c]. cbn [txn]. intros ->.
  unfold _process_withdraw_wallet.
  destruct (validate_wallet_address wallet); [|by (io_eval; eauto)].
  destruct created as [wd|]; io_eval.
  - io_explore ltac:(split; [done|]; first [by left | right; eauto 10]).
  - io_explore ltac:(split; [done|]; by left).
Qed.

(** The adjustment of a balance by an administrator opens a transaction as
    well. Its first statement is a call of a method that the cursor does
    not have, so that the transaction is rolled back before any statement
    is run: whatever fails besides, the tables stay as they were, no
    transaction is left open and the caller gets an error. *)
Lemma adjust_user_balance_atomic cfg now token_hex uid amt descr w :
  txn w = None ->
  let r := adjust_user_balance cfg now token_hex uid amt descr w in
  txn (snd r) = None /\ disk (snd r) = disk w
  /\ (fst r = inl (BotError INVALID_AMOUNT)
      \/ fst r = inl (BotError DATABASE_ERROR)).
Proof.
  destruct w as [d0 t f s c]. cbn [txn]. intros ->.
  unfold adjust_user_balance, execute_fetchone.
  destruct (MAX_MANUAL_BALANCE_CHANGE cfg <? Z.abs amt); io_eval; eauto.
Qed.

(** C1. The crediting of a deposit is not one unit. In a store with a
    pending deposit of 100.00 that the provider reports completed, let the
    update of the balance fail after the update of the status has been
    committed: the round ends normally, no transaction is open, the row is
    completed and the balance is still 0.00, so that the balance and the
    rows of the account disagree; a later round without failure does not
    credit it either. *)
Theorem deposit_credit_not_atomic :
  let round1 := _task_payment_processing 10 (fun _ => completed) failing_world in
  let round2 := _task_payment_processing 20 (fun _ => completed) (snd round1) in
  balance_of 1 deposit_database = Some 0
  /\ map row_summary (transactions deposit_database) = [(pending, deposit, 10000)]
  /\ fst round1 = inr tt
  /\ txn (snd round1) = None /\ faults (snd round1) = []
  /\ map row_summary (transactions (disk (snd round1)))
     = [(completed, deposit, 10000)]
  /\ balance_of 1 (disk (snd round1)) = Some 0
  /\ sum_for ledger_effect 1 (transactions (disk (snd round1))) = 10000
  /\ balance_of 1 (disk (snd round2)) = Some 0.
Proof. by vm_compute. Qed.

(** Without the failure the same round credits the deposit. *)
Example deposit_credit_without_failure :
  let round := _task_payment_processing 10 (fun _ => completed)
                 (quiet_world deposit_database) in
  map row_summary (transactions (disk (snd round))) = [(completed, deposit, 10000)]
  /\ balance_of 1 (disk (snd round)) = Some 10000.
Proof. by vm_compute. Qed.
(** ** Input validation *)

Lemma chars_nocase s :
  chars (nocase s)
  = map (fun c => if is_upper c then ascii_of_N (code c + 32) else c) (chars s).
Proof. unfold nocase, chars. apply list_ascii_of_string_of_list_ascii. Qed.

Lemma len_chars s : len s = Z.of_nat (length (chars s)).
Proof.
  unfold len, chars. f_equal.
  induction s as [|c s IH]; [done|]. simpl. by rewrite IH.
Qed.

Lemma nocase_is_word c :
  is_word (if is_upper c then ascii_of_N (code c + 32) else c) = is_word c.
Proof. destruct c as [[] [] [] [] [] [] [] []]; reflexivity. Qed.

Lemma nocase_words s :
  forallb is_word (chars s) = true -> forallb is_word (chars (nocase s)) = true.
Proof.
  rewrite chars_nocase, !forallb_forall. intros Hall c Hc.
  apply in_map_iff in Hc as (c0 & <- & Hc0). rewrite nocase_is_word. auto.
Qed.

Lemma occurs_In p l c : occurs p l = true -> In c p -> In c l.
Proof.
  intros Hocc Hc. apply occurs_spec in Hocc as (before & after & ->).
  apply in_or_app. right. apply in_or_app. by left.
Qed.

Lemma after_prefix_In p l rest c :
  after_prefix p l = Some rest -> In c rest -> In c l.
Proof.
  revert l. induction p as [|a p IH]; intros [|b l]; simpl; try congruence.
  - intros [= <-]. done.
  - intros [= <-]. done.
  - destruct (Ascii.eqb a b); [|done]. intros Hrest Hc. right. eauto.
Qed.

Lemma skip_spaces_In l c : In c (skip_spaces l) -> In c l.
Proof.
  induction l as [|a l IH]; simpl; [done|].
  destruct (is_space a); [|done]. intros Hc. right. auto.
Qed.

Lemma search_assignment_from_In name l :
  search_assignment_from name l = true -> In "="%char l.
Proof.
  induction l as [|a l IH]; cbn [search_assignment_from];
    intros Hs; apply orb_true_iff in Hs as [Hs | Hs]; try done.
  - destruct (after_prefix name []) as [rest|] eqn:Hp; [|done].
    destruct (skip_spaces rest) as [|c t] eqn:Hsk; [done|].
    apply Ascii.eqb_eq in Hs as ->.
    eapply after_prefix_In; [exact Hp|]. apply skip_spaces_In.
    rewrite Hsk. by left.
  - destruct (after_prefix name (a :: l)) as [rest|] eqn:Hp; [|done].
    destruct (skip_spaces rest) as [|c t] eqn:Hsk; [done|].
    apply Ascii.eqb_eq in Hs as ->.
    eapply after_prefix_In; [exact Hp|]. apply skip_spaces_In.
    rewrite Hsk. by left.
  - right. auto.
Qed.

(** A pattern cannot match a text that lacks one of its characters. *)
Lemma search_pattern_needs p s c :
  match p with
  | Literal text => In c (chars text)
  | Assignment _ => c = "="%char
  end ->
  ~ In c (chars (nocase s)) -> search_pattern p s = false.
Proof.
  intros Hc Hnot. apply not_true_iff_false. intros Hs. apply Hnot.
  destruct p as [text | name]; cbn in Hs.
  - by apply (occurs_In (chars text)).
  - subst c. by apply (search_assignment_from_In (chars name)).
Qed.

Lemma words_lack s c :
  forallb is_word (chars s) = true -> is_word c = false ->
  ~ In c (chars (nocase s)).
Proof.
  intros Hall Hc Hin. apply nocase_words in Hall.
  rewrite forallb_forall in Hall. apply Hall in Hin. congruence.
Qed.

(** In a text of letters, digits and underscores the only dangerous pattern
    that can occur is [xp_]. *)
Lemma words_dangerous_patterns s :
  forallb is_word (chars s) = true ->
  existsb (fun danger => search_pattern danger s) dangerous_patterns
  = search_ignorecase "xp_" s.
Proof.
  intros Hall. unfold dangerous_patterns. cbn [existsb].
  rewrite (search_pattern_needs (Literal ";") s ";");
    [| by left | by apply words_lack].
  rewrite (search_pattern_needs (Literal "--") s "-");
    [| by left | by apply words_lack].
  rewrite (search_pattern_needs (Literal "/*") s "/");
    [| by left | by apply words_lack].
  rewrite (search_pattern_needs (Literal "*/") s "/");
    [| by right; left | by apply words_lack].
  rewrite (search_pattern_needs (Literal "<script>") s "<");
    [| by left | by apply words_lack].
  rewrite (search_pattern_needs (Literal "</script>") s "<");
    [| by left | by apply words_lack].
  rewrite (search_pattern_needs (Literal "javascript:") s ":");
    [| cbn; tauto | by apply words_lack].
  rewrite (search_pattern_needs (Assignment "onload") s "=");
    [| done | by apply words_lack].
  rewrite (search_pattern_needs (Assignment "onerror") s "=");
    [| done | by apply words_lack].
  rewrite (search_pattern_needs (Literal "expression(") s "(");
    [| cbn; tauto | by apply words_lack].
  cbn [search_pattern orb]. by rewrite !orb_false_r.
Qed.

Lemma words_lack_char s c :
  forallb is_word (chars s) = true -> is_word c = false ->
  existsb (Ascii.eqb c) (chars s) = false.
Proof.
  intros Hall Hc. apply not_true_iff_false. intros Hex.
  apply existsb_exists in Hex as (c' & Hin & Heq).
  apply Ascii.eqb_eq in Heq as <-.
  rewrite forallb_forall in Hall. apply Hall in Hin. congruence.
Qed.

Lemma is_alnum_word c : is_alnum c = true -> is_word c = true.
Proof. unfold is_alnum, is_word, is_letter. intros ->. done. Qed.

Lemma steam_login_pattern_words login :
  steam_login_pattern login = true ->
  forallb is_word (chars login) = true /\ 3 <= len login <= 32.
Proof.
  unfold steam_login_pattern. rewrite len_chars.
  destruct (chars login) as [|c rest]; [done|].
  rewrite !andb_true_iff. intros [[[Hc Hrest] Hlo] Hhi].
  apply Z.leb_le in Hlo, Hhi. split.
  - cbn. rewrite Hrest, andb_true_r. unfold is_word. by rewrite Hc.
  - cbn [length]. lia.
Qed.

Lemma validate_steam_login_eq login :
  validate_steam_login login
  = steam_login_pattern login && negb (search_ignorecase "xp_" login).
Proof.
  unfold validate_steam_login, validate_input.
  destruct (steam_login_pattern login) eqn:Hp.
  - apply steam_login_pattern_words in Hp as [Hall [Hlo Hhi]].
    assert ((len login <? 3) = false) as -> by by apply Z.ltb_ge.
    assert ((32 <? len login) = false) as -> by by apply Z.ltb_ge.
    cbn [orb negb andb existsb].
    rewrite words_dangerous_patterns by done.
    rewrite !(words_lack_char login) by done.
    cbn. by rewrite andb_true_r.
  - destruct (_ || _); done.
Qed.

(** X1. A Steam login is accepted exactly when it is a letter followed by 2 to
    31 letters, digits or underscores and does not contain [xp_] in any
    letter case: of the dangerous patterns and refused characters this is
    the only one such a text can hold. *)
Theorem validate_steam_login_accepts login :
  validate_steam_login login = true <->
  (exists c rest,
      chars login = c :: rest /\ is_letter c = true
      /\ Forall (fun x => is_word x = true) rest
      /\ (2 <= length rest <= 31)%nat)
  /\ ~ (exists before after,
          chars (nocase login) = before ++ chars "xp_" ++ after).
Proof.
  rewrite validate_steam_login_eq, andb_true_iff, negb_true_iff.
  unfold search_ignorecase. rewrite <- not_true_iff_false, occurs_spec.
  apply and_iff_compat_r. unfold steam_login_pattern.
  destruct (chars login) as [|c rest].
  - split; [done | intros (? & ? & ? & _); done].
  - rewrite !andb_true_iff, forallb_forall, Z.leb_le, Z.leb_le.
    split.
    + intros [[[Hc Hrest] Hlo] Hhi]. exists c, rest.
      repeat split; [done | | lia | lia].
      apply Forall_forall. intros x Hx. apply Hrest. by apply list_elem_of_In.
    + intros (c' & rest' & [= <- <-] & Hc & Hrest & Hlo & Hhi).
      rewrite Forall_forall in Hrest.
      repeat split; [done | | lia | lia].
      intros x Hx. apply Hrest. by apply list_elem_of_In.
Qed.

(** A login of the accepted form that holds [xp_] is refused. *)
Example validate_steam_login_xp :
  validate_steam_login "Exp_hunter" = false
  /\ validate_steam_login "Ex_phunter" = true.
Proof. by vm_compute. Qed.

(** X2. A wallet address passes [validate_input] exactly when it has 20 to 50
    characters, all of them letters [A-Za-z] or digits: none of the
    dangerous patterns can occur in such a text, so that the test of the
    ledger model, [validate_wallet_address], is the one of the source. *)
Theorem validate_wallet_address_input_alnum wallet :
  validate_wallet_address_input wallet = validate_wallet_address wallet
  /\ (validate_wallet_address_input wallet = true <->
      20 <= len wallet <= 50
      /\ Forall (fun c => is_alnum c = true) (chars wallet)).
Proof.
  assert (Heq : validate_wallet_address_input wallet
                = validate_wallet_address wallet).
  { unfold validate_wallet_address_input, validate_input, wallet_pattern,
      validate_wallet_address, MIN_WALLET_ADDRESS_LENGTH,
      MAX_WALLET_ADDRESS_LENGTH.
    destruct (Z.ltb_spec (len wallet) 20) as [Hlo | Hlo].
    { cbn. assert ((20 <=? len wallet) = false) as -> by by apply Z.leb_gt.
      done. }
    destruct (Z.ltb_spec 50 (len wallet)) as [Hhi | Hhi].
    { cbn. assert ((len wallet <=? 50) = false) as -> by by apply Z.leb_gt.
      by rewrite andb_false_r. }
    assert ((20 <=? len wallet) = true) as -> by by apply Z.leb_le.
    assert ((len wallet <=? 50) = true) as -> by by apply Z.leb_le.
    cbn [orb andb]. rewrite !andb_true_r.
    destruct (forallb is_alnum (chars wallet)) eqn:Hall; [|done].
    cbn [negb].
    assert (Hwords : forallb is_word (chars wallet) = true).
    { rewrite forallb_forall in *. intros c Hc. by apply is_alnum_word, Hall. }
    rewrite words_dangerous_patterns by done.
    unfold search_ignorecase.
    apply negb_true_iff, not_true_iff_false. intros Hocc.
    apply (occurs_In _ _ "_"%char) in Hocc; [|cbn; tauto].
    rewrite chars_nocase in Hocc. apply in_map_iff in Hocc as (c & Hc & Hin).
    rewrite forallb_forall in Hall. apply Hall in Hin.
    destruct c as [[] [] [] [] [] [] [] []]; try discriminate Hc;
      discriminate Hin. }
  split; [done|]. rewrite Heq. unfold validate_wallet_address.
  rewrite !andb_true_iff, !Z.leb_le, forallb_forall, Forall_forall.
  split.
  - intros [[Hlo Hhi] Hall]. split; [lia|].
    intros c Hc. by apply Hall, list_elem_of_In.
  - intros [[Hlo Hhi] Hall]. repeat split; [lia | lia |].
    intros c Hc. by apply Hall, list_elem_of_In.
Qed.

(** ** sanitize_input *)

Lemma sublist_tag_elem (l : list ascii) :
  sublist ["<"; ">"]%char l -> In ">"%char l.
Proof.
  intros Hsub. apply list_elem_of_In.
  eapply (sublist_submseteq), elem_of_submseteq in Hsub; [exact Hsub|].
  apply list_elem_of_In. cbn. tauto.
Qed.

Lemma remove_tags_sublist l held :
  sublist (remove_tags l held)
    (match held with Some h => rev h ++ l | None => l end).
Proof.
  revert held. induction l as [|c l IH]; intros [h|]; cbn [remove_tags].
  - by rewrite app_nil_r.
  - done.
  - destruct (Ascii.eqb c ">").
    + etrans; [apply (IH None)|]. apply sublist_inserts_l.
      by apply sublist_cons.
    + specialize (IH (Some (c :: h))). cbn [rev] in IH.
      by rewrite <- app_assoc in IH.
  - destruct (Ascii.eqb c "<") eqn:Hc.
    + apply (IH (Some [c])).
    + apply sublist_skip, (IH None).
Qed.

Lemma remove_tags_no_tag l held :
  match held with Some h => ~ In ">"%char h | None => True end ->
  ~ sublist ["<"; ">"]%char (remove_tags l held).
Proof.
  revert held. induction l as [|c l IH]; intros [h|] Hh; cbn [remove_tags].
  - intros Hsub. apply sublist_tag_elem, in_rev in Hsub. done.
  - intros Hsub. apply sublist_tag_elem in Hsub. done.
  - destruct (Ascii.eqb_spec c ">") as [-> | Hc].
    + by apply (IH None).
    + apply (IH (Some (c :: h))). intros [-> | Hin]; done.
  - destruct (Ascii.eqb_spec c "<") as [-> | Hc].
    + apply (IH (Some ["<"%char])). intros [[=] | []].
    + intros Hsub. apply sublist_cons_r in Hsub as [Hsub | (l' & [= <- _] & _)].
      * by apply (IH None).
      * done.
Qed.

Lemma remove_tags_held_plain l h :
  ~ In ">"%char l -> remove_tags l (Some h) = rev h ++ l.
Proof.
  revert h. induction l as [|c l IH]; intros h Hl; cbn [remove_tags].
  - by rewrite app_nil_r.
  - destruct (Ascii.eqb_spec c ">") as [-> | Hc]; [destruct Hl; by left|].
    rewrite IH by (intros Hin; apply Hl; by right).
    cbn [rev]. by rewrite <- app_assoc.
Qed.

Lemma remove_tags_plain l :
  ~ sublist ["<"; ">"]%char l -> remove_tags l None = l.
Proof.
  induction l as [|c l IH]; intros Hl; cbn [remove_tags]; [done|].
  destruct (Ascii.eqb_spec c "<") as [-> | Hc].
  - rewrite remove_tags_held_plain; [done|].
    intros Hin. apply Hl. apply sublist_skip.
    apply list_elem_of_In, list_elem_of_split in Hin as (l1 & l2 & ->).
    apply sublist_inserts_l. apply sublist_skip, sublist_nil_l.
  - rewrite IH; [done|]. intros Hsub. apply Hl. by apply sublist_cons.
Qed.

Lemma filter_sublist_of (f : ascii -> bool) l : sublist (List.filter f l) l.
Proof.
  induction l as [|c l IH]; cbn; [done|].
  destruct (f c); [by apply sublist_skip | by apply sublist_cons].
Qed.

Lemma filter_all (f : ascii -> bool) l :
  (forall c, In c l -> f c = true) -> List.filter f l = l.
Proof.
  induction l as [|c l IH]; cbn; intros Hall; [done|].
  rewrite Hall by by left. rewrite IH; [done|]. intros; apply Hall. by right.
Qed.

(** What [sanitize_input] returns, before it is cut. *)
Lemma chars_sanitize_input s :
  chars (sanitize_input s)
  = take 1000 (List.filter (fun c => negb (is_quoting c))
                 (remove_tags (chars s) None)).
Proof.
  unfold sanitize_input. destruct s as [|c s]; [done|].
  cbn [is_empty]. unfold chars at 1. apply list_ascii_of_string_of_list_ascii.
Qed.

Lemma sanitize_input_facts s :
  (length (chars (sanitize_input s)) <= 1000)%nat
  /\ sublist (chars (sanitize_input s)) (chars s)
  /\ (forall c, In c (chars (sanitize_input s)) -> is_quoting c = false)
  /\ ~ sublist ["<"; ">"]%char (chars (sanitize_input s)).
Proof.
  rewrite chars_sanitize_input.
  set (kept := List.filter _ (remove_tags (chars s) None)).
  assert (Hkept : sublist (take 1000 kept) kept) by apply sublist_take.
  assert (Htags : sublist kept (remove_tags (chars s) None))
    by apply filter_sublist_of.
  split; [rewrite length_take; lia|].
  split; [|split].
  - etrans; [exact Hkept|]. etrans; [exact Htags|].
    apply (remove_tags_sublist _ None).
  - intros c Hc. apply list_elem_of_In in Hc.
    eapply sublist_submseteq, elem_of_submseteq in Hkept; [|exact Hc].
    apply list_elem_of_In, filter_In in Hkept as [_ Hq].
    by apply negb_true_iff.
  - intros Hsub. apply (remove_tags_no_tag (chars s) None); [done|].
    etrans; [exact Hsub|]. by etrans.
Qed.

(** X3. [sanitize_input] only takes characters away, keeps at most 1000 of
    them, and what it returns holds no semicolon, backslash, quote or
    backquote and no opening angle bracket with a closing one after it. *)
Theorem sanitize_input_clean s :
  (length (chars (sanitize_input s)) <= 1000)%nat
  /\ sublist (chars (sanitize_input s)) (chars s)
  /\ (forall c, In c (chars (sanitize_input s)) ->
                ~ In c [";"; "\"; "'"; double_quote; "`"]%char)
  /\ (forall before inner after,
        chars (sanitize_input s) <> before ++ "<"%char :: inner ++ ">"%char :: after).
Proof.
  destruct (sanitize_input_facts s) as (Hlen & Hsub & Hquote & Htag).
  split; [done|]. split; [done|]. split.
  - intros c Hc Hin. apply Hquote in Hc. unfold is_quoting in Hc.
    apply not_true_iff_false in Hc. apply Hc, existsb_exists.
    exists c. split; [done | apply Ascii.eqb_refl].
  - intros before inner after Heq. apply Htag. rewrite Heq.
    apply sublist_inserts_l, sublist_skip, sublist_inserts_l.
    apply sublist_skip, sublist_nil_l.
Qed.

(** X4. Sanitising a second time changes nothing. *)
Theorem sanitize_input_idempotent s :
  sanitize_input (sanitize_input s) = sanitize_input s.
Proof.
  destruct (sanitize_input_facts s) as (Hlen & _ & Hquote & Htag).
  set (out := sanitize_input s) in *.
  assert (Hchars : chars (sanitize_input out) = chars out).
  { rewrite chars_sanitize_input, remove_tags_plain by done.
    rewrite filter_all by (intros c Hc; by rewrite Hquote).
    by apply take_ge. }
  unfold chars in Hchars.
  rewrite <- (string_of_list_ascii_of_string (sanitize_input out)), Hchars.
  apply string_of_list_ascii_of_string.
Qed.

(** ** verify_mfa_code *)

Lemma six_digits_spec code :
  six_digits code = true <->
  exists digits,
    length digits = 6%nat /\ Forall (fun c => is_digit c = true) digits
    /\ (chars code = digits \/ chars code = digits ++ [newline]).
Proof.
  unfold six_digits. rewrite !andb_true_iff, Nat.eqb_eq, forallb_forall. split.
  - intros [[Hlen Hall] Htail]. exists (take 6 (chars code)).
    split; [done|]. split.
    { apply Forall_forall. intros c Hc. by apply Hall, list_elem_of_In. }
    pose proof (take_drop 6 (chars code)) as Hsplit.
    destruct (drop 6 (chars code)) as [|c [|c' t]]; [| |done].
    + left. by rewrite app_nil_r in Hsplit.
    + right. apply Ascii.eqb_eq in Htail as ->. done.
  - intros (digits & Hlen & Hall & [-> | ->]).
    + rewrite take_ge, drop_ge by lia. rewrite Forall_forall in Hall.
      repeat split; try done.
      intros c Hc. by apply Hall, list_elem_of_In.
    + rewrite take_app_length', drop_app_length' by done.
      rewrite Forall_forall in Hall.
      repeat split; try done; try apply Ascii.eqb_refl.
      intros c Hc. by apply Hall, list_elem_of_In.
Qed.

(** X5. [verify_mfa_code] answers yes exactly when the secret is not empty, the
    code is six digits (a line feed may end it) and the TOTP library accepts
    it; an exception of the library counts as no. The library is asked
    about nothing else: for an empty secret or a code of another form no
    call is made. *)
Theorem verify_mfa_code_six_digits `{Totp} secret code window :
  (fst (verify_mfa_code secret code window) = true <->
   exists sec digits,
     secret = Some sec /\ sec <> EmptyString
     /\ length digits = 6%nat /\ Forall (fun c => is_digit c = true) digits
     /\ (chars code = digits \/ chars code = digits ++ [newline])
     /\ totp_verify sec code window = Some true)
  /\ (snd (verify_mfa_code secret code window) <> [] ->
      exists sec digits,
        secret = Some sec /\ sec <> EmptyString
        /\ length digits = 6%nat /\ Forall (fun c => is_digit c = true) digits
        /\ (chars code = digits \/ chars code = digits ++ [newline])
        /\ snd (verify_mfa_code secret code window)
           = [TotpVerify sec code window]).
Proof.
  unfold verify_mfa_code. destruct secret as [sec|]; cbn [fst snd].
  2: { split; [|done]. split; [done | intros (? & ? & [=] & _)]. }
  destruct sec as [|c sec]; cbn [is_empty orb fst snd].
  { split; [|done]. split; [done | intros (? & ? & [= <-] & ? & _); done]. }
  destruct code as [|d code]; cbn [is_empty orb fst snd].
  { split; [|done]. split; [done|].
    intros (? & digits & _ & _ & Hlen & _ & [Hc | Hc] & _).
    - cbn in Hc. subst digits. done.
    - cbn in Hc. by destruct digits. }
  destruct (six_digits (String d code)) eqn:Hsix; cbn [negb fst snd].
  - apply six_digits_spec in Hsix as (digits & Hlen & Hall & Hform).
    split.
    + split.
      * destruct (totp_verify _ _ _) as [[|]|] eqn:Hv; try done.
        intros _. exists (String c sec), digits. done.
      * intros (sec' & ? & [= <-] & _ & _ & _ & _ & ->). done.
    + intros _. exists (String c sec), digits. done.
  - split; [|done]. split; [done|].
    intros (? & digits & _ & _ & Hlen & Hall & Hform & _).
    apply not_true_iff_false in Hsix. destruct Hsix.
    apply six_digits_spec. eauto.
Qed.

(** ** Rate limiter: keys, spent quota, cleaning of lockouts *)

Lemma chars_append s1 s2 : chars (s1 +:+ s2) = chars s1 ++ chars s2.
Proof.
  unfold chars. induction s1 as [|c s1 IH]; [done|].
  simpl. f_equal. exact IH.
Qed.

Lemma chars_inj s1 s2 : chars s1 = chars s2 -> s1 = s2.
Proof.
  unfold chars. intros Heq.
  rewrite <- (string_of_list_ascii_of_string s1), Heq.
  apply string_of_list_ascii_of_string.
Qed.

Lemma split_at_first (c : ascii) l1 l2 r1 r2 :
  ~ In c l1 -> ~ In c l2 -> l1 ++ c :: r1 = l2 ++ c :: r2 ->
  l1 = l2 /\ r1 = r2.
Proof.
  revert l2. induction l1 as [|a l1 IH]; intros [|b l2] H1 H2 Heq; cbn in *.
  - by injection Heq as ->.
  - injection Heq as -> _. destruct H2. by left.
  - injection Heq as -> _. destruct H1. by left.
  - injection Heq as -> Heq. destruct (IH l2) as [-> ->]; [tauto | tauto | done |].
    done.
Qed.

(** The answer of [check_rate_limit] depends on the two entries of its key
    only. *)
Lemma check_rate_limit_answer now identifier action max_attempts period s1 s2 :
  lockout_tracker s1 !! rate_key identifier action
  = lockout_tracker s2 !! rate_key identifier action ->
  rate_limits s1 !! rate_key identifier action
  = rate_limits s2 !! rate_key identifier action ->
  fst (check_rate_limit now identifier action max_attempts period s1)
  = fst (check_rate_limit now identifier action max_attempts period s2).
Proof.
  intros Hlock Hrate. unfold check_rate_limit. rewrite Hlock.
  destruct (lockout_tracker s2 !! rate_key identifier action) as [t|].
  - destruct (now - t <? period); [done|].
    cbn [rate_limits set_lockout_tracker]. rewrite Hrate.
    destruct (rate_limits s2 !! rate_key identifier action) as [e|]; [|done].
    destruct (period <? now - timestamp e); [done|].
    cbn [count]. by destruct (max_attempts <? count e + 1).
  - rewrite Hrate.
    destruct (rate_limits s2 !! rate_key identifier action) as [e|]; [|done].
    destruct (period <? now - timestamp e); [done|].
    cbn [count]. by destruct (max_attempts <? count e + 1).
Qed.

(** A call changes the entries of its own key only. *)
Lemma check_rate_limit_frame now identifier action max_attempts period s key :
  key <> rate_key identifier action ->
  let s' := snd (check_rate_limit now identifier action max_attempts period s) in
  lockout_tracker s' !! key = lockout_tracker s !! key
  /\ rate_limits s' !! key = rate_limits s !! key.
Proof.
  intros Hkey. unfold check_rate_limit.
  repeat (match goal with
          | |- context [match ?x with Some _ => _ | None => _ end] =>
              destruct x
          | |- context [if ?b then _ else _] => destruct b
          end; cbn -[rate_key]);
    rewrite ?lookup_insert_ne, ?lookup_delete_ne by done; done.
Qed.

(** X6. Calls for one key never change what a call for another key answers;
    and two identifiers without underscore, such as the decimal user ids
    the handlers pass, share a key only when they and their actions are
    the same. *)
Theorem check_rate_limit_other_key now identifier action max_attempts period s
    identifier' action' :
  (rate_key identifier action <> rate_key identifier' action' ->
   forall now' max_attempts' period',
     fst (check_rate_limit now' identifier' action' max_attempts' period'
            (snd (check_rate_limit now identifier action max_attempts period s)))
     = fst (check_rate_limit now' identifier' action' max_attempts' period' s))
  /\ (~ In "_"%char (chars identifier) -> ~ In "_"%char (chars identifier') ->
      rate_key identifier action = rate_key identifier' action' ->
      identifier = identifier' /\ action = action').
Proof.
  split.
  - intros Hkey now' max_attempts' period'.
    destruct (check_rate_limit_frame now identifier action max_attempts period
                s (rate_key identifier' action')) as [Hlock Hrate]; [done|].
    by apply check_rate_limit_answer.
  - intros Hid Hid' Heq. unfold rate_key in Heq.
    apply (f_equal chars) in Heq. rewrite !chars_append in Heq.
    change (chars "_") with ["_"%char] in Heq. cbn [app] in Heq.
    apply split_at_first in Heq as [H1 H2]; [|done..].
    split; by apply chars_inj.
Qed.

(** The theorem at work: what user 7 does leaves the answer for user 8 as
    it was. *)
Lemma check_rate_limit_other_key_witness :
  fst (check_rate_limit 5 "8" "payment" 10 3600
         (snd (check_rate_limit 1 "7" "payment" 10 3600 Security_init)))
  = fst (check_rate_limit 5 "8" "payment" 10 3600 Security_init).
Proof.
  apply (proj1 (check_rate_limit_other_key 1 "7" "payment" 10 3600
                  Security_init "8" "payment")).
  vm_compute. discriminate.
Defined.

(** Identifiers with an underscore can share a counter. *)
Example rate_key_shared : rate_key "a_b" "c" = rate_key "a" "b_c".
Proof. reflexivity. Qed.

(** X7. Once the quota of a window is spent, every call made before the window
    is over is refused, whether a lockout is recorded for the key or not. *)
Theorem check_rate_limit_spent_quota now identifier action max_attempts period
    s entry :
  rate_limits s !! rate_key identifier action = Some entry ->
  max_attempts <= count entry ->
  now - timestamp entry <= period ->
  fst (check_rate_limit now identifier action max_attempts period s) = false.
Proof.
  intros Hrate Hcount Hwin. unfold check_rate_limit.
  destruct (lockout_tracker s !! rate_key identifier action) as [t|].
  - destruct (now - t <? period); [done|].
    cbn [rate_limits set_lockout_tracker]. rewrite Hrate.
    destruct (Z.ltb_spec period (now - timestamp entry)); [lia|].
    cbn [count]. destruct (Z.ltb_spec max_attempts (count entry + 1)); [done|lia].
  - rewrite Hrate.
    destruct (Z.ltb_spec period (now - timestamp entry)); [lia|].
    cbn [count]. destruct (Z.ltb_spec max_attempts (count entry + 1)); [done|lia].
Qed.

(** The theorem at work: the fourth call of a quota of three, with no
    lockout recorded. *)
Lemma check_rate_limit_spent_quota_witness :
  fst (check_rate_limit 9 "7" "withdraw" 3 60
         (set_rate_limits
            {[ rate_key "7" "withdraw" := {| count := 3; timestamp := 1 |} ]}
            Security_init))
  = false.
Proof.
  apply (check_rate_limit_spent_quota 9 "7" "withdraw" 3 60 _
           {| count := 3; timestamp := 1 |}).
  - reflexivity.
  - cbn. lia.
  - cbn. lia.
Defined.

Lemma lookup_fold_delete (keys : list string) (m : gmap string Z) key :
  fold_right (fun k tracker => delete k tracker) m keys !! key
  = if decide (key ∈ keys) then None else m !! key.
Proof.
  induction keys as [|k keys IH]; cbn [fold_right].
  - rewrite decide_False; [done | apply not_elem_of_nil].
  - destruct (decide (k = key)) as [-> | Hne].
    + rewrite lookup_delete_eq. rewrite decide_True; [done | left].
    + rewrite lookup_delete_ne by done. rewrite IH.
      destruct (decide (key ∈ keys)) as [Hin | Hnot].
      * rewrite decide_True; [done | by right].
      * rewrite decide_False; [done|].
        intros Hin. apply elem_of_cons in Hin as [? | ?]; done.
Qed.

Lemma _cleanup_expired_lockouts_lookup cfg now s key :
  lockout_tracker (_cleanup_expired_lockouts cfg now s) !! key
  = match lockout_tracker s !! key with
    | Some t => if LOCKOUT_TIME cfg <? now - t then None else Some t
    | None => None
    end.
Proof.
  unfold _cleanup_expired_lockouts. cbn [lockout_tracker set_lockout_tracker].
  rewrite lookup_fold_delete.
  set (expired := fun entry : string * Z => LOCKOUT_TIME cfg <? now - snd entry).
  destruct (decide (key ∈ _)) as [Hin | Hnot].
  - apply list_elem_of_In, in_map_iff in Hin as ([k t] & Hk & Hin).
    cbn in Hk. subst k.
    apply filter_In in Hin as [Hin Hexp].
    apply list_elem_of_In, elem_of_map_to_list in Hin. rewrite Hin.
    unfold expired in Hexp. cbn in Hexp. by rewrite Hexp.
  - destruct (lockout_tracker s !! key) as [t|] eqn:Hkey; [|done].
    destruct (LOCKOUT_TIME cfg <? now - t) eqn:Hexp; [|done].
    destruct Hnot. apply list_elem_of_In, in_map_iff.
    exists (key, t). split; [done|].
    apply filter_In. split; [|done].
    by apply list_elem_of_In, elem_of_map_to_list.
Qed.

(** X8. [_cleanup_expired_lockouts] drops the lockouts older than
    [LOCKOUT_TIME], keeps the others with their times, and touches neither
    the counters nor the log. A later call of [check_rate_limit] whose
    period is at most [LOCKOUT_TIME] answers as it would have without the
    cleaning. *)
Theorem _cleanup_expired_lockouts_keeps cfg now s :
  (forall key,
      lockout_tracker (_cleanup_expired_lockouts cfg now s) !! key
      = match lockout_tracker s !! key with
        | Some t => if LOCKOUT_TIME cfg <? now - t then None else Some t
        | None => None
        end)
  /\ rate_limits (_cleanup_expired_lockouts cfg now s) = rate_limits s
  /\ security_events (_cleanup_expired_lockouts cfg now s) = security_events s
  /\ (forall later identifier action max_attempts period,
        now <= later -> period <= LOCKOUT_TIME cfg ->
        fst (check_rate_limit later identifier action max_attempts period
               (_cleanup_expired_lockouts cfg now s))
        = fst (check_rate_limit later identifier action max_attempts period s)).
Proof.
  split; [apply _cleanup_expired_lockouts_lookup|].
  split; [done|]. split; [done|].
  intros later identifier action max_attempts period Hlater Hperiod.
  pose proof (_cleanup_expired_lockouts_lookup cfg now s
                (rate_key identifier action)) as Hlook.
  destruct (lockout_tracker s !! rate_key identifier action) as [t|] eqn:Hlock.
  - destruct (Z.ltb_spec (LOCKOUT_TIME cfg) (now - t)) as [Hexp | Hexp].
    + unfold check_rate_limit. rewrite Hlook, Hlock.
      destruct (Z.ltb_spec (later - t) period); [lia|].
      cbn [rate_limits set_lockout_tracker _cleanup_expired_lockouts].
      destruct (rate_limits s !! rate_key identifier action) as [e|]; [|done].
      destruct (period <? later - timestamp e); [done|].
      cbn [count]. by destruct (max_attempts <? count e + 1).
    + apply check_rate_limit_answer; [by rewrite Hlook, Hlock | done].
  - apply check_rate_limit_answer; [by rewrite Hlook, Hlock | done].
Qed.

(** With the default settings the period of the payment quota is longer
    than [LOCKOUT_TIME]: a cleaning can then end a lockout early. The user
    was locked at 3000 for a window that began at 0; the lockout is cleaned
    at 3400, and the call at 3700 passes. *)
Example _cleanup_expired_lockouts_early :
  let s := set_lockout_tracker {[ rate_key "7" "payment" := 3000 ]}
             (set_rate_limits
                {[ rate_key "7" "payment" := {| count := 11; timestamp := 0 |} ]}
                Security_init) in
  fst (check_rate_limit 3700 "7" "payment" 10 3600 s) = false
  /\ fst (check_rate_limit 3700 "7" "payment" 10 3600
            (_cleanup_expired_lockouts default_config 3400 s)) = true.
Proof. by vm_compute. Qed.

(** ** Password strength of the passwords the policy accepts *)

Lemma is_special_non_alnum c : is_special c = true -> is_non_alnum c = true.
Proof. destruct c as [[] [] [] [] [] [] [] []]; by vm_compute. Qed.

Lemma entropy_94 (n : Z) :
  12 <= n ->
  entropy_lt (EntropyBits n 94) 30 = false
  /\ entropy_lt (EntropyBits n 94) 50 = false
  /\ entropy_lt (EntropyBits n 94) 70 = false
  /\ entropy_lt (EntropyBits n 94) 100 = (n <? 16).
Proof.
  intros Hn. unfold entropy_lt.
  assert (H12 : 94 ^ 12 <= 94 ^ n) by (apply Z.pow_le_mono_r; lia).
  assert (H70 : 2 ^ 70 <= 94 ^ 12) by by vm_compute.
  assert (H50 : 2 ^ 50 <= 2 ^ 70) by by vm_compute.
  assert (H30 : 2 ^ 30 <= 2 ^ 50) by by vm_compute.
  repeat split; try (apply Z.ltb_ge; lia).
  destruct (Z.ltb_spec n 16) as [Hlt | Hge].
  - apply Z.ltb_lt.
    assert (94 ^ n <= 94 ^ 15) by (apply Z.pow_le_mono_r; lia).
    assert (94 ^ 15 < 2 ^ 100) by by vm_compute.
    lia.
  - apply Z.ltb_ge.
    assert (94 ^ 16 <= 94 ^ n) by (apply Z.pow_le_mono_r; lia).
    assert (2 ^ 100 <= 94 ^ 16) by by vm_compute.
    lia.
Qed.

(** X9. A password that the policy of the bot accepts gets an empty list of
    issues from [check_password_strength] and the rating 4 when it has fewer
    than 16 characters, 5 otherwise. *)
Theorem accepted_password_strength (n : Z) common password :
  _validate_password_policy (make_password_policy n) common password = inr tt ->
  check_password_strength (make_password_policy n) common password
  = inr {| sr_length := len password;
           sr_strength := if len password <? 16 then 4 else 5;
           sr_entropy := EntropyBits (len password) 94;
           sr_issues := [] |}.
Proof.
  unfold _validate_password_policy, check_password_strength.
  cbn [make_password_policy min_length max_length require_upper require_lower
       require_digit require_special block_common block_repeats
       block_sequences andb].
  destruct (Z.ltb_spec (len password) (Z.max 12 n)) as [|Hmin]; [done|].
  destruct (128 <? len password); [done|].
  destruct (search_class is_upper password); [|done].
  destruct (search_class is_lower password); [|done].
  destruct (search_class is_digit password); [|done].
  destruct (search_class is_special password) eqn:Hspecial; [|done].
  destruct (is_common common password); [done|].
  destruct (has_repeat (chars password)); [done|].
  destruct (has_sequence password) eqn:Hseq; [done|].
  intros _. cbn [negb].
  assert (search_class is_non_alnum password = true) as ->.
  { apply search_class_spec in Hspecial as (c & Hc & Hs).
    apply search_class_spec. exists c. split; [done|].
    by apply is_special_non_alnum. }
  unfold has_sequence in Hseq. apply orb_false_iff in Hseq as [-> ->].
  cbn [negb andb issue_if app Z.add].
  change (0 <? 26 + 26 + 10 + 32) with true. cbn iota.
  unfold math_log2. change (0 <? 26 + 26 + 10 + 32) with true. cbn iota.
  change (26 + 26 + 10 + 32) with 94.
  destruct (entropy_94 (len password)) as (-> & -> & -> & ->); [lia|].
  done.
Qed.

(** The theorem at work on a password of fourteen characters. *)
Lemma accepted_password_strength_witness :
  sr_strength
  <$> (match check_password_strength (make_password_policy 12)
               default_common_passwords "Right#Passw0rd" with
       | inr report => Some report
       | inl _ => None
       end)
  = Some 4.
Proof.
  rewrite (accepted_password_strength 12 default_common_passwords
             "Right#Passw0rd"); [reflexivity|].
  vm_compute. reflexivity.
Defined.

(** The converse fails: an underscore counts as a special character for the
    rating and not for the policy. *)
Example strength_without_issues_rejected :
  (sr_issues <$> (match check_password_strength (make_password_policy 12)
                          default_common_passwords "Right_Passw0rd" with
                  | inr report => Some report
                  | inl _ => None
                  end)) = Some []
  /\ _validate_password_policy (make_password_policy 12)
       default_common_passwords "Right_Passw0rd"
     = inl (SecurityException PasswordNeedsSpecial).
Proof. by vm_compute. Qed.

(** ** The security log *)

Lemma len_append s1 s2 : len (s1 +:+ s2) = len s1 + len s2.
Proof. rewrite !len_chars, chars_append, length_app. lia. Qed.

Lemma len_substring_from_start n s :
  len (substring_from_start n s) <= Z.of_nat n.
Proof.
  unfold substring_from_start, len. apply inj_le.
  revert s. induction n as [|n IH]; intros [|c s]; cbn; try lia.
  specialize (IH s). lia.
Qed.

Lemma log_security_event_events event detail sev user s :
  exists ev,
    security_events (log_security_event event detail sev user s)
    = security_events s ++ [ev]
    /\ len (details ev) <= 503.
Proof.
  unfold log_security_event. eexists. split; [reflexivity|].
  cbn [details].
  destruct (Z.ltb_spec 500 (len detail)); [|lia].
  rewrite len_append. pose proof (len_substring_from_start 500 detail).
  change (len "...") with 3. lia.
Qed.

Ltac logged_event :=
  right;
  match goal with
  | |- context [log_security_event ?e ?d ?v ?u ?st] =>
      let ev := fresh "ev" in
      let Hev := fresh "Hev" in
      let Hlen := fresh "Hlen" in
      destruct (log_security_event_events e d v u st) as (ev & Hev & Hlen);
      exists ev; split; [rewrite Hev; reflexivity | exact Hlen]
  end.

(** One call appends at most one event, of bounded length. *)
Lemma security_call_events `{Argon2} `{CryptoLib} c s :
  security_events (security_call c s) = security_events s
  \/ exists ev, security_events (security_call c s) = security_events s ++ [ev]
                /\ len (details ev) <= 503.
Proof.
  destruct c as [now identifier action max_attempts period
                | password stored_hash | key encrypted_data | cfg now
                | event detail sev user]; cbn [security_call].
  - unfold check_rate_limit.
    repeat (match goal with
            | |- context [match ?x with Some _ => _ | None => _ end] =>
                destruct x
            | |- context [if ?b then _ else _] => destruct b
            end; cbn [snd]);
      first [by left | logged_event].
  - unfold verify_password.
    destruct (_ || _); [by left|].
    destruct (argon2_verify _ _) as [[|]| | |]; cbn [snd];
      first [by left | logged_event | idtac].
    unfold _detect_bruteforce_attempt.
    destruct (argon2_elapsed _ _); first [by left | logged_event].
  - unfold decrypt_data.
    repeat (match goal with
            | |- context [match ?x with Some _ => _ | None => _ end] =>
                destruct x
            end; cbn [snd]);
      first [by left | logged_event].
  - by left.
  - logged_event.
Qed.

(** X10. The log of a [Security] object is only appended to, by rate limiting,
    password verification, decryption, the cleaning of lockouts and
    [log_security_event] alike, and every event they log carries at most 503
    characters of details. *)
Theorem security_log_append_only `{Argon2} `{CryptoLib}
    (calls : list SecurityCall) (s : Security) :
  security_events s `prefix_of`
    security_events (fold_left (fun st c => security_call c st) calls s)
  /\ (length (security_events
                (fold_left (fun st c => security_call c st) calls s))
      <= length (security_events s) + length calls)%nat
  /\ (events_bounded s ->
      events_bounded (fold_left (fun st c => security_call c st) calls s)).
Proof.
  revert s. induction calls as [|c calls IH]; intros s; cbn [fold_left].
  - split; [done|]. split; [cbn; lia | done].
  - destruct (IH (security_call c s)) as (Hpre & Hlen & Hbound).
    destruct (security_call_events c s) as [Heq | (ev & Heq & Hev)].
    + rewrite Heq in *. split; [done|]. split; [cbn [length]; lia|].
      intros Hs. apply Hbound. unfold events_bounded. by rewrite Heq.
    + rewrite Heq in *. split; [|split].
      * etrans; [|exact Hpre]. by apply prefix_app_r.
      * rewrite length_app in Hlen. cbn [length] in *. lia.
      * intros Hs. apply Hbound. unfold events_bounded. rewrite Heq.
        apply Forall_app. split; [done|]. by apply Forall_singleton.
Qed.

(** ** Limits of a loaded configuration *)

Section ConfigLimits.
Context `{PyBuiltins}.

Lemma _get_int_within env key dflt lo hi v :
  _get_int env key dflt lo hi = inr v ->
  (forall m, lo = Some m -> m <= v) /\ (forall m, hi = Some m -> v <= m).
Proof.
  unfold _get_int.
  destruct (match env !! key with Some s => py_int s | None => Some dflt end)
    as [value|]; [|done].
  destruct lo as [l|], hi as [h|];
    repeat (match goal with
            | |- context [if ?a <? ?b then _ else _] =>
                destruct (Z.ltb_spec a b)
            end); try done;
    intros [= ->]; split; intros m [= <-]; lia.
Qed.

Lemma _get_decimal_within env key dflt m v :
  _get_decimal env key dflt (Some m) = inr v -> m <= v.
Proof.
  unfold _get_decimal.
  destruct (match env !! key with Some s => py_decimal s | None => Some dflt end)
    as [value|]; [|done].
  destruct (Z.ltb_spec value m); [done|]. intros [= ->]. lia.
Qed.

Lemma float_range_ok v :
  float_lt v (FNum 0) || float_lt (FNum (1 # 2)) v = false -> ratio_ok v.
Proof.
  destruct v as [|q]; [by left|]. intros Hr.
  apply orb_false_iff in Hr as [Hlo Hhi].
  right. exists q. split; [done|].
  apply not_true_iff_false in Hlo, Hhi. rewrite float_lt_spec in Hlo, Hhi.
  split; by apply Qnot_lt_le.
Qed.

Lemma _get_float_within env key dflt v :
  _get_float env key dflt (FNum 0) (FNum (1 # 2)) = inr v -> ratio_ok v.
Proof.
  unfold _get_float.
  destruct (match env !! key with Some s => py_float s | None => Some dflt end)
    as [value|]; [|done].
  destruct (_ || _) eqn:Hr; [done|]. intros [= <-]. by apply float_range_ok.
Qed.

Ltac config_values Hc :=
  unfold Config_init in Hc;
  repeat (match type of Hc with
          | context [result_bind ?m _] =>
              let E := fresh "E" in
              destruct m eqn:E; cbn [result_bind] in Hc; [discriminate Hc|]
          end).

(** X11. A configuration that [Config.__init__] has loaded satisfies the bounds
    of its settings, whether they were read or defaulted: the payment
    limits are ordered, the attempt limit is at least 1, the lockout time
    at least 60 seconds, the URL of Redis has one of the two schemes, and
    each of the two ratios is between 0 and one half or a not-a-number,
    which passes both comparisons. *)
Theorem Config_init_limits env c :
  Config_init env = inr c ->
  1 <= REDIS_POOL_SIZE c <= 50
  /\ 8 <= PASSWORD_MIN_LENGTH c
  /\ 1 <= MAX_LOGIN_ATTEMPTS c
  /\ 60 <= LOCKOUT_TIME c
  /\ 1 <= PAYMENT_LIMIT c /\ 300 <= PAYMENT_LIMIT_PERIOD c
  /\ 1 <= WITHDRAWAL_LIMIT c /\ 3600 <= WITHDRAWAL_LIMIT_PERIOD c
  /\ 1 <= MIN_PAYMENT c <= MAX_PAYMENT c
  /\ MIN_PAYMENT c <= MAX_WITHDRAWAL c
  /\ 1 <= MAX_MANUAL_BALANCE_CHANGE c
  /\ (startswith "redis://" (REDIS_URL c)
      || startswith "rediss://" (REDIS_URL c)) = true
  /\ ratio_ok (PAYMENT_COMMISSION c) /\ ratio_ok (WITHDRAWAL_FEE c).
Proof.
  intros Hc. config_values Hc. injection Hc as <-.
  cbn [REDIS_POOL_SIZE PASSWORD_MIN_LENGTH MAX_LOGIN_ATTEMPTS LOCKOUT_TIME
       PAYMENT_LIMIT PAYMENT_LIMIT_PERIOD WITHDRAWAL_LIMIT
       WITHDRAWAL_LIMIT_PERIOD MIN_PAYMENT MAX_PAYMENT MAX_WITHDRAWAL
       MAX_MANUAL_BALANCE_CHANGE REDIS_URL PAYMENT_COMMISSION WITHDRAWAL_FEE].
  repeat match goal with
         | E : _get_int _ _ _ _ _ = inr _ |- _ =>
             apply _get_int_within in E as [? ?]
         | E : _get_decimal _ _ _ (Some _) = inr _ |- _ =>
             apply _get_decimal_within in E
         | E : _get_float _ _ _ _ _ = inr _ |- _ =>
             apply _get_float_within in E
         end.
  match goal with
  | E : _validate_config _ = inr _ |- _ =>
      unfold _validate_config in E;
      cbn [MIN_PAYMENT MAX_PAYMENT REDIS_URL PAYMENT_COMMISSION
           WITHDRAWAL_FEE] in E;
      destruct (startswith "redis://" _ || startswith "rediss://" _) eqn:Hurl;
      [|by destruct (negb _)]
  end.
  repeat match goal with
         | Hb : forall m, Some ?x = Some m -> _ |- _ =>
             specialize (Hb x eq_refl)
         | Hb : forall m, None = Some m -> _ |- _ => clear Hb
         end.
  repeat split; try done; lia.
Qed.
End ConfigLimits.

(** The theorem at work on the environment that sets the two required
    variables only. *)
Lemma Config_init_limits_witness :
  exists c, @Config_init plain_builtins minimal_environ = inr c
            /\ 1 <= MIN_PAYMENT c <= MAX_PAYMENT c.
Proof.
  destruct (@Config_init plain_builtins minimal_environ) as [e|c] eqn:Hc;
    [vm_compute in Hc; discriminate Hc|].
  exists c. split; [reflexivity|].
  apply (@Config_init_limits plain_builtins minimal_environ c Hc).
Defined.

(** A commission that is not a number is loaded. *)
Example Config_init_nan_commission :
  PAYMENT_COMMISSION
  <$> (match @Config_init plain_builtins
               (<["PAYMENT_COMMISSION" := "nan"]> minimal_environ) with
       | inr c => Some c
       | inl _ => None
       end)
  = Some FNaN.
Proof. vm_compute. reflexivity. Qed.

(** ** The list of administrator ids *)

Lemma split_ids_separator l1 l2 word sep :
  is_id_separator sep = true ->
  split_ids (l1 ++ sep :: l2) word = split_ids l1 word ++ split_ids l2 [].
Proof.
  unfold is_id_separator. intros Hsep. revert word.
  induction l1 as [|c l1 IH]; intros word; cbn [app split_ids].
  - rewrite Hsep. by destruct word.
  - destruct (is_space c || Ascii.eqb c ",").
    + destruct word; cbn [app]; by rewrite IH.
    + apply IH.
Qed.

Lemma split_ids_word l word :
  forallb (fun c => negb (is_id_separator c)) l = true ->
  split_ids l word
  = match rev word ++ l with
    | [] => []
    | w => [string_of_list_ascii w]
    end.
Proof.
  revert word. induction l as [|c l IH]; intros word Hl; cbn [split_ids].
  - rewrite app_nil_r. destruct word as [|a word]; [done|].
    destruct (rev (a :: word)) eqn:Hrev; [|done].
    apply (f_equal (@length _)) in Hrev. rewrite length_rev in Hrev. done.
  - cbn [forallb] in Hl. apply andb_true_iff in Hl as [Hc Hl].
    unfold is_id_separator in Hc. apply negb_true_iff in Hc. rewrite Hc.
    rewrite IH by done. cbn [rev]. by rewrite <- app_assoc.
Qed.

(** X12. [_parse_admin_ids] reads its text entry by entry: the ids of a text
    split by a comma or a white space are those of the first part followed
    by those of the second; an entry gives its number, or nothing when
    [int] rejects it, without losing the other entries; the empty text
    gives no id. *)
Theorem _parse_admin_ids_entries `{PyBuiltins} :
  (forall a b sep,
      is_id_separator sep = true ->
      _parse_admin_ids (a +:+ String sep b)
      = _parse_admin_ids a ++ _parse_admin_ids b)
  /\ (forall entry,
        entry <> EmptyString ->
        forallb (fun c => negb (is_id_separator c)) (chars entry) = true ->
        _parse_admin_ids entry
        = match py_int entry with
          | Some id => [id]
          | None => []
          end)
  /\ _parse_admin_ids EmptyString = [].
Proof.
  unfold _parse_admin_ids. split; [|split; [|done]].
  - intros a b sep Hsep. rewrite chars_append.
    change (chars (String sep b)) with (sep :: chars b).
    rewrite split_ids_separator by done. apply omap_app.
  - intros entry Hentry Hword. rewrite split_ids_word by done.
    cbn [rev app]. destruct (chars entry) as [|c l] eqn:Hchars.
    + destruct entry; done.
    + rewrite <- Hchars. unfold chars.
      rewrite string_of_list_ascii_of_string. cbn [omap list_omap].
      by destruct (py_int entry).
Qed.

(** Three entries, the second of which is not a number. *)
Example _parse_admin_ids_skips :
  @_parse_admin_ids plain_builtins "12, x7,  34" = [12; 34].
Proof. by vm_compute. Qed.

(** ** validate_phone *)

Lemma leading_split cls l :
  l = leading cls l ++ drop (length (leading cls l)) l
  /\ Forall (fun c => cls c = true) (leading cls l)
  /\ match drop (length (leading cls l)) l with
     | c :: _ => cls c = false
     | [] => True
     end.
Proof.
  induction l as [|c l (IH1 & IH2 & IH3)]; [done|].
  cbn [leading]. destruct (cls c) eqn:Hc; [|done].
  cbn [length drop app]. split; [by rewrite <- IH1|].
  split; [by constructor | done].
Qed.

Lemma leading_app cls l1 l2 :
  Forall (fun c => cls c = true) l1 ->
  match l2 with c :: _ => cls c = false | [] => True end ->
  leading cls (l1 ++ l2) = l1.
Proof.
  intros H1 H2. induction H1 as [|c l1 Hc _ IH]; cbn [app leading].
  - destruct l2 as [|c l2]; [done|]. cbn [leading]. by rewrite H2.
  - cbn beta in Hc. by rewrite Hc, IH.
Qed.

(** X13. A telephone number is accepted exactly when it is an optional plus
    sign, a digit from 1 to 9 and 1 to 14 further digits; a line feed may
    follow, since [$] also holds before a line feed that ends the text. *)
Theorem validate_phone_accepts phone :
  validate_phone phone = true <->
  exists sign d digits ending,
    chars phone = sign ++ d :: digits ++ ending
    /\ (sign = [] \/ sign = ["+"%char])
    /\ in_range 49 57 d = true
    /\ Forall (fun c => is_digit c = true) digits
    /\ (1 <= length digits <= 14)%nat
    /\ (ending = [] \/ ending = [newline]).
Proof.
  unfold validate_phone. split.
  - set (l := match chars phone with
              | c :: t => if Ascii.eqb c "+" then t else chars phone
              | [] => chars phone
              end).
    assert (Hsign : exists sign, chars phone = sign ++ l
                                 /\ (sign = [] \/ sign = ["+"%char])).
    { unfold l. destruct (chars phone) as [|c t]; [by exists []; eauto|].
      destruct (Ascii.eqb_spec c "+") as [-> | _].
      - exists ["+"%char]. eauto.
      - exists []. eauto. }
    destruct Hsign as (sign & Hphone & Hsign).
    destruct l as [|d rest]; [done|].
    destruct (leading_split is_digit rest) as (Hrest & Hdigits & _).
    rewrite !andb_true_iff, !Z.leb_le. intros [[[Hd Hlo] Hhi] Htail].
    exists sign, d, (leading is_digit rest),
      (drop (length (leading is_digit rest)) rest).
    split; [by rewrite <- Hrest|]. split; [done|]. split; [done|].
    split; [done|]. split; [lia|].
    destruct (drop _ rest) as [|c [|c' t]]; [by left | | done].
    right. by apply Ascii.eqb_eq in Htail as ->.
  - intros (sign & d & digits & ending & Hphone & Hsign & Hd & Hdigits
            & Hlen & Hend).
    rewrite Hphone.
    assert (match sign ++ d :: digits ++ ending with
            | c :: t => if Ascii.eqb c "+" then t else sign ++ d :: digits ++ ending
            | [] => sign ++ d :: digits ++ ending
            end = d :: digits ++ ending) as ->.
    { destruct Hsign as [-> | ->]; [|done]. cbn [app].
      destruct (Ascii.eqb_spec d "+") as [-> | _]; done. }
    rewrite leading_app; [| done | by destruct Hend as [-> | ->]].
    rewrite drop_app_length, Hd.
    rewrite !andb_true_iff, !Z.leb_le. repeat split; try lia.
    destruct Hend as [-> | ->]; [done | apply Ascii.eqb_refl].
Qed.

(** A number that ends in a line feed passes. *)
Example validate_phone_line_feed :
  validate_phone (String.append "+79001234567" (String newline EmptyString))
  = true.
Proof. by vm_compute. Qed.
(** ** Withdrawal requests and manual adjustments, whatever fails *)

(** X14. A withdrawal request ends with no transaction open, and either leaves
    the committed tables as they were or has debited exactly the amount
    from a balance that covered it and added one processing withdrawal row
    of that amount: it never overdraws, and a request for more than the
    balance, or for nothing, changes nothing. This holds for every script
    of failures. *)
Theorem _process_withdraw_wallet_debits_once now uid amt wallet created w :
  txn w = None ->
  let w' := snd (_process_withdraw_wallet now uid false amt wallet created w) in
  txn w' = None
  /\ (disk w' = disk w
      \/ exists u wd,
           users (disk w) !! uid = Some u /\ created = Some wd
           /\ validate_wallet_address wallet = true
           /\ 0 < amt <= balance u
           /\ users (disk w')
              = <[uid := set_balance (balance u - amt) u]> (users (disk w))
           /\ transactions (disk w')
              = transactions (disk w)
                ++ [{| transaction_id := withdrawal_transaction_id wd;
                       user_id := uid; amount := amt; status := processing;
                       tx_type := withdrawal; created_at := now;
                       completed_at := None; wallet_address := Some wallet;
                       description := "" |}]).
Proof.
  intros Htxn w'.
  destruct (_process_withdraw_wallet_atomic now uid amt wallet created w Htxn)
    as [Hclosed Hdisk].
  split; [done|].
  destruct Hdisk as [Hsame | (wd & d1 & d2 & d3 & -> & H1 & H2 & H3 & Hd3)];
    [by left|].
  apply sql_insert_transaction_Some in H2 as (_ & Hamt & [u1 Hu1] & ->).
  apply sql_insert_audit_Some in H3 as [Husers Hrows].
  cbn [amount user_id users transactions set_transactions] in *.
  apply update_user_row_Some in H1 as [[Hnone ->] | (u & Hu & Hbal & _ & ->)];
    [congruence|].
  cbn [balance set_balance users set_users transactions] in *.
  destruct (validate_wallet_address wallet) eqn:Hwallet.
  - right. exists u, wd. fold w' in Hd3.
    rewrite Hd3, Husers, Hrows. repeat split; try done; lia.
  - left. fold w' in Hd3.
    assert (Hsame : disk w' = disk w).
    { unfold w', _process_withdraw_wallet. rewrite Hwallet.
      destruct w as [d0 t f s c]. cbn in Htxn. subst t. by io_eval. }
    rewrite Hd3 in Hsame. apply (f_equal transactions) in Hsame.
    rewrite Hrows in Hsame. apply (f_equal (@length _)) in Hsame.
    rewrite length_app in Hsame. cbn in Hsame. lia.
Qed.

(** The theorem at work on the withdrawal of the scenario. *)
Lemma _process_withdraw_wallet_debits_once_witness :
  txn (snd (_process_withdraw_wallet 0 1 false 4000 scenario_wallet
              (Some scenario_withdrawal) (quiet_world scenario_database)))
  = None.
Proof.
  apply (_process_withdraw_wallet_debits_once 0 1 4000 scenario_wallet
           (Some scenario_withdrawal) (quiet_world scenario_database)).
  reflexivity.
Defined.

Lemma _process_admin_balance_management_atomic cfg now token_hex cancel target
    amt w :
  txn w = None ->
  let w' := snd (_process_admin_balance_management cfg now token_hex cancel
                   target amt w) in
  txn w' = None
  /\ (disk w' = disk w
      \/ exists uid a u d1 d2,
           cancel = false /\ target = Some uid /\ amt = Some a
           /\ (MAX_MANUAL_BALANCE_CHANGE cfg <? Z.abs a) = false
           /\ users (disk w) !! uid = Some u
           /\ sql_set_balance (balance u + a) uid (disk w) = Some d1
           /\ sql_insert_transaction
                (adjustment_row now ("adm_" +:+ token_hex) uid a
                   "manual balance change") d1 = Some d2
           /\ disk w' = d2).
Proof.
  destruct w as [d0 t f s c]. cbn [txn]. intros ->.
  unfold _process_admin_balance_management.
  destruct cancel; [io_eval; io_explore ltac:(split; [done|]; by left)|].
  destruct target as [uid|];
    [|io_eval; io_explore ltac:(split; [done|]; by left)].
  destruct amt as [a|]; [|by (io_eval; eauto)].
  destruct (MAX_MANUAL_BALANCE_CHANGE cfg <? Z.abs a) eqn:Hmax;
    [by (io_eval; eauto)|].
  io_eval.
  io_explore ltac:(split; [done|]; first [by left | right; eauto 14]).
Qed.

(** X15. The handler of a manual balance change ends with no transaction open,
    and either leaves the committed tables as they were or has raised the
    balance of the account by a positive amount within the limit and added
    one completed adjustment row of that amount. An amount that is zero or
    negative never changes anything: the table of transactions refuses its
    row, and the change of the balance is rolled back with it. This holds
    for every script of failures. *)
Theorem _process_admin_balance_management_credits cfg now token_hex cancel
    target amt w :
  txn w = None ->
  let w' := snd (_process_admin_balance_management cfg now token_hex cancel
                   target amt w) in
  txn w' = None
  /\ (disk w' = disk w
      \/ exists uid a u,
           target = Some uid /\ amt = Some a
           /\ users (disk w) !! uid = Some u
           /\ 0 < a <= MAX_MANUAL_BALANCE_CHANGE cfg
           /\ users (disk w')
              = <[uid := set_balance (balance u + a) u]> (users (disk w))
           /\ transactions (disk w')
              = transactions (disk w)
                ++ [adjustment_row now ("adm_" +:+ token_hex) uid a
                      "manual balance change"])
  /\ (forall a, amt = Some a -> a <= 0 -> disk w' = disk w).
Proof.
  intros Htxn w'.
  destruct (_process_admin_balance_management_atomic cfg now token_hex cancel
              target amt w Htxn) as [Hclosed Hdisk].
  fold w' in Hclosed, Hdisk. split; [done|].
  destruct Hdisk as [Hsame | (uid & a & u & d1 & d2 & _ & -> & -> & Hmax & Hu
                               & H1 & H2 & Hd2)].
  { split; [by left | done]. }
  apply sql_insert_transaction_Some in H2 as (_ & Hamt & _ & ->).
  apply update_user_row_Some in H1 as [[Hnone ->] | (u' & Hu' & _ & _ & ->)];
    [congruence|].
  assert (u' = u) as -> by congruence.
  cbn [amount adjustment_row] in Hamt. apply Z.ltb_ge in Hmax.
  split.
  - right. exists uid, a, u. rewrite Hd2. repeat split; try done; lia.
  - intros a' [= <-] Ha. lia.
Qed.

(** The theorem at work: a change of minus 5.00 on the account of the
    scenario leaves the tables as they were. *)
Lemma _process_admin_balance_management_credits_witness :
  disk (snd (_process_admin_balance_management default_config 0 "01" false
               (Some 1) (Some (-500)) (quiet_world scenario_database)))
  = scenario_database.
Proof.
  apply (proj2 (proj2 (_process_admin_balance_management_credits default_config
                         0 "01" false (Some 1) (Some (-500))
                         (quiet_world scenario_database) eq_refl))
           (-500) eq_refl).
  lia.
Defined.

(** ** The switches of the administrator *)

Ltac audit_facts :=
  repeat match goal with
         | H : sql_insert_audit _ _ = Some _ |- _ =>
             apply sql_insert_audit_Some in H as [? ?]
         | H : sql_insert_session _ _ = Some _ |- _ =>
             apply sql_insert_session_Some in H as [? ?]
         end.

(** X16. A change of status by the administrator writes the status, and the
    completion time when the status is completed, and nothing else: no
    balance is credited, debited or given back, whatever the old and the
    new status are and whatever fails. *)
Theorem admin_update_transaction_status_keeps_balances now tid status_text w :
  txn w = None ->
  let w' := snd (admin_update_transaction_status now tid status_text w) in
  users (disk w') = users (disk w)
  /\ users (view w') = users (disk w)
  /\ map (fun t => (transaction_id t, user_id t, amount t, tx_type t))
       (transactions (disk w'))
     = map (fun t => (transaction_id t, user_id t, amount t, tx_type t))
         (transactions (disk w)).
Proof.
  destruct w as [d0 t f s c]. cbn [txn]. intros ->.
  unfold admin_update_transaction_status.
  destruct (status_of_string status_text) as [st|]; [|by io_eval].
  io_eval.
  assert (Hmap : map (fun t => (transaction_id t, user_id t, amount t, tx_type t))
                   (map (fun t =>
                      if String.eqb (transaction_id t) tid then
                        {| transaction_id := transaction_id t;
                           user_id := user_id t; amount := amount t;
                           status := st; tx_type := tx_type t;
                           created_at := created_at t;
                           completed_at :=
                             if bool_decide (st = completed) then Some now
                             else completed_at t;
                           wallet_address := wallet_address t;
                           description := description t |}
                      else t) (transactions d0))
                 = map (fun t => (transaction_id t, user_id t, amount t, tx_type t))
                     (transactions d0)).
  { rewrite map_map. apply map_ext. intros x.
    by destruct (String.eqb (transaction_id x) tid). }
  io_explore ltac:(audit_facts; cbn in *; repeat split; congruence).
Qed.

(** The theorem at work on the store of the scenario. *)
Lemma admin_update_transaction_status_keeps_balances_witness :
  users (disk (snd (admin_update_transaction_status 9 "w_0001" "failed"
                      (quiet_world scenario_database))))
  = users scenario_database.
Proof.
  apply (admin_update_transaction_status_keeps_balances 9 "w_0001" "failed"
           (quiet_world scenario_database)).
  reflexivity.
Defined.

(** After the request of the scenario the administrator marks the processing
    withdrawal of 40.00 failed: the balance stays 60.00, the rows of the
    account now add up to 100.00, and the reconciliation finds nothing to
    give back. *)
Example admin_status_change_without_refund :
  let db := scenario_requested in
  let tid := withdrawal_transaction_id scenario_withdrawal in
  let w1 := snd (admin_update_transaction_status 30 tid "failed"
                   (quiet_world db)) in
  let w2 := snd (_task_check_pending_transactions 7200 (quiet_world (disk w1))) in
  balance_of 1 (disk w1) = Some 6000
  /\ sum_for ledger_effect 1 (transactions (disk w1)) = 10000
  /\ balance_of 1 (disk w2) = Some 6000.
Proof. by vm_compute. Qed.

(** One more case of the run of a handler: the next flag of the failure
    script, a row that is looked up, a test, the outcome of a statement. *)
Ltac io_case :=
  match goal with
  | |- context [match ?f with [] => _ | _ :: _ => _ end] =>
      is_var f; destruct f as [|[|] f]
  | |- context [match users ?d !! ?uid with Some _ => _ | None => _ end] =>
      destruct (users d !! uid) eqn:?
  | |- context [if ?b then _ else _] => destruct b eqn:?
  | |- context [match ?x with Some _ => _ | None => _ end] => destruct x eqn:?
  end; io_eval.

Ltac io_cases finish_tac :=
  first [ solve [finish_tac] | io_case; io_cases finish_tac ].

(** An account whose counter has reached the limit is refused before its
    password is looked at. *)
Lemma authenticate_locked `{Argon2} cfg now session_token_hex bearer uid
    password w u :
  faults w = [] -> users (view w) !! uid = Some u ->
  MAX_LOGIN_ATTEMPTS cfg <= failed_login_attempts u ->
  _authenticate_existing_user cfg now session_token_hex bearer uid password w
  = (inl (BotError ACCOUNT_LOCKED), w).
Proof.
  destruct w as [d0 t f s c]. cbn [faults]. intros -> Hu Hmax.
  unfold _authenticate_existing_user. io_eval.
  unfold view in Hu. cbn in Hu. rewrite Hu. io_eval.
  apply Z.leb_le in Hmax. by rewrite Hmax.
Qed.

Lemma _handle_admin_user_toggle_counter uid w u :
  txn w = None -> users (disk w) !! uid = Some u ->
  exists u',
    users (view (snd (_handle_admin_user_toggle uid w))) !! uid = Some u'
    /\ failed_login_attempts u' = failed_login_attempts u
    /\ balance u' = balance u.
Proof.
  destruct w as [d0 t f s c]. cbn [txn disk]. intros -> Hu.
  unfold _handle_admin_user_toggle, update_user_status,
    _update_user_info_message, sql_set_active, update_user_row.
  io_eval.
  io_cases ltac:(audit_facts; simplify_eq; cbn in *;
                 rewrite ?lookup_insert_eq;
                 first [ by eauto
                       | eexists; split; [eassumption|]; done
                       | eexists; split;
                           [ match goal with
                             | Hk : users ?d = _ |- users ?d !! _ = _ =>
                                 rewrite Hk; apply lookup_insert_eq
                             end |]; done ]).
Qed.

(** X17. The switch of the administrator writes [is_active] and leaves the
    counter of failed logins as it is, while the login tests the counter
    and never [is_active]: an account locked by failed attempts stays
    locked when the administrator switches it, and every later login is
    refused with ACCOUNT_LOCKED whatever the password. *)
Theorem _handle_admin_user_toggle_keeps_lock `{Argon2} cfg uid w u :
  txn w = None -> users (disk w) !! uid = Some u ->
  MAX_LOGIN_ATTEMPTS cfg <= failed_login_attempts u ->
  let w' := snd (_handle_admin_user_toggle uid w) in
  (exists u', users (view w') !! uid = Some u'
              /\ failed_login_attempts u' = failed_login_attempts u)
  /\ (faults w' = [] ->
      forall now session_token_hex bearer password,
        _authenticate_existing_user cfg now session_token_hex bearer uid
          password w'
        = (inl (BotError ACCOUNT_LOCKED), w')).
Proof.
  intros Htxn Hu Hmax w'.
  destruct (_handle_admin_user_toggle_counter uid w u Htxn Hu)
    as (u' & Hu' & Hcount & _).
  fold w' in Hu'. split; [by eauto|].
  intros Hcalm now session_token_hex bearer password.
  apply (authenticate_locked _ _ _ _ _ _ _ u'); [done | done | lia].
Qed.

(** The theorem at work: the account of the scenario with five failed
    logins, switched by the administrator. *)
Lemma _handle_admin_user_toggle_keeps_lock_witness :
  let locked :=
    set_users
      (<[1 := set_is_active false
                (set_failed_login_attempts 5
                   {| username := "gamer"; password_hash := "Right#Passw0rd";
                      is_active := true; failed_login_attempts := 0;
                      mfa_secret := None; balance := 0 |})]> ∅)
      empty_database in
  let w' := snd (_handle_admin_user_toggle 1 (quiet_world locked)) in
  is_active <$> users (disk w') !! 1 = Some true
  /\ fst (@_authenticate_existing_user plain_argon2 default_config 50 "" "" 1
            "Right#Passw0rd" w')
     = inl (BotError ACCOUNT_LOCKED).
Proof.
  intros locked w'. split; [by vm_compute|].
  assert (Hlocked : users (disk (quiet_world locked)) !! 1
                    = Some (set_is_active false
                              (set_failed_login_attempts 5
                                 {| username := "gamer";
                                    password_hash := "Right#Passw0rd";
                                    is_active := true;
                                    failed_login_attempts := 0;
                                    mfa_secret := None; balance := 0 |})))
    by reflexivity.
  rewrite (proj2 (@_handle_admin_user_toggle_keeps_lock plain_argon2
                    default_config 1 (quiet_world locked) _ eq_refl Hlocked
                    ltac:(cbn; lia)));
    [reflexivity | by vm_compute].
Defined.

(** ** Login, sessions and the second factor *)

Lemma update_user_row_sessions f uid d d' :
  update_user_row f uid d = Some d' -> sessions d' = sessions d.
Proof.
  intros Hrow.
  by apply update_user_row_Some in Hrow as [[_ ->] | (u & _ & _ & _ & ->)].
Qed.

(** The statements of the login that write the table [users] leave the
    sessions as they are. *)
Ltac same_sessions :=
  repeat match goal with
         | H : sql_incr_failed_logins _ _ = Some _ |- _ =>
             apply update_user_row_sessions in H
         | H : sql_reset_failed_logins _ _ = Some _ |- _ =>
             apply update_user_row_sessions in H
         | H : sql_deactivate _ _ = Some _ |- _ =>
             apply update_user_row_sessions in H
         end;
  cbn in *; congruence.

(** A login with the right password, below the limit of attempts, in a run
    without failure: the counter is set to zero, then an account with a
    second factor is asked for the code, and for an account without one
    the address of the sender is looked up, which raises
    [AttributeError]. *)
Lemma authenticate_right_password `{Argon2} cfg now session_token_hex bearer
    uid password w u :
  calm w -> users (disk w) !! uid = Some u ->
  failed_login_attempts u < MAX_LOGIN_ATTEMPTS cfg -> 0 <= balance u ->
  password_accepted password (password_hash u) = true ->
  exists w',
    _authenticate_existing_user cfg now session_token_hex bearer uid password w
    = (if has_mfa_secret u then inr AwaitMfaCode else inl AttributeError, w')
    /\ calm w'
    /\ disk w'
       = set_users (<[uid := set_failed_login_attempts 0 u]> (users (disk w)))
           (disk w).
Proof.
  intros Hw Hu Hn Hbal Hok. unfold _authenticate_existing_user.
  rewrite bind_run, get_user_calm, Hu by done.
  destruct (Z.leb_spec (MAX_LOGIN_ATTEMPTS cfg) (failed_login_attempts u));
    [lia|].
  rewrite bind_run. unfold verify_password_io.
  pose proof (verify_password_accepted password (password_hash u) (security w))
    as Hv. rewrite Hok in Hv.
  destruct (verify_password password (password_hash u) (security w))
    as [[ok called] s']. cbn in Hv. subst ok. cbn [negb].
  set (w1 := add_calls called (set_security s' w)).
  assert (Hw1 : calm w1) by by apply calm_add_calls, calm_set_security.
  assert (Hu1 : users (disk w1) !! uid = Some u) by done.
  rewrite bind_run, Database_execute_calm by done.
  unfold sql_reset_failed_logins, update_user_row. rewrite Hu1.
  cbn [balance failed_login_attempts set_failed_login_attempts].
  destruct (Z.ltb_spec (balance u) 0); [lia|]. cbn [orb Z.ltb Z.compare].
  set (w2 := set_store _ None w1).
  assert (Hw2 : calm w2) by by apply calm_set_store.
  exists w2. destruct (has_mfa_secret u).
  - rewrite bind_run, external_call_calm by done. done.
  - done.
Qed.

(** X18. No login opens a session. Whatever the password, the account and
    the failures of the environment, [_authenticate_existing_user] does not
    return as logged in and leaves the table of sessions as it was: before
    the session is inserted, line 5193 reads [message.connection], which a
    message of aiogram does not have. In a run without failure, the right
    password for an account below the limit of attempts and without second
    factor sets the counter of failed logins to zero, whether the account
    is active or not, and then ends in [AttributeError]; nothing else of
    the store changes. *)
Theorem authenticate_opens_no_session `{Argon2} cfg now session_token_hex bearer
    uid password w :
  let r :=
    _authenticate_existing_user cfg now session_token_hex bearer uid password w
  in
  fst r <> inr LoggedIn
  /\ sessions (view (snd r)) = sessions (view w)
  /\ forall u,
       calm w -> users (disk w) !! uid = Some u ->
       failed_login_attempts u < MAX_LOGIN_ATTEMPTS cfg -> 0 <= balance u ->
       password_accepted password (password_hash u) = true ->
       has_mfa_secret u = false ->
       fst r = inl AttributeError /\ calm (snd r)
       /\ disk (snd r)
          = set_users
              (<[uid := set_failed_login_attempts 0 u]> (users (disk w)))
              (disk w).
Proof.
  intros r. split; [|split].
  - unfold r. destruct w as [d0 t f s c].
    unfold _authenticate_existing_user, message_ip_address.
    destruct t as [dt|]; io_eval;
      (destruct f as [|[|] f]; io_eval; try done);
      match goal with
      | |- context [users ?d !! uid] => destruct (users d !! uid) as [u|]
      end; io_eval; try done;
      (destruct (MAX_LOGIN_ATTEMPTS cfg <=? failed_login_attempts u); io_eval;
       try done);
      (destruct (verify_password password (password_hash u) s)
         as [[[|] called] s']; io_eval);
      io_cases ltac:(done).
  - unfold r. destruct w as [d0 t f s c].
    unfold _authenticate_existing_user, message_ip_address.
    destruct t as [dt|]; io_eval;
      (destruct f as [|[|] f]; io_eval; try done);
      match goal with
      | |- context [users ?d !! uid] => destruct (users d !! uid) as [u|]
      end; io_eval; try done;
      (destruct (MAX_LOGIN_ATTEMPTS cfg <=? failed_login_attempts u); io_eval;
       try done);
      (destruct (verify_password password (password_hash u) s)
         as [[[|] called] s']; io_eval);
      io_cases ltac:(same_sessions).
  - intros u Hw Hu Hn Hbal Hok Hmfa.
    destruct (authenticate_right_password cfg now session_token_hex bearer uid
                password w u) as (w' & Hrun & Hw' & Hdisk); try done.
    unfold r. rewrite Hrun, Hmfa. done.
Qed.

(** The theorem at work on an account that the administrator has
    deactivated and that has two failed attempts. *)
Lemma authenticate_opens_no_session_witness :
  let blocked :=
    set_users
      {[ 1 := {| username := "gamer"; password_hash := "argon2:Right#Passw0rd";
                 is_active := false; failed_login_attempts := 2;
                 mfa_secret := None; balance := 0 |} ]}
      empty_database in
  let r :=
    @_authenticate_existing_user plain_argon2 default_config 50 "ab" "cd" 1
      "Right#Passw0rd" (quiet_world blocked) in
  fst r = inl AttributeError
  /\ (failed_login_attempts <$> users (disk (snd r)) !! 1) = Some 0
  /\ sessions (disk (snd r)) = [].
Proof.
  intros blocked r.
  destruct (@authenticate_opens_no_session plain_argon2 default_config 50 "ab"
              "cd" 1 "Right#Passw0rd" (quiet_world blocked))
    as (_ & _ & Hright).
  destruct (Hright
              {| username := "gamer"; password_hash := "argon2:Right#Passw0rd";
                 is_active := false; failed_login_attempts := 2;
                 mfa_secret := None; balance := 0 |})
    as (Hraise & _ & Hdisk);
    [done | reflexivity | cbn; lia | cbn; lia | by vm_compute | done |].
  fold r in Hraise, Hdisk. rewrite Hraise, Hdisk. done.
Defined.

Lemma find_filter_implied {A} (f g : A -> bool) l :
  (forall x, f x = true -> g x = true) ->
  List.find f (List.filter g l) = List.find f l.
Proof.
  intros Himp. induction l as [|a l IH]; [done|]. cbn.
  destruct (g a) eqn:Hg; cbn.
  - by rewrite IH.
  - destruct (f a) eqn:Hf; [|done]. apply Himp in Hf. congruence.
Qed.

Lemma find_active_after_cleanup now later uid l :
  now <= later ->
  List.find (fun s => (session_user_id s =? uid) && (later <? expires_at s))
    (List.filter (fun s => negb (expires_at s <? now)) l)
  = List.find (fun s => (session_user_id s =? uid) && (later <? expires_at s)) l.
Proof.
  intros Hlater. apply find_filter_implied.
  intros s Hs. apply andb_true_iff in Hs as [_ Hs]. apply Z.ltb_lt in Hs.
  apply negb_true_iff, Z.ltb_ge. lia.
Qed.

(** X19. The cleaning of sessions deletes only sessions that have expired: at
    the time of the cleaning and at any later time, [has_active_session]
    reads for every user what it would have read without the cleaning;
    accounts and transactions are not touched. This holds for every script
    of failures. *)
Theorem _cleanup_old_sessions_keeps_active now w later uid :
  now <= later ->
  let w' := snd (_cleanup_old_sessions now w) in
  active_session later uid (view w') = active_session later uid (view w)
  /\ users (view w') = users (view w)
  /\ transactions (view w') = transactions (view w).
Proof.
  intros Hlater.
  destruct w as [d0 t f s c]. unfold _cleanup_old_sessions.
  destruct t as [dt|]; io_eval;
    io_cases ltac:(unfold active_session; cbn; repeat split; try done;
                   by apply find_active_after_cleanup).
Qed.

(** The theorem at work on a store with one session that has expired and
    one that has not. *)
Lemma _cleanup_old_sessions_keeps_active_witness :
  let db :=
    {| users := users scenario_database; transactions := [];
       sessions :=
         [ {| session_id := "session_a"; session_user_id := 1; token := "t";
              ip_address := "unknown"; expires_at := 100 |};
           {| session_id := "session_b"; session_user_id := 1; token := "t";
              ip_address := "unknown"; expires_at := 900 |} ];
       audit_log := [] |} in
  active_session 500 1 (view (snd (_cleanup_old_sessions 400 (quiet_world db))))
  = active_session 500 1 db.
Proof.
  intros db.
  apply (_cleanup_old_sessions_keeps_active 400 (quiet_world db) 500 1).
  lia.
Defined.

(** X20. A wrong code at the second step of the login changes nothing: no
    counter is kept, no lock is set, and after any number of wrong codes
    the bot is in the state it was in before the first. *)
Theorem _process_auth_mfa_code_wrong_codes `{Totp} now session_token_hex bearer
    uid codes w u :
  calm w -> users (disk w) !! uid = Some u ->
  Forall (fun code => fst (verify_mfa_code (mfa_secret u) code 1) = false)
    codes ->
  after_each (_process_auth_mfa_code now false session_token_hex bearer uid)
    codes w
  = w.
Proof.
  intros Hw Hu Hcodes.
  induction Hcodes as [|code codes Hcode _ IH]; [done|].
  cbn [after_each].
  assert (Hstep : _process_auth_mfa_code now false session_token_hex bearer
                    uid code w = (inr tt, w)).
  { unfold _process_auth_mfa_code, try_except.
    rewrite bind_run, get_user_calm, Hu by done. by rewrite Hcode. }
  by rewrite Hstep.
Qed.

(** The theorem at work: two wrong codes for an account with a secret. *)
Lemma _process_auth_mfa_code_wrong_codes_witness :
  let db :=
    set_users
      {[ 1 := {| username := "gamer"; password_hash := "argon2:Right#Passw0rd";
                 is_active := true; failed_login_attempts := 0;
                 mfa_secret := Some "JBSWY3DPEHPK3PXP"; balance := 0 |} ]}
      empty_database in
  after_each (@_process_auth_mfa_code plain_totp 50 false "ab" "cd" 1)
    ["000000"; "12345"] (quiet_world db)
  = quiet_world db.
Proof.
  intros db.
  apply (@_process_auth_mfa_code_wrong_codes plain_totp 50 "ab" "cd" 1
           ["000000"; "12345"] (quiet_world db)
           {| username := "gamer"; password_hash := "argon2:Right#Passw0rd";
              is_active := true; failed_login_attempts := 0;
              mfa_secret := Some "JBSWY3DPEHPK3PXP"; balance := 0 |}).
  - done.
  - reflexivity.
  - repeat constructor.
Defined.

(** X26. The second step of the login opens no session either. Whatever
    the code, right or wrong, and whatever fails, [_process_auth_mfa_code]
    returns normally and leaves the committed tables and the transaction
    of the connection as they were: after a right code line 4578 reads
    [message.connection], and the [AttributeError] is handed to the error
    handler like the refusal of a wrong code. *)
Theorem _process_auth_mfa_code_opens_no_session `{Totp} now cancel
    session_token_hex bearer uid code w :
  let r :=
    _process_auth_mfa_code now cancel session_token_hex bearer uid code w in
  fst r = inr tt /\ disk (snd r) = disk w /\ txn (snd r) = txn w.
Proof.
  intros r. unfold r. destruct w as [d0 t f s c].
  unfold _process_auth_mfa_code, message_ip_address.
  destruct cancel; io_eval; io_cases ltac:(done).
Qed.

(** The code of the moment, sent for an account with a second factor: no
    session is opened. *)
Example _process_auth_mfa_code_right_code :
  let db :=
    set_users
      {[ 1 := {| username := "gamer"; password_hash := "argon2:Right#Passw0rd";
                 is_active := true; failed_login_attempts := 0;
                 mfa_secret := Some "JBSWY3DPEHPK3PXP"; balance := 0 |} ]}
      empty_database in
  fst (@verify_mfa_code plain_totp (Some "JBSWY3DPEHPK3PXP") "123456" 1) = true
  /\ @_process_auth_mfa_code plain_totp 50 false "ab" "cd" 1 "123456"
       (quiet_world db)
     = (inr tt, quiet_world db).
Proof. by vm_compute. Qed.

(** ** A transfer that fails, under the first binding of
    [process_withdrawal] *)

Lemma find_row_unique l x :
  NoDup (map transaction_id l) -> In x l ->
  List.find (fun t => String.eqb (transaction_id t) (transaction_id x)) l
  = Some x.
Proof.
  intros Hnd Hx.
  destruct (find_row_in (transaction_id x) l x Hx eq_refl) as [t0 Hfind].
  rewrite Hfind. f_equal.
  apply find_some in Hfind as [Ht0 Hid]. apply String.eqb_eq in Hid.
  by apply (unique_row l).
Qed.

(** X21. When the transfer of a processing withdrawal fails, the store-backed
    [process_withdrawal] gives the amount back and reports the failure, and
    the loop of [_task_withdrawal_processing] gives it back again: the
    balance ends two amounts higher, with the row failed. *)
Theorem withdrawal_round_refunds_twice now x w u :
  calm w -> schema_ok (disk w) -> In x (transactions (disk w)) ->
  users (disk w) !! user_id x = Some u ->
  let w' := snd (withdrawal_round now
                   (fun tid => process_withdrawal now false tid) x w) in
  calm w'
  /\ balance_of (user_id x) (disk w') = Some (balance u + 2 * amount x)
  /\ In (set_status failed now x) (transactions (disk w')).
Proof.
  intros Hw (Hnd & Hamt & Hok) Hx Hu.
  pose proof (Hamt x Hx) as Hpos. destruct (Hok _ _ Hu) as [Hbal Hfail].
  unfold withdrawal_round. rewrite bind_run. unfold process_withdrawal.
  rewrite bind_run, fetch_one_calm, find_row_unique by done.
  rewrite bind_run, update_transaction_status_calm by done.
  set (w1 := set_store _ None w).
  assert (Hw1 : calm w1) by by apply calm_set_store.
  assert (Hu1 : users (disk w1) !! user_id x = Some u) by exact Hu.
  rewrite bind_run, Database_execute_calm by done.
  rewrite (sql_add_balance_ok _ _ u) by (done || lia).
  set (u1 := set_balance (balance u + amount x) u).
  set (w2 := set_store _ None w1).
  assert (Hw2 : calm w2) by by apply calm_set_store.
  assert (Hu2 : users (disk w2) !! user_id x = Some u1) by apply lookup_insert_eq.
  cbn [mret IO_ret]. unfold mret, IO_ret.
  rewrite bind_run, Database_execute_calm by done.
  rewrite (sql_add_balance_ok _ _ u1) by (done || cbn; lia).
  set (w3 := set_store _ None w2).
  assert (Hw3 : calm w3) by by apply calm_set_store.
  rewrite bind_run, update_transaction_status_calm by done.
  rewrite external_call_calm by by apply calm_set_store.
  cbn [snd]. split; [by apply calm_set_store|]. split.
  - unfold balance_of. cbn [disk set_store users set_transactions w3 set_users].
    rewrite lookup_insert_eq. cbn. f_equal. lia.
  - cbn [disk set_store transactions set_transactions w3 set_users w2 w1].
    apply in_map_iff. exists (set_status failed now x).
    split; [by rewrite String.eqb_refl|].
    apply in_map_iff. exists x. by rewrite String.eqb_refl.
Qed.

(** The theorem at work on the store reached by the scenario. *)
Lemma withdrawal_round_refunds_twice_witness :
  let db := scenario_requested in
  balance_of 1
    (disk (snd (withdrawal_round 30
                  (fun tid => process_withdrawal 30 false tid)
                  {| transaction_id := "wd_0001"; user_id := 1; amount := 4000;
                     status := processing; tx_type := withdrawal;
                     created_at := 20; completed_at := None;
                     wallet_address := Some scenario_wallet;
                     description := "" |}
                  (quiet_world db))))
  = Some (6000 + 2 * 4000).
Proof.
  intros db.
  refine (proj1 (proj2 (withdrawal_round_refunds_twice 30
            {| transaction_id := "wd_0001"; user_id := 1; amount := 4000;
               status := processing; tx_type := withdrawal;
               created_at := 20; completed_at := None;
               wallet_address := Some scenario_wallet; description := "" |}
            (quiet_world db)
            {| username := "gamer"; password_hash := "argon2:Right#Passw0rd";
               is_active := true; failed_login_attempts := 0;
               mfa_secret := None; balance := 6000 |}
            _ _ _ _))).
  - done.
  - split; [|split].
    + apply (bool_decide_unpack _). by vm_compute.
    + intros t Ht. vm_compute in Ht.
      destruct Ht as [<- | [<- | []]]; cbn; lia.
    + intros uid u' Hu'. vm_compute in Hu'.
      destruct uid as [|[]|]; try discriminate Hu'.
      injection Hu' as <-. cbn. lia.
  - vm_compute. tauto.
  - by vm_compute.
Defined.

(** ** Registration, whatever fails *)

Lemma hash_password_digest `{Argon2} policy common password called digest :
  hash_password policy common password = (called, inr digest) ->
  _validate_password_policy policy common password = inr tt
  /\ argon2_hash password = Some digest.
Proof.
  unfold hash_password.
  destruct (_validate_password_policy policy common password) as [e|[]];
    [done|].
  destruct (argon2_hash password); [|done]. by intros [= _ <-].
Qed.

Ltac register_case :=
  first
    [ match goal with
      | |- context [hash_password ?p ?c ?pw] =>
          let called := fresh "called" in
          let e := fresh "e" in
          let hashed := fresh "hashed" in
          let Hhash := fresh "Hhash" in
          destruct (hash_password p c pw) as [called [e|hashed]] eqn:Hhash;
          [destruct e|]
      end; io_eval
    | io_case ].

Ltac register_cases finish_tac :=
  first [ solve [finish_tac] | register_case; register_cases finish_tac ].

Lemma _register_new_user_atomic `{Argon2} cfg policy common uid steam_login
    password secret w :
  txn w = None ->
  let w' := snd (_register_new_user cfg policy common uid steam_login password
                   secret w) in
  txn w' = None
  /\ (disk w' = disk w
      \/ exists called digest d1 d2,
           (len password <? PASSWORD_MIN_LENGTH cfg) = false
           /\ hash_password policy common password = (called, inr digest)
           /\ sql_insert_user uid
                {| username := steam_login; password_hash := digest;
                   is_active := true; failed_login_attempts := 0;
                   mfa_secret := Some secret; balance := 0 |} (disk w)
              = Some d1
           /\ sql_insert_audit
                {| audit_user_id := Some uid; action_type := "user_registered";
                   action_details := steam_login |} d1 = Some d2
           /\ disk w' = d2).
Proof.
  destruct w as [d0 t f s c]. cbn [txn]. intros ->.
  unfold _register_new_user. io_eval.
  register_cases ltac:(split; [done|]; first [by left | right; eauto 14]).
Qed.

(** X22. A registration ends with no transaction open, and either leaves the
    committed tables as they were or has added exactly one account, under
    an id that was free: its stored hash is the digest that the Argon2
    hasher returned for a password that the whole policy accepts, its
    balance is zero, its counter of failed logins is zero and it has a
    second-factor secret. No other account and no transaction row is
    touched. This holds for every script of failures. *)
Theorem _register_new_user_stores_digest `{Argon2} cfg policy common uid
    steam_login password secret w :
  txn w = None ->
  let w' := snd (_register_new_user cfg policy common uid steam_login password
                   secret w) in
  txn w' = None
  /\ transactions (disk w') = transactions (disk w)
  /\ (users (disk w') = users (disk w)
      \/ exists digest,
           users (disk w) !! uid = None
           /\ PASSWORD_MIN_LENGTH cfg <= len password
           /\ _validate_password_policy policy common password = inr tt
           /\ argon2_hash password = Some digest
           /\ users (disk w')
              = <[uid := {| username := steam_login; password_hash := digest;
                            is_active := true; failed_login_attempts := 0;
                            mfa_secret := Some secret; balance := 0 |}]>
                  (users (disk w))).
Proof.
  intros Htxn w'.
  destruct (_register_new_user_atomic cfg policy common uid steam_login
              password secret w Htxn) as [Hclosed Hdisk].
  fold w' in Hclosed, Hdisk. split; [done|].
  destruct Hdisk as [-> | (called & digest & d1 & d2 & Hlen & Hhash & H1 & H2
                           & ->)].
  { split; [done | by left]. }
  apply hash_password_digest in Hhash as [Hpolicy Hdigest].
  apply sql_insert_user_Some in H1 as (Hnone & _ & _ & ->).
  apply sql_insert_audit_Some in H2 as [Husers Hrows].
  rewrite Husers, Hrows. split; [done|].
  right. exists digest. apply Z.ltb_ge in Hlen. done.
Qed.

(** The theorem at work on the registration of the scenario. *)
Lemma _register_new_user_stores_digest_witness :
  txn (snd (@_register_new_user plain_argon2 default_config
              (make_password_policy 12) default_common_passwords 1 "gamer"
              "Right#Passw0rd" "JBSWY3DPEHPK3PXP" (quiet_world empty_database)))
  = None.
Proof.
  apply (@_register_new_user_stores_digest plain_argon2 default_config
           (make_password_policy 12) default_common_passwords 1 "gamer"
           "Right#Passw0rd" "JBSWY3DPEHPK3PXP" (quiet_world empty_database)).
  reflexivity.
Defined.

(** X23. A registration that meets no failure stores the account and the audit
    record and still ends in DATABASE_ERROR: [log_audit] commits inside the
    transaction of the handler, which then has nothing left to commit. *)
Theorem _register_new_user_reports_error `{Argon2} cfg policy common uid
    steam_login password secret w called digest :
  calm w -> users (disk w) !! uid = None ->
  username_taken steam_login (disk w) = false ->
  PASSWORD_MIN_LENGTH cfg <= len password ->
  hash_password policy common password = (called, inr digest) ->
  exists w',
    _register_new_user cfg policy common uid steam_login password secret w
    = (inl (BotError DATABASE_ERROR), w')
    /\ calm w'
    /\ users (disk w') !! uid
       = Some {| username := steam_login; password_hash := digest;
                 is_active := true; failed_login_attempts := 0;
                 mfa_secret := Some secret; balance := 0 |}
    /\ audit_log (disk w')
       = audit_log (disk w)
         ++ [{| audit_user_id := Some uid; action_type := "user_registered";
                action_details := steam_login |}].
Proof.
  intros Hw Hu Hname Hlen Hhash.
  rewrite (calm_world w Hw). set (d0 := disk w) in *.
  unfold _register_new_user. io_eval. rewrite Hu. io_eval.
  apply Z.ltb_ge in Hlen. rewrite Hlen, Hhash. io_eval.
  set (u := {| username := steam_login; password_hash := digest;
               is_active := true; failed_login_attempts := 0;
               mfa_secret := Some secret; balance := 0 |}).
  assert (Hinsert : sql_insert_user uid u d0
                    = Some (set_users (<[uid := u]> (users d0)) d0)).
  { unfold sql_insert_user. rewrite Hu. cbn [username u]. by rewrite Hname. }
  rewrite Hinsert. io_eval.
  set (d1 := set_users (<[uid := u]> (users d0)) d0).
  assert (Hu1 : users d1 !! uid = Some u) by apply lookup_insert_eq.
  set (r := {| audit_user_id := Some uid; action_type := "user_registered";
               action_details := steam_login |}).
  assert (Haudit : sql_insert_audit r d1
                   = Some {| users := users d1; transactions := transactions d1;
                             sessions := sessions d1;
                             audit_log := audit_log d1 ++ [r] |}).
  { unfold sql_insert_audit. cbn [audit_user_id r]. by rewrite Hu1. }
  rewrite Haudit. io_eval.
  eexists. split; [reflexivity|]. split; [done|]. cbn.
  split; [apply lookup_insert_eq | done].
Qed.

(** The theorem at work on the registration of the scenario. *)
Lemma _register_new_user_reports_error_witness :
  fst (@_register_new_user plain_argon2 default_config
         (make_password_policy 12) default_common_passwords 1 "gamer"
         "Right#Passw0rd" "JBSWY3DPEHPK3PXP" (quiet_world empty_database))
  = inl (BotError DATABASE_ERROR).
Proof.
  destruct (@_register_new_user_reports_error plain_argon2 default_config
              (make_password_policy 12) default_common_passwords 1 "gamer"
              "Right#Passw0rd" "JBSWY3DPEHPK3PXP" (quiet_world empty_database)
              [Argon2Hash "Right#Passw0rd"] "argon2:Right#Passw0rd")
    as (w' & Hrun & _);
    [done | reflexivity | reflexivity | by vm_compute | by vm_compute |].
  by rewrite Hrun.
Defined.

(** ** Switching the second factor off *)

(** X24. [_toggle_mfa] asks for no password, no code and no session: in a
    run without failure the callback clears the secret of the sender's
    account when it has a second factor, and leaves the sessions as they
    are. Before it, a login with the right password is
    answered by the request for the code; after it the same login is not
    asked for a code: it takes the branch of the accounts without second
    factor, which ends in the [AttributeError] of line 5193. *)
Theorem _toggle_mfa_needs_no_code `{Argon2} cfg new_secret uid w u :
  calm w -> users (disk w) !! uid = Some u ->
  has_mfa_secret u = true ->
  0 <= balance u -> 0 <= failed_login_attempts u ->
  let w' := snd (_toggle_mfa new_secret uid w) in
  calm w'
  /\ users (disk w') = <[uid := set_mfa_secret None u]> (users (disk w))
  /\ sessions (disk w') = sessions (disk w)
  /\ forall now session_token_hex bearer password,
       failed_login_attempts u < MAX_LOGIN_ATTEMPTS cfg ->
       password_accepted password (password_hash u) = true ->
       fst (_authenticate_existing_user cfg now session_token_hex bearer uid
              password w)
       = inr AwaitMfaCode
       /\ fst (_authenticate_existing_user cfg now session_token_hex bearer uid
                 password w')
          = inl AttributeError.
Proof.
  intros Hw Hu Hmfa Hbal Hfail w'.
  assert (Hrun : w' = set_store
                        (set_users (<[uid := set_mfa_secret None u]>
                                      (users (disk w))) (disk w)) None w).
  { unfold w', _toggle_mfa, try_except.
    rewrite bind_run, get_user_calm, Hu by done.
    rewrite Hmfa. rewrite !bind_run, Database_execute_calm by done.
    unfold sql_set_mfa_secret, update_user_row. rewrite Hu.
    cbn [balance failed_login_attempts set_mfa_secret].
    destruct (Z.ltb_spec (balance u) 0); [lia|].
    destruct (Z.ltb_spec (failed_login_attempts u) 0); [lia|]. cbn [orb].
    set (w1 := set_store _ None w).
    assert (Hw1 : calm w1) by by apply calm_set_store.
    rewrite external_call_calm by done.
    rewrite bind_run, get_user_calm by done.
    assert (users (disk w1) !! uid = Some (set_mfa_secret None u)) as ->
      by apply lookup_insert_eq.
    by rewrite external_call_calm. }
  rewrite Hrun. split; [by apply calm_set_store|]. split; [done|].
  split; [done|].
  intros now session_token_hex bearer password Hbelow Hok. split.
  - destruct (authenticate_right_password cfg now session_token_hex bearer uid
                password w u) as (w2 & -> & _); try done.
    by rewrite Hmfa.
  - destruct (authenticate_right_password cfg now session_token_hex bearer uid
                password
                (set_store
                   (set_users (<[uid := set_mfa_secret None u]> (users (disk w)))
                      (disk w)) None w)
                (set_mfa_secret None u))
      as (w2 & -> & _); try done.
    + by apply calm_set_store.
    + apply lookup_insert_eq.
Qed.

(** The theorem at work on an account with a second factor. *)
Lemma _toggle_mfa_needs_no_code_witness :
  let db :=
    set_users
      {[ 1 := {| username := "gamer"; password_hash := "argon2:Right#Passw0rd";
                 is_active := true; failed_login_attempts := 0;
                 mfa_secret := Some "JBSWY3DPEHPK3PXP"; balance := 0 |} ]}
      empty_database in
  let w' := snd (_toggle_mfa "NEWSECRET" 1 (quiet_world db)) in
  (mfa_secret <$> users (disk w') !! 1) = Some None
  /\ fst (@_authenticate_existing_user plain_argon2 default_config 50 "ab" "cd"
            1 "Right#Passw0rd" (quiet_world db))
     = inr AwaitMfaCode
  /\ fst (@_authenticate_existing_user plain_argon2 default_config 50 "ab" "cd"
            1 "Right#Passw0rd" w')
     = inl AttributeError.
Proof.
  intros db w'.
  destruct (@_toggle_mfa_needs_no_code plain_argon2 default_config "NEWSECRET" 1
              (quiet_world db)
              {| username := "gamer"; password_hash := "argon2:Right#Passw0rd";
                 is_active := true; failed_login_attempts := 0;
                 mfa_secret := Some "JBSWY3DPEHPK3PXP"; balance := 0 |})
    as (_ & Husers & _ & Hlogin);
    [done | reflexivity | done | cbn; lia | cbn; lia |].
  fold w' in Husers, Hlogin. split.
  - rewrite Husers. by rewrite lookup_insert_eq.
  - apply (Hlogin 50 "ab" "cd" "Right#Passw0rd"); by vm_compute.
Defined.

(** ** A second round of the reconciliation *)

Lemma update_user_row_transactions f uid d d' :
  update_user_row f uid d = Some d' -> transactions d' = transactions d.
Proof.
  intros Hrow.
  by apply update_user_row_Some in Hrow as [[_ ->] | (u & _ & _ & _ & ->)].
Qed.

Lemma reconcile_transaction_stuck now x rest w :
  stuck_within now (x :: rest) w ->
  stuck_within now rest (snd (reconcile_transaction now x w)).
Proof.
  intros [Hw Hstuck]. unfold reconcile_transaction.
  rewrite bind_run, update_transaction_status_calm by done.
  set (d1 := set_transactions _ (disk w)). set (w1 := set_store d1 None w).
  assert (Hw1 : calm w1) by by apply calm_set_store.
  assert (Hrows : forall r, In r (transactions d1) -> is_stuck now r = true ->
                            In (transaction_id r) (map transaction_id rest)).
  { intros r Hr Hs. unfold d1 in Hr. cbn in Hr.
    apply in_map_iff in Hr as (t & Ht & Hin).
    destruct (String.eqb_spec (transaction_id t) (transaction_id x)) as [Hid|Hid].
    - subst r. unfold is_stuck in Hs. cbn in Hs. done.
    - subst r. destruct (Hstuck t Hin Hs) as [Heq | Hrest]; [|done].
      cbn in Heq. congruence. }
  case_bool_decide as Htype; cbn [snd]; [|done].
  rewrite Database_execute_calm by done. change (disk w1) with d1.
  destruct (sql_add_balance (amount x) (user_id x) d1) as [d2|] eqn:Hadd;
    cbn [snd]; [|done].
  split; [by apply calm_set_store|]. cbn [disk set_store].
  apply update_user_row_transactions in Hadd. by rewrite Hadd.
Qed.

(** X25. After a round of the reconciliation that meets no failure of the
    environment, no row of the table is stuck at the time of the round, and
    a second round at that time finds nothing to do: it leaves the bot as
    it is, so that no amount is given back twice by the reconciliation. *)
Theorem _task_check_pending_transactions_settles now w :
  calm w ->
  let w' := snd (_task_check_pending_transactions now w) in
  calm w'
  /\ (forall r, In r (transactions (disk w')) -> is_stuck now r = false)
  /\ _task_check_pending_transactions now w' = (inr tt, w').
Proof.
  intros Hw w'.
  assert (Hend : stuck_within now [] w').
  { unfold w', _task_check_pending_transactions.
    match goal with
    | |- context [try_except ?m _ w] =>
        destruct (try_except_pass m w tt) as [a ->]
    end.
    rewrite bind_run, fetch_all_calm by done. cbn [snd].
    apply (for_each_guarded_invariant (stuck_within now)
             (reconcile_transaction now) (reconcile_transaction_stuck now)).
    split; [done|]. intros r Hr Hs. apply in_map, filter_In. done. }
  destruct Hend as [Hw' Hnone]. split; [done|].
  assert (Hfalse : forall r, In r (transactions (disk w')) ->
                             is_stuck now r = false).
  { intros r Hr. apply not_true_iff_false. intros Hs.
    by destruct (Hnone r Hr Hs). }
  split; [done|].
  unfold _task_check_pending_transactions, try_except.
  rewrite bind_run, fetch_all_calm by done.
  by rewrite filter_none.
Qed.

(** The theorem at work on the store reached by the scenario, two hours
    later. *)
Lemma _task_check_pending_transactions_settles_witness :
  let db := scenario_requested in
  let w' := snd (_task_check_pending_transactions 7300 (quiet_world db)) in
  _task_check_pending_transactions 7300 w' = (inr tt, w').
Proof.
  intros db w'.
  apply (_task_check_pending_transactions_settles 7300 (quiet_world db)).
  done.
Defined.
